(** * Pipelines-as-Code prow commands: approval, merge and cherry-pick

    A shallow embedding of [src/boussole/boussole.py] and
    [src/prow/prow.py].  Both scripts drive the GitHub REST API from a
    single trigger comment.  The embedding keeps the API on the outside:
    an environment answers every call as a function of the calls made so
    far, and the scripts become programs in a small monad that records the
    calls, the printed diagnostics and the way the process ends
    ([return], [sys.exit] or an uncaught exception).

    Text is ASCII: the character classes of the regular expressions are
    given on codes below 128 and every other code is neither a word
    character nor white space.  JSON bodies are typed per endpoint, so a
    body of the wrong shape is not an input of the model, and the gateway
    always answers (a transport exception of [requests] is not modelled). *)

From Stdlib Require Import String Ascii List ZArith Lia Bool.
Import ListNotations.
Open Scope string_scope.
Open Scope Z_scope.

(** ** Text: the regular expressions of the scripts *)

Module Text.

Definition code (c : ascii) : Z := Z.of_N (N_of_ascii c).

Definition is_upper (c : ascii) : bool := (65 <=? code c) && (code c <=? 90).
Definition is_lower (c : ascii) : bool := (97 <=? code c) && (code c <=? 122).
Definition is_digit (c : ascii) : bool := (48 <=? code c) && (code c <=? 57).

(** [\w] *)
Definition is_word (c : ascii) : bool :=
  is_upper c || is_lower c || is_digit c || (code c =? 95).

(** [\s], also what [str.split()] splits on: tab to carriage return, the
    four separators 28..31 and the space. *)
Definition is_space (c : ascii) : bool :=
  ((9 <=? code c) && (code c <=? 13)) || ((28 <=? code c) && (code c <=? 32)).

Definition lower (c : ascii) : ascii :=
  if is_upper c then ascii_of_N (N_of_ascii c + 32) else c.

(** A literal at the start of [s]; the remainder of [s] when it is there.
    [ci] is [re.IGNORECASE]. *)
Fixpoint literal (ci : bool) (lit s : string) : option string :=
  match lit with
  | EmptyString => Some s
  | String a lit' =>
      match s with
      | EmptyString => None
      | String b s' =>
          if (if ci then Ascii.eqb (lower a) (lower b) else Ascii.eqb a b)
          then literal ci lit' s' else None
      end
  end.

(** [re.search(r"^/lgtm\b", body, re.IGNORECASE)]: without [re.MULTILINE]
    the caret is the start of the text; after the word character [m] the
    boundary asks for the end of the text or a character outside [\w]. *)
Definition matches_lgtm (body : string) : bool :=
  match literal true "/lgtm" body with
  | Some EmptyString => true
  | Some (String c _) => negb (is_word c)
  | None => false
  end.

Fixpoint skip_spaces (s : string) : string :=
  match s with
  | String c s' => if is_space c then skip_spaces s' else s
  | EmptyString => EmptyString
  end.

Fixpoint take_nonspace (s : string) : string :=
  match s with
  | String c s' => if is_space c then EmptyString else String c (take_nonspace s')
  | EmptyString => EmptyString
  end.

Fixpoint drop_nonspace (s : string) : string :=
  match s with
  | String c s' => if is_space c then s else drop_nonspace s'
  | EmptyString => EmptyString
  end.

(** [re.match(r"^/cherry-pick\s+(\S+)", body, re.IGNORECASE)] and its
    [group(1)]: at least one white space, all of them skipped, then the
    longest run without white space, which must not be empty. *)
Definition cherry_pick_target (body : string) : option string :=
  match literal true "/cherry-pick" body with
  | Some (String c rest) =>
      if is_space c then
        match take_nonspace (skip_spaces rest) with
        | EmptyString => None
        | branch => Some branch
        end
      else None
  | _ => None
  end.

(** The final group of the command pattern, a run of any characters but
    the line feed: the text up to the first line feed. *)
Fixpoint take_line (s : string) : string :=
  match s with
  | String c s' => if Ascii.eqb c "010"%char then EmptyString else String c (take_line s')
  | EmptyString => EmptyString
  end.

(** [str.split()]: the runs without white space.  The fuel is the length
    of the text, which bounds the number of runs. *)
Fixpoint split_fuel (fuel : nat) (s : string) : list string :=
  match fuel with
  | O => []
  | S fuel' =>
      match skip_spaces s with
      | EmptyString => []
      | s' => take_nonspace s' :: split_fuel fuel' (drop_nonspace s')
      end
  end.

Definition split (s : string) : list string := split_fuel (String.length s) s.

(** The command pattern of [main], used with [re.match]: a slash, one of the
    command names, optional white space, the rest of the line.  The first
    alternative that starts the text after the slash is the command; the
    rest of the pattern always matches.  Returns the command and
    [values.split()]. *)
Fixpoint first_command (names : list string) (s : string) : option (string * string) :=
  match names with
  | [] => None
  | name :: names' =>
      match literal false name s with
      | Some rest => Some (name, rest)
      | None => first_command names' s
      end
  end.

Definition parse_command (names : list string) (text : string)
  : option (string * list string) :=
  match text with
  | String "/"%char s =>
      match first_command names s with
      | Some (name, rest) => Some (name, split (take_line (skip_spaces rest)))
      | None => None
      end
  | _ => None
  end.

(** [s.split(",")] *)
Fixpoint split_comma_acc (s acc : string) : list string :=
  match s with
  | EmptyString => [acc]
  | String c s' =>
      if Ascii.eqb c ","%char then acc :: split_comma_acc s' EmptyString
      else split_comma_acc s' (acc ++ String c EmptyString)
  end.

Definition split_comma (s : string) : list string := split_comma_acc s EmptyString.

(** [user.lstrip("@")] *)
Fixpoint lstrip_at (s : string) : string :=
  match s with
  | String c s' => if Ascii.eqb c "@"%char then lstrip_at s' else s
  | EmptyString => EmptyString
  end.

End Text.

(** ** Data model *)

(** One element of the comment listing: [comment.get("body", "")],
    [comment["user"]["login"]] and [comment["html_url"]]. *)
Record Comment := { body : string; login : string; html_url : string }.

(** One element of the commit listing: [commit["sha"]] and
    [commit.get("commit", {}).get("message", "")]. *)
Record Commit := { sha : string; message : string }.

(** The pull request object: [.get("state")] and [["base"]["ref"]]. *)
Record PullInfo := { state : option string; base_ref : string }.

(** A [requests.Response]: [status_code], [text] and the decoded [json()]. *)
Record Resp (A : Type) := { status_code : Z; text : string; json : A }.
Arguments status_code {A} _.
Arguments text {A} _.
Arguments json {A} _.

(** What a handler hands back to [main]: a response of the API, or the
    fresh [requests.Response()] whose [status_code] is [None]. *)
Inductive Returned := Real (r : Resp unit) | Blank.

(** [Response.__bool__] is [Response.ok]: false exactly on 400..599. *)
Definition response_ok {A} (r : Resp A) : bool :=
  negb ((400 <=? status_code r) && (status_code r <? 600)).

(** A row of the users table: the user, [permission or default] and the mark. *)
Record Row := { row_user : string; row_permission : string; row_valid : bool }.

(** The [status_code] field of the cherry-pick error report is a literal
    text at some call sites and the integer of a response at others. *)
Inductive Status := StatusText (s : string) | StatusCode (n : Z).

(** Every text the scripts post or print, as the template (or f-string)
    and the fields it is formatted with, read off the [.format(...)] calls.
    The wording of the templates is in [prow.py] itself and, for boussole,
    in its [messages] module; the properties below are about the fields. *)
Inductive Message :=
| PERMISSION_CHECK_ERROR (user : string) (status : Z)
| PERMISSION_DATA_MISSING (user : string)
| COMMENTS_FETCH_ERROR (status : Z) (response_text pr : string)
| SELF_APPROVAL_ERROR (user comment_url : string)
| INSUFFICIENT_PERMISSIONS (user : string) (permission : option string)
    (required_permissions : list string)
| NOT_ENOUGH_LGTM (valid_votes threshold : Z)
| MERGE_FAILED (pr : string) (status : Z) (error_text : string)
| HELP_TEXT
| APPROVED_TEMPLATE (threshold valid_votes : Z) (users_table : list Row)
| LGTM_BREAKDOWN_TEMPLATE (valid_votes threshold : Z) (users_table : list Row)
| SUCCESS_MERGED (method sender : string) (valid_votes threshold : Z)
    (users_table : list Row)
| CHERRY_PICK_ERROR (source_pr target_branch : string) (status : Status)
    (error_text : string)
| CHERRY_PICK_SUCCESS (source_pr target_branch user commit_sha : string)
| CHERRY_PICK_CONFLICT (pr target_branch : string)
    (current_commit total_commits : Z) (commit_sha : string)
| MSG_assigned (command : string) (users : list string)
| MSG_added_labels (labels : list string)
| MSG_removed_labels (labels : list string)
| MSG_will_cherry_pick (target_branch : string)
| MSG_rebased
| MSG_pr_approved
| MSG_no_valid_command (trigger_comment : string)
| MSG_not_open (pr : string)
| MSG_status_unavailable (pr response_text : string)
| MSG_comments_unavailable (pr response_text : string)
| MSG_cherry_pick_arguments (values : list string)
| MSG_command_error (status : Z) (response_text : string)
| MSG_merge_title (pr : string)
| MSG_merge_message (pr sender : string) (valid_votes : Z)
| MSG_cherry_pick_commit (i total : Z) (pr target_branch commit_msg sender : string).

(** The calls on the API, by endpoint and method, with their arguments. *)
Inductive Call :=
| GET_comments (pr : string)
| POST_comment (pr : string) (message : Message)
| GET_permission (user : string)
| GET_commits (pr : string)
| GET_ref (branch : string)
| POST_ref (branch_name base_sha : string)
| GET_pull (number : string)
| PUT_merge (pr method : string) (commit_title commit_message : Message)
| POST_merges (base head : string) (commit_message : Message)
| POST_review (pr event : string) (message : Message)
| POST_reviewers (pr : string) (reviewers : list string)
| DELETE_reviewers (pr : string) (reviewers : list string)
| POST_labels (pr : string) (labels : list string)
| DELETE_label (pr label : string)
| PUT_update_branch (pr : string).

(** The outside world.  Each answer is a function of the calls made
    before it, so an environment may change its mind between two calls.
    [set_order] is the order in which Python iterates over the [set] that
    was filled by adding the given branch names one after the other. *)
Record Env := {
  comments_of : list Call -> string -> Resp (list Comment);
  permission_of : list Call -> string -> Resp (option string);
  commits_of : list Call -> string -> Resp (list Commit);
  ref_of : list Call -> string -> Resp (option string);
  pull_of : list Call -> string -> Resp PullInfo;
  merges_of : list Call -> string -> string -> Resp string;
  plain_of : list Call -> Call -> Resp unit;
  set_order : list string -> list string
}.

(** The handler object, [self]. *)
Record Handler := {
  pr_num : string;
  pr_sender : string;
  comment_sender : string;
  lgtm_threshold : Z;
  lgtm_permissions : list string;
  lgtm_review_event : string;
  merge_method : string
}.

(** [PRHandler.__init__]: the permissions arrive as one comma-separated text. *)
Definition PRHandler_init (pr sender commenter : string) (threshold : Z)
    (permissions review_event method : string) : Handler :=
  {| pr_num := pr; pr_sender := sender; comment_sender := commenter;
     lgtm_threshold := threshold;
     lgtm_permissions := Text.split_comma permissions;
     lgtm_review_event := review_event; merge_method := method |}.

(** ** The monad of a run *)

Inductive Print := Stdout (m : Message) | Stderr (m : Message).

(** The state of a run: the calls made, what was printed, and the cached
    [self._pr_status]. *)
Record St := {
  trace : list Call;
  out : list Print;
  cached_pr_status : option (Resp PullInfo)
}.

(** How a computation ends: with a value, in [sys.exit(code)], or in an
    exception nobody catches. *)
Inductive Outcome (A : Type) :=
| Ret (a : A)
| Exit (code : Z)
| Raise (exn : string).
Arguments Ret {A} a.
Arguments Exit {A} code.
Arguments Raise {A} exn.

Definition M (A : Type) : Type := St -> Outcome A * St.

Definition ret {A} (a : A) : M A := fun s => (Ret a, s).

Definition bind {A B} (c : M A) (k : A -> M B) : M B :=
  fun s =>
    match c s with
    | (Ret a, s') => k a s'
    | (Exit code, s') => (Exit code, s')
    | (Raise exn, s') => (Raise exn, s')
    end.

Declare Scope run_scope.
Delimit Scope run_scope with run.
Notation "x <- c ;; k" := (bind c (fun x => k))
  (at level 100, c at next level, right associativity) : run_scope.
Notation "' p <- c ;; k" := (bind c (fun x => match x with p => k end))
  (at level 100, p pattern, c at next level, right associativity) : run_scope.
Notation "c ;;; k" := (bind c (fun _ => k))
  (at level 100, right associativity) : run_scope.
Open Scope run_scope.

Definition sys_exit {A} (code : Z) : M A := fun s => (Exit code, s).
Definition raise {A} (exn : string) : M A := fun s => (Raise exn, s).

Definition print (p : Print) : M unit :=
  fun s => (Ret tt, {| trace := trace s; out := out s ++ [p];
                       cached_pr_status := cached_pr_status s |}).
Definition print_out (m : Message) : M unit := print (Stdout m).
Definition print_err (m : Message) : M unit := print (Stderr m).

Definition record (c : Call) (s : St) : St :=
  {| trace := trace s ++ [c]; out := out s;
     cached_pr_status := cached_pr_status s |}.

Definition set_pr_status (r : Resp PullInfo) : M unit :=
  fun s => (Ret tt, {| trace := trace s; out := out s;
                       cached_pr_status := Some r |}).
Definition get_pr_status_cache : M (option (Resp PullInfo)) :=
  fun s => (Ret (cached_pr_status s), s).

(** An insertion-ordered [dict] from users to permissions. *)
Definition Dict := list (string * option string).

(** [d[k] = v]: an existing key keeps its place, a new key goes last. *)
Fixpoint dict_set (d : Dict) (k : string) (v : option string) : Dict :=
  match d with
  | [] => [(k, v)]
  | (k', v') :: d' =>
      if String.eqb k' k then (k, v) :: d' else (k', v') :: dict_set d' k v
  end.

Definition keys (d : Dict) : list string := map fst d.

(** ** What the two scripts share

    [GitHubAPI], the comment poster and the loops that appear with the
    same text in both files (in [lgtm], and in boussole's
    [_fetch_and_validate_lgtm_votes]). *)

Section Common.

Variable E : Env.
Variable h : Handler.

(** [GitHubAPI.get/post/put/delete]: the answer depends on the calls made
    so far, and the call joins them. *)
Definition api_get_comments (pr : string) : M (Resp (list Comment)) :=
  fun s => (Ret (comments_of E (trace s) pr), record (GET_comments pr) s).
Definition api_get_permission (user : string) : M (Resp (option string)) :=
  fun s => (Ret (permission_of E (trace s) user), record (GET_permission user) s).
Definition api_get_commits (pr : string) : M (Resp (list Commit)) :=
  fun s => (Ret (commits_of E (trace s) pr), record (GET_commits pr) s).
Definition api_get_ref (branch : string) : M (Resp (option string)) :=
  fun s => (Ret (ref_of E (trace s) branch), record (GET_ref branch) s).
Definition api_get_pull (number : string) : M (Resp PullInfo) :=
  fun s => (Ret (pull_of E (trace s) number), record (GET_pull number) s).
Definition api_post_merges (base head : string) (msg : Message) : M (Resp string) :=
  fun s => (Ret (merges_of E (trace s) base head), record (POST_merges base head msg) s).
Definition api_call (c : Call) : M (Resp unit) :=
  fun s => (Ret (plain_of E (trace s) c), record c s).

(** [_post_comment] / [post_comment] *)
Definition post_comment (message : Message) : M (Resp unit) :=
  api_call (POST_comment (pr_num h) message).

(** The scan of the comments for votes:
<<
  for comment in comments:
      body = comment.get("body", "")
      if re.search(r"^/lgtm\b", body, re.IGNORECASE):
          user = comment["user"]["login"]
          if user == self.pr_sender:
              msg = SELF_APPROVAL_ERROR.format(...)
              self._post_comment(msg); print(msg, file=sys.stderr); sys.exit(1)
          lgtm_users[user] = None
>> *)
Fixpoint scan_votes (comments : list Comment) (lgtm_users : Dict) : M Dict :=
  match comments with
  | [] => ret lgtm_users
  | comment :: rest =>
      if Text.matches_lgtm (body comment) then
        let user := login comment in
        if String.eqb user (pr_sender h) then
          let msg := SELF_APPROVAL_ERROR user (html_url comment) in
          post_comment msg ;;;
          print_err msg ;;;
          sys_exit 1
        else scan_votes rest (dict_set lgtm_users user None)
      else scan_votes rest lgtm_users
  end.

(** The tally over the users of the dictionary:
<<
  valid_votes = 0
  for user in lgtm_users:
      permission, is_valid = self._check_membership(user)
      lgtm_users[user] = permission
      if is_valid:
          valid_votes += 1
>> *)
Fixpoint tally_votes (check_membership : string -> M (option string * bool))
    (users : list string) (lgtm_users : Dict) (valid_votes : Z) : M (Z * Dict) :=
  match users with
  | [] => ret (valid_votes, lgtm_users)
  | user :: rest =>
      ' (permission, is_valid) <- check_membership user ;;
      tally_votes check_membership rest (dict_set lgtm_users user permission)
        (if is_valid then valid_votes + 1 else valid_votes)
  end.

(** [permission in self.lgtm_permissions], where [None] is in no list of texts *)
Definition permission_in (permission : option string) : bool :=
  match permission with
  | Some p => existsb (String.eqb p) (lgtm_permissions h)
  | None => false
  end.

(** [permission or default] *)
Definition or_default (permission : option string) (default : string) : string :=
  match permission with
  | Some EmptyString => default
  | Some p => p
  | None => default
  end.

(** The users table: one row per item of the dictionary, in its order. *)
Definition users_table (default : string) (lgtm_users : Dict) : list Row :=
  map (fun item => {| row_user := fst item;
                      row_permission := or_default (snd item) default;
                      row_valid := permission_in (snd item) |}) lgtm_users.

(** [_post_lgtm_breakdown] / [post_lgtm_breakdown] *)
Definition post_lgtm_breakdown (valid_votes : Z) (lgtm_users : Dict) : M unit :=
  post_comment (LGTM_BREAKDOWN_TEMPLATE valid_votes (lgtm_threshold h)
                  (users_table "none" lgtm_users)) ;;;
  ret tt.

(** [assign_unassign] *)
Definition assign_unassign (command : string) (users : list string) : M (Resp unit) :=
  let users := map Text.lstrip_at users in
  response <- api_call (if String.eqb command "assign"
                        then POST_reviewers (pr_num h) users
                        else DELETE_reviewers (pr_num h) users) ;;
  (if response_ok response &&
      ((status_code response =? 200) || (status_code response =? 201)
       || (status_code response =? 204))
   then post_comment (MSG_assigned command users) ;;; ret tt
   else ret tt) ;;;
  ret response.

(** [label] *)
Definition label (labels : list string) : M (Resp unit) :=
  post_comment (MSG_added_labels labels) ;;;
  api_call (POST_labels (pr_num h) labels).

Fixpoint delete_labels (labels : list string) : M unit :=
  match labels with
  | [] => ret tt
  | l :: rest => api_call (DELETE_label (pr_num h) l) ;;; delete_labels rest
  end.

(** [unlabel] *)
Definition unlabel (labels : list string) : M Returned :=
  delete_labels labels ;;;
  post_comment (MSG_removed_labels labels) ;;;
  ret Blank.

End Common.

(** ** [src/boussole/boussole.py] *)

Module Boussole.

Section Handler.

Variable E : Env.
Variable h : Handler.

Definition _post_comment := post_comment E h.

(** [check_response] *)
Definition check_response (resp : Resp unit) : M bool :=
  if (200 <=? status_code resp) && (status_code resp <? 300) then ret true
  else print_err (MSG_command_error (status_code resp) (text resp)) ;;; ret false.

(** [_check_membership] *)
Definition _check_membership (user : string) : M (option string * bool) :=
  response <- api_get_permission E user ;;
  if status_code response =? 404 then ret (None, false)
  else if negb (status_code response =? 200) then
    print_err (PERMISSION_CHECK_ERROR user (status_code response)) ;;;
    ret (None, false)
  else
    match json response with
    | None | Some EmptyString =>
        print_err (PERMISSION_DATA_MISSING user) ;;; ret (None, false)
    | Some permission => ret (Some permission, permission_in h (Some permission))
    end.

(** [_fetch_and_validate_lgtm_votes] *)
Definition _fetch_and_validate_lgtm_votes : M (Z * Dict) :=
  response <- api_get_comments E (pr_num h) ;;
  if negb (status_code response =? 200) then
    print_err (COMMENTS_FETCH_ERROR (status_code response) (text response) (pr_num h)) ;;;
    sys_exit 1
  else
    lgtm_users <- scan_votes E h (json response) [] ;;
    tally_votes _check_membership (keys lgtm_users) lgtm_users 0.

(** [_get_pr_commits] *)
Definition _get_pr_commits (pr : string) : M (list Commit) :=
  response <- api_get_commits E pr ;;
  if negb (status_code response =? 200) then ret [] else ret (json response).

Definition _post_lgtm_breakdown := post_lgtm_breakdown E h.

(** [_get_branch_sha] *)
Definition _get_branch_sha (branch : string) : M (option string) :=
  response <- api_get_ref E branch ;;
  if negb (status_code response =? 200) then ret None else ret (json response).

(** [_create_branch] *)
Definition _create_branch (branch_name base_sha : string) : M bool :=
  response <- api_call E (POST_ref branch_name base_sha) ;;
  ret (status_code response =? 201).

(** [_get_pr_status]: the cached response is used when it is truthy. *)
Definition _get_pr_status (number : string) : M (Resp PullInfo) :=
  cached <- get_pr_status_cache ;;
  match cached with
  | Some r =>
      if response_ok r then ret r
      else r' <- api_get_pull E number ;; set_pr_status r' ;;; ret r'
  | None => r' <- api_get_pull E number ;; set_pr_status r' ;;; ret r'
  end.

(** [check_status] *)
Definition check_status (num status : string) : M bool :=
  pr_status <- _get_pr_status num ;;
  if negb (status_code pr_status =? 200) then
    print_err (MSG_status_unavailable num (text pr_status)) ;;;
    sys_exit 1
  else
    ret (match state (json pr_status) with
         | Some s => String.eqb s status
         | None => false
         end).

(** [cherry_pick] *)
Definition cherry_pick (values : list string) : M Returned :=
  match values with
  | [target_branch] =>
      _post_comment (MSG_will_cherry_pick target_branch) ;;;
      ret Blank
  | _ => print_err (MSG_cherry_pick_arguments values) ;;; sys_exit 1
  end.

(** [rebase] *)
Definition rebase : M (Resp unit) :=
  _post_comment MSG_rebased ;;;
  api_call E (PUT_update_branch (pr_num h)).

(** [lgtm] *)
Definition lgtm (send_comment : bool) : M Z :=
  response <- api_get_comments E (pr_num h) ;;
  if negb (status_code response =? 200) then
    print_err (COMMENTS_FETCH_ERROR (status_code response) (text response) (pr_num h)) ;;;
    sys_exit 1
  else
    lgtm_users <- scan_votes E h (json response) [] ;;
    ' (valid_votes, lgtm_users) <-
        tally_votes _check_membership (keys lgtm_users) lgtm_users 0 ;;
    if lgtm_threshold h <=? valid_votes then
      print_out MSG_pr_approved ;;;
      api_call E (POST_review (pr_num h) (lgtm_review_event h)
                    (APPROVED_TEMPLATE (lgtm_threshold h) valid_votes
                       (users_table h "none" lgtm_users))) ;;;
      ret valid_votes
    else
      print_out (NOT_ENOUGH_LGTM valid_votes (lgtm_threshold h)) ;;;
      (if send_comment then _post_lgtm_breakdown valid_votes lgtm_users else ret tt) ;;;
      sys_exit 0.

(** [_handle_merge_conflict] *)
Definition _handle_merge_conflict (target_branch commit_sha : string)
    (current_commit total_commits : Z) : M unit :=
  _post_comment (CHERRY_PICK_CONFLICT (pr_num h) target_branch
                   current_commit total_commits commit_sha) ;;;
  ret tt.

(** The replay loop of [_perform_cherry_pick],
    [for i, commit in enumerate(commits, 1)].  It hands back whether it
    ran to its end together with [current_sha] as the loop leaves it; a
    [return False] inside the loop is the answer [false]. *)
Fixpoint replay (target_branch : string) (total i : Z) (commits : list Commit)
    (current_sha : string) : M (bool * string) :=
  match commits with
  | [] => ret (true, current_sha)
  | commit :: rest =>
      let commit_sha := sha commit in
      let commit_msg := message commit in
      response <- api_post_merges E target_branch commit_sha
                    (MSG_cherry_pick_commit i total (pr_num h) target_branch
                       commit_msg (comment_sender h)) ;;
      if status_code response =? 409 then
        _handle_merge_conflict target_branch commit_sha i total ;;;
        ret (false, current_sha)
      else if negb (status_code response =? 201) then
        _post_comment (CHERRY_PICK_ERROR (pr_num h) target_branch
                         (StatusCode (status_code response)) (text response)) ;;;
        ret (false, current_sha)
      else replay target_branch total (i + 1) rest (json response)
  end.

(** [not current_sha]: [None] and the empty text are falsy. *)
Definition truthy (s : option string) : option string :=
  match s with
  | Some EmptyString => None
  | Some s => Some s
  | None => None
  end.

(** The branch resolution of [_perform_cherry_pick]: the value of
    [current_sha] before the replay loop, or [None] where the function
    has posted an error and returns [False]. *)
Definition resolve_branch (target_branch : string) : M (option string) :=
  current_sha <- _get_branch_sha target_branch ;;
  match truthy current_sha with
  | Some current_sha => ret (Some current_sha)
  | None =>
      pr_status <- _get_pr_status (pr_num h) ;;
      let pr_info := json pr_status in
      let base_branch := base_ref pr_info in
      base_sha <- _get_branch_sha base_branch ;;
      match truthy base_sha with
      | None =>
          _post_comment (CHERRY_PICK_ERROR (pr_num h) target_branch
                           (StatusText "404")
                           ("Could not find base branch: " ++ base_branch)) ;;;
          ret None
      | Some base_sha =>
          created <- _create_branch target_branch base_sha ;;
          if negb created then
            _post_comment (CHERRY_PICK_ERROR (pr_num h) target_branch
                             (StatusText "422")
                             ("Could not create branch: " ++ target_branch)) ;;;
            ret None
          else ret (Some base_sha)
      end
  end.

(** What follows the replay loop in [_perform_cherry_pick]: the success
    report when the loop ran to its end. *)
Definition finish_job (target_branch : string) (r : bool * string)
  : M (bool * option string) :=
  let (completed, current_sha) := r in
  if completed then
    _post_comment (CHERRY_PICK_SUCCESS (pr_num h) target_branch
                     (comment_sender h) current_sha) ;;;
    ret (true, Some current_sha)
  else ret (false, Some current_sha).

(** The cherry-pick job: the body of [_perform_cherry_pick], handing back
    its result together with [current_sha] as the function leaves it
    ([None] while the variable is not bound). *)
Definition cherry_pick_job (target_branch : string) : M (bool * option string) :=
  commits <- _get_pr_commits (pr_num h) ;;
  match commits with
  | [] =>
      _post_comment (CHERRY_PICK_ERROR (pr_num h) target_branch
                       (StatusText "404") "Could not fetch PR commits") ;;;
      ret (false, None)
  | _ =>
      resolved <- resolve_branch target_branch ;;
      match resolved with
      | None => ret (false, None)
      | Some current_sha =>
          r <- replay target_branch (Z.of_nat (length commits)) 1 commits current_sha ;;
          finish_job target_branch r
      end
  end.

(** [_perform_cherry_pick] *)
Definition _perform_cherry_pick (target_branch : string) : M bool :=
  r <- cherry_pick_job target_branch ;;
  ret (fst r).

(** The branches asked for in the comments, in the order of the comments. *)
Fixpoint requested_branches (comments : list Comment) : list string :=
  match comments with
  | [] => []
  | comment :: rest =>
      match Text.cherry_pick_target (body comment) with
      | Some branch => branch :: requested_branches rest
      | None => requested_branches rest
      end
  end.

(** The loop over the branches in [merge_pr]:
<<
  for target_branch in cherry_pick_branches:
      if not self._perform_cherry_pick(target_branch):
          return False
>>
    [false] is the [return False]. *)
Fixpoint cherry_pick_all (branches : list string) : M bool :=
  match branches with
  | [] => ret true
  | target_branch :: rest =>
      ok <- _perform_cherry_pick target_branch ;;
      if negb ok then ret false else cherry_pick_all rest
  end.

(** [merge_pr] *)
Definition merge_pr : M bool :=
  ' (permission, is_valid) <- _check_membership (comment_sender h) ;;
  if negb is_valid then
    let msg := INSUFFICIENT_PERMISSIONS (comment_sender h) permission
                 (lgtm_permissions h) in
    _post_comment msg ;;;
    print_err msg ;;;
    sys_exit 1
  else
    ' (valid_votes, lgtm_users) <- _fetch_and_validate_lgtm_votes ;;
    if lgtm_threshold h <=? valid_votes then
      response <- api_call E (PUT_merge (pr_num h) (merge_method h)
                                (MSG_merge_title (pr_num h))
                                (MSG_merge_message (pr_num h) (pr_sender h) valid_votes)) ;;
      if response_ok response && (status_code response =? 200) then
        comments_response <- api_get_comments E (pr_num h) ;;
        if negb (status_code comments_response =? 200) then
          print_err (MSG_comments_unavailable (pr_num h) (text comments_response)) ;;;
          sys_exit 1
        else
          let comments := json comments_response in
          let cherry_pick_branches := set_order E (requested_branches comments) in
          completed <- cherry_pick_all cherry_pick_branches ;;
          if negb completed then ret false
          else
            _post_comment (SUCCESS_MERGED (merge_method h) (comment_sender h)
                             valid_votes (lgtm_threshold h)
                             (users_table h "unknown" lgtm_users)) ;;;
            ret true
      else
        _post_comment (MERGE_FAILED (pr_num h) (status_code response) (text response)) ;;;
        ret false
    else
      _post_comment (NOT_ENOUGH_LGTM valid_votes (lgtm_threshold h)) ;;;
      ret false.

Definition commands : list string :=
  ["rebase"; "cherry-pick"; "merge"; "assign"; "unassign"; "label"; "unlabel";
   "lgtm"; "help"].

(** The dispatch of [main] on the command: what [response] is bound to
    afterwards ([None] where the branch leaves it alone). *)
Definition dispatch (command : string) (values : list string) : M (option Returned) :=
  if String.eqb command "assign" || String.eqb command "unassign" then
    r <- assign_unassign E h command values ;; ret (Some (Real r))
  else if String.eqb command "label" then
    r <- label E h values ;; ret (Some (Real r))
  else if String.eqb command "unlabel" then
    r <- unlabel E h values ;; ret (Some r)
  else if String.eqb command "rebase" then
    r <- rebase ;; ret (Some (Real r))
  else if String.eqb command "help" then
    r <- _post_comment HELP_TEXT ;; ret (Some (Real r))
  else if String.eqb command "lgtm" then
    lgtm true ;;; ret None
  else if String.eqb command "merge" then
    merge_pr ;;; ret None
  else if String.eqb command "cherry-pick" then
    cherry_pick values ;;; ret None
  else ret None.

(** [main], after [parse_args]: the handler is [h] and the trigger comment
    is given.  [bool(response)] on the fresh [requests.Response()] compares
    [None] with an integer, a [TypeError]. *)
Definition main (trigger_comment : string) : M unit :=
  match Text.parse_command commands trigger_comment with
  | None => print_err (MSG_no_valid_command trigger_comment) ;;; sys_exit 1
  | Some (command, values) =>
      is_open <- check_status (pr_num h) "open" ;;
      if negb is_open then
        print_err (MSG_not_open (pr_num h)) ;;; sys_exit 1
      else
        response <- dispatch command values ;;
        match response with
        | None => ret tt
        | Some Blank => raise "TypeError"
        | Some (Real r) =>
            if response_ok r then
              ok <- check_response r ;;
              if negb ok then sys_exit 1 else ret tt
            else ret tt
        end
  end.

End Handler.

End Boussole.

(** ** [src/prow/prow.py] *)

Module Prow.

Section Handler.

Variable E : Env.
Variable h : Handler.

(** [check_membership]: no separate case for 404 here. *)
Definition check_membership (user : string) : M (option string * bool) :=
  response <- api_get_permission E user ;;
  if negb (status_code response =? 200) then
    print_err (PERMISSION_CHECK_ERROR user (status_code response)) ;;;
    ret (None, false)
  else
    match json response with
    | None | Some EmptyString =>
        print_err (PERMISSION_DATA_MISSING user) ;;; ret (None, false)
    | Some permission => ret (Some permission, permission_in h (Some permission))
    end.

(** [lgtm]: below the threshold the [else] branch ends in [sys.exit(0)],
    so [return valid_votes] is reached from the [if] branch only. *)
Definition lgtm (send_comment : bool) : M Z :=
  response <- api_get_comments E (pr_num h) ;;
  if negb (status_code response =? 200) then
    print_err (COMMENTS_FETCH_ERROR (status_code response) (text response) (pr_num h)) ;;;
    sys_exit 1
  else
    lgtm_users <- scan_votes E h (json response) [] ;;
    ' (valid_votes, lgtm_users) <-
        tally_votes check_membership (keys lgtm_users) lgtm_users 0 ;;
    (if lgtm_threshold h <=? valid_votes then
       print_out MSG_pr_approved ;;;
       api_call E (POST_review (pr_num h) (lgtm_review_event h)
                     (APPROVED_TEMPLATE (lgtm_threshold h) valid_votes
                        (users_table h "none" lgtm_users))) ;;;
       ret tt
     else
       print_out (NOT_ENOUGH_LGTM valid_votes (lgtm_threshold h)) ;;;
       (if send_comment then post_lgtm_breakdown E h valid_votes lgtm_users
        else ret tt) ;;;
       sys_exit 0) ;;;
    ret valid_votes.

(** The second scan, in [merge_pr], skips the votes of the PR sender:
<<
  for comment in comments:
      body = comment.get("body", "")
      if re.search(r"^/lgtm\b", body, re.IGNORECASE):
          user = comment["user"]["login"]
          if user != self.pr_sender:  # Skip self-approvals
              lgtm_users[user] = None
>> *)
Fixpoint rescan_votes (comments : list Comment) (lgtm_users : Dict) : Dict :=
  match comments with
  | [] => lgtm_users
  | comment :: rest =>
      if Text.matches_lgtm (body comment) then
        let user := login comment in
        if negb (String.eqb user (pr_sender h))
        then rescan_votes rest (dict_set lgtm_users user None)
        else rescan_votes rest lgtm_users
      else rescan_votes rest lgtm_users
  end.

(** [for user in lgtm_users.keys(): permission, _ = ...; lgtm_users[user] = permission] *)
Fixpoint refresh_permissions (users : list string) (lgtm_users : Dict) : M Dict :=
  match users with
  | [] => ret lgtm_users
  | user :: rest =>
      ' (permission, _) <- check_membership user ;;
      refresh_permissions rest (dict_set lgtm_users user permission)
  end.

(** [merge_pr] *)
Definition merge_pr : M bool :=
  ' (permission, is_valid) <- check_membership (comment_sender h) ;;
  if negb is_valid then
    let msg := INSUFFICIENT_PERMISSIONS (comment_sender h) permission
                 (lgtm_permissions h) in
    post_comment E h msg ;;;
    print_err msg ;;;
    sys_exit 1
  else
    valid_votes <- lgtm false ;;
    if lgtm_threshold h <=? valid_votes then
      response <- api_call E (PUT_merge (pr_num h) (merge_method h)
                                (MSG_merge_title (pr_num h))
                                (MSG_merge_message (pr_num h) (pr_sender h) valid_votes)) ;;
      if response_ok response && (status_code response =? 200) then
        comments_response <- api_get_comments E (pr_num h) ;;
        let comments := json comments_response in
        let lgtm_users := rescan_votes comments [] in
        lgtm_users <- refresh_permissions (keys lgtm_users) lgtm_users ;;
        post_comment E h (SUCCESS_MERGED (merge_method h) (comment_sender h)
                            valid_votes (lgtm_threshold h)
                            (users_table h "unknown" lgtm_users)) ;;;
        ret true
      else
        post_comment E h (MERGE_FAILED (pr_num h) (status_code response)
                            (text response)) ;;;
        ret false
    else
      post_comment E h (NOT_ENOUGH_LGTM valid_votes (lgtm_threshold h)) ;;;
      ret false.

Definition commands : list string :=
  ["merge"; "assign"; "unassign"; "label"; "unlabel"; "lgtm"; "help"].

(** [main], after the environment is read: no look at the state of the pull
    request and none at the response of the handler. *)
Definition main (trigger_comment : string) : M unit :=
  match Text.parse_command commands trigger_comment with
  | None => print_err (MSG_no_valid_command trigger_comment) ;;; sys_exit 1
  | Some (command, values) =>
      if String.eqb command "assign" || String.eqb command "unassign" then
        assign_unassign E h command values ;;; ret tt
      else if String.eqb command "label" then
        label E h values ;;; ret tt
      else if String.eqb command "unlabel" then
        unlabel E h values ;;; ret tt
      else if String.eqb command "lgtm" then
        lgtm true ;;; ret tt
      else if String.eqb command "merge" then
        merge_pr ;;; ret tt
      else if String.eqb command "help" then
        post_comment E h HELP_TEXT ;;; ret tt
      else ret tt
  end.

End Handler.

End Prow.

(** ** Processes and observations *)

(** A new process in the world another one left: the calls and the
    prints stay, the handler is built anew with [_pr_status = None]. *)
Definition new_process (s : St) : St :=
  {| trace := trace s; out := out s; cached_pr_status := None |}.

Definition initial : St := {| trace := []; out := []; cached_pr_status := None |}.

Definition is_merge_call (c : Call) : bool :=
  match c with PUT_merge _ _ _ _ => true | _ => false end.

Definition is_permission_lookup (c : Call) : bool :=
  match c with GET_permission _ => true | _ => false end.

Definition is_replay_call (c : Call) : bool :=
  match c with POST_merges _ _ _ => true | _ => false end.

Definition is_branch_creation (c : Call) : bool :=
  match c with POST_ref _ _ => true | _ => false end.

Definition is_branch_fetch (c : Call) : bool :=
  match c with GET_ref _ => true | _ => false end.

Definition is_success_summary (c : Call) : bool :=
  match c with POST_comment _ (SUCCESS_MERGED _ _ _ _ _) => true | _ => false end.

Definition is_not_enough_comment (c : Call) : bool :=
  match c with POST_comment _ (NOT_ENOUGH_LGTM _ _) => true | _ => false end.

(** The report that ends a cherry-pick job: its target branch and whether
    it is the success report. *)
Definition report_of (c : Call) : option (string * bool) :=
  match c with
  | POST_comment _ (CHERRY_PICK_ERROR _ b _ _) => Some (b, false)
  | POST_comment _ (CHERRY_PICK_SUCCESS _ b _ _) => Some (b, true)
  | POST_comment _ (CHERRY_PICK_CONFLICT _ b _ _ _) => Some (b, false)
  | _ => None
  end.

(** The jobs that were run and how each ended, read off the calls. *)
Fixpoint job_reports (calls : list Call) : list (string * bool) :=
  match calls with
  | [] => []
  | c :: rest =>
      match report_of c with
      | Some r => r :: job_reports rest
      | None => job_reports rest
      end
  end.


(** The state after some more calls and prints. *)
Definition adds (s : St) (calls : list Call) (prints : list Print) : St :=
  {| trace := trace s ++ calls; out := out s ++ prints;
     cached_pr_status := cached_pr_status s |}.

(** The same state with [self._pr_status] bound. *)
Definition caching (s : St) (r : Resp PullInfo) : St :=
  {| trace := trace s; out := out s; cached_pr_status := Some r |}.

(** A vote of the PR sender. *)
Definition self_vote (h : Handler) (c : Comment) : bool :=
  Text.matches_lgtm (body c) && String.eqb (login c) (pr_sender h).

(** The dictionary the scan builds when it meets no vote of the PR sender. *)
Fixpoint recorded_votes (comments : list Comment) (lgtm_users : Dict) : Dict :=
  match comments with
  | [] => lgtm_users
  | comment :: rest =>
      recorded_votes rest
        (if Text.matches_lgtm (body comment)
         then dict_set lgtm_users (login comment) None else lgtm_users)
  end.

(** The commit listing as [_get_pr_commits] hands it on. *)
Definition fetched_commits (E : Env) (h : Handler) (st : St) : list Commit :=
  if status_code (commits_of E (trace st) (pr_num h)) =? 200
  then json (commits_of E (trace st) (pr_num h)) else [].

(** The authors of the comments that match the vote pattern. *)
Definition voting_authors (comments : list Comment) : list string :=
  map login (filter (fun c => Text.matches_lgtm (body c)) comments).

(** The number of distinct voting authors. *)
Definition distinct_voters (comments : list Comment) : Z :=
  Z.of_nat (length (nodup string_dec (voting_authors comments))).

(** An environment that lists the given comments, whatever was called before. *)
Definition with_comments (E : Env) (comments : list Comment) : Env :=
  {| comments_of := fun _ _ => {| status_code := 200; text := ""; json := comments |};
     permission_of := permission_of E; commits_of := commits_of E;
     ref_of := ref_of E; pull_of := pull_of E; merges_of := merges_of E;
     plain_of := plain_of E; set_order := set_order E |}.

(** The replay call for one commit. *)
Definition replay_call (h : Handler) (target_branch : string) (total i : Z)
    (commit : Commit) : Call :=
  POST_merges target_branch (sha commit)
    (MSG_cherry_pick_commit i total (pr_num h) target_branch (message commit)
       (comment_sender h)).

(** The replay calls for a run of commits numbered from [i]. *)
Fixpoint replay_calls (h : Handler) (target_branch : string) (total i : Z)
    (commits : list Commit) : list Call :=
  match commits with
  | [] => []
  | commit :: rest =>
      replay_call h target_branch total i commit
      :: replay_calls h target_branch total (i + 1) rest
  end.

(** The API creates every commit of the run (answers 201), the replays
    being made one after the other after the calls [calls]. *)
Fixpoint all_created (E : Env) (h : Handler) (target_branch : string) (total i : Z)
    (calls : list Call) (commits : list Commit) : Prop :=
  match commits with
  | [] => True
  | commit :: rest =>
      status_code (merges_of E calls target_branch (sha commit)) = 201
      /\ all_created E h target_branch total (i + 1)
           (calls ++ [replay_call h target_branch total i commit]) rest
  end.

(** The sha the API produced for the last commit of the run, or [current]
    for the empty run. *)
Fixpoint sha_produced (E : Env) (h : Handler) (target_branch : string) (total i : Z)
    (calls : list Call) (current : string) (commits : list Commit) : string :=
  match commits with
  | [] => current
  | commit :: rest =>
      sha_produced E h target_branch total (i + 1)
        (calls ++ [replay_call h target_branch total i commit])
        (json (merges_of E calls target_branch (sha commit))) rest
  end.

(** [_get_branch_sha] on a response. *)
Definition branch_sha (r : Resp (option string)) : option string :=
  if status_code r =? 200 then json r else None.

(** A dictionary in which no permission is recorded yet. *)
Definition unrated (d : Dict) : Prop := forall kv, In kv d -> snd kv = None.

(** What both membership checks do: one permission lookup, an answer in
    which the vote is valid exactly when the permission is an allowed one,
    and no way out of the process. *)
Definition membership_like (E : Env) (h : Handler)
    (check : string -> M (option string * bool)) : Prop :=
  forall user st, exists p prints,
    check user st = (Ret (p, permission_in h p), adds st [GET_permission user] prints).

(** ** Scenarios

    Small worlds for the worked examples: pull request 12 of alice, the
    command is given by carol; bob and carol have write permission. *)

Module Scenario.

Definition answer {A} (code : Z) (x : A) : Resp A :=
  {| status_code := code; text := ""; json := x |}.

Definition handler : Handler :=
  PRHandler_init "12" "alice" "carol" 1 "admin,write" "APPROVE" "rebase".

Definition permissions (user : string) : Resp (option string) :=
  if String.eqb user "bob" || String.eqb user "carol"
  then answer 200 (Some "write") else answer 404 None.

Definition plain (c : Call) : Resp unit :=
  match c with
  | PUT_merge _ _ _ _ => answer 200 tt
  | POST_ref _ _ => answer 201 tt
  | POST_comment _ _ => answer 201 tt
  | _ => answer 200 tt
  end.

(** The members of the list, each once, in the order of their first
    occurrence. *)
Fixpoint first_seen (l seen : list string) : list string :=
  match l with
  | [] => []
  | x :: rest =>
      if existsb (String.eqb x) seen then first_seen rest seen
      else x :: first_seen rest (x :: seen)
  end.

(** A world whose answers do not depend on what was called before. *)
Definition world (comments : list Comment) (pull : Resp PullInfo)
    (commits : Resp (list Commit)) (refs : string -> Resp (option string))
    (merges : string -> Resp string) (order : list string -> list string) : Env :=
  {| comments_of := fun _ _ => answer 200 comments;
     permission_of := fun _ user => permissions user;
     commits_of := fun _ _ => commits;
     ref_of := fun _ branch => refs branch;
     pull_of := fun _ _ => pull;
     merges_of := fun _ _ head => merges head;
     plain_of := fun _ c => plain c;
     set_order := order |}.

Definition says (user text : string) : Comment :=
  {| body := text; login := user;
     html_url := "https://github.com/o/r/pull/12#issuecomment-" ++ user |}.

Definition open_pull : Resp PullInfo :=
  answer 200 {| state := Some "open"; base_ref := "main" |}.
Definition closed_pull : Resp PullInfo :=
  answer 200 {| state := Some "closed"; base_ref := "main" |}.

Definition c1 : Commit := {| sha := "c1"; message := "first" |}.
Definition c2 : Commit := {| sha := "c2"; message := "second" |}.
Definition c3 : Commit := {| sha := "c3"; message := "third" |}.

(** Only main exists, at abc123. *)
Definition only_main (branch : string) : Resp (option string) :=
  if String.eqb branch "main" then answer 200 (Some "abc123") else answer 404 None.

(** Every branch exists, at its own name. *)
Definition every_branch (branch : string) : Resp (option string) :=
  answer 200 (Some ("head-of-" ++ branch)).

(** The replay of the second commit conflicts, the others are created. *)
Definition second_conflicts (head : string) : Resp string :=
  if String.eqb head "c2" then answer 409 "" else answer 201 ("new-" ++ head).

Definition all_created_ (head : string) : Resp string := answer 201 ("new-" ++ head).


Definition in_order (l : list string) : list string := first_seen l [].

(** alice approves her own pull request. *)
Definition self_approval : Env :=
  world [says "alice" "/lgtm"] open_pull (answer 200 [c1]) every_branch all_created_
    in_order.

(** bob approves, twice in the second world. *)
Definition one_vote : Env :=
  world [says "bob" "/lgtm"; says "dave" "nice"] open_pull (answer 200 [c1])
    every_branch all_created_ in_order.
Definition one_vote_twice : Env :=
  world [says "bob" "/lgtm"; says "dave" "nice"; says "bob" "/LGTM again"]
    open_pull (answer 200 [c1]) every_branch all_created_ in_order.

(** Nobody has voted. *)
Definition no_vote : Env :=
  world [] open_pull (answer 200 [c1]) every_branch all_created_ in_order.

(** Three commits, the second conflicts on the existing branch. *)
Definition conflict_at_second : Env :=
  world [says "bob" "/lgtm"; says "carol" "/cherry-pick release-1.2"] open_pull
    (answer 200 [c1; c2; c3]) every_branch second_conflicts in_order.

(** Two commits for a branch that is not there yet. *)
Definition new_branch : Env :=
  world [says "bob" "/lgtm"; says "carol" "/cherry-pick release-1.2"] open_pull
    (answer 200 [c1; c2]) only_main all_created_ in_order.

(** The commit listing fails with 500. *)
Definition commits_unavailable : Env :=
  world [says "bob" "/lgtm"; says "carol" "/cherry-pick release-1.2"] open_pull
    (answer 500 []) every_branch all_created_ in_order.


(** The pull request is closed. *)
Definition closed : Env :=
  world [says "bob" "/lgtm"] closed_pull (answer 200 [c1]) every_branch all_created_
    in_order.

End Scenario.


(** ** Further notions for the properties of the text functions *)

(** [s.lower()] on ASCII text. *)
Fixpoint lowercase (s : string) : string :=
  match s with
  | EmptyString => EmptyString
  | String c s' => String (Text.lower c) (lowercase s')
  end.

(** No white space in the text. *)
Fixpoint no_space (s : string) : bool :=
  match s with
  | EmptyString => true
  | String c s' => negb (Text.is_space c) && no_space s'
  end.

(** No comma in the text. *)
Fixpoint no_comma (s : string) : bool :=
  match s with
  | EmptyString => true
  | String c s' => negb (Ascii.eqb c ","%char) && no_comma s'
  end.

(** A word: not empty and without white space. *)
Definition word (s : string) : Prop := s <> EmptyString /\ no_space s = true.

(** ** Further notions for the properties of the runs *)

Definition is_pull_fetch (c : Call) : bool :=
  match c with GET_pull _ => true | _ => false end.

Definition is_review (c : Call) : bool :=
  match c with POST_review _ _ _ => true | _ => false end.

Definition is_comment (c : Call) : bool :=
  match c with POST_comment _ _ => true | _ => false end.

(** [self._pr_status] holds a response that [_get_pr_status] hands out
    again instead of asking the API. *)
Definition holds_status (s : St) : Prop :=
  exists r, cached_pr_status s = Some r /\ response_ok r = true.

(** Started in a state with [I], the computation keeps [I] and makes only
    calls that satisfy [P]. *)
Definition calls_within (I : St -> Prop) (P : Call -> bool) {A} (c : M A) : Prop :=
  forall st, I st ->
    I (snd (c st))
    /\ exists ext, trace (snd (c st)) = (trace st ++ ext)%list /\ forallb P ext = true.

(** An invariant that looks at the cached pull request only. *)
Definition on_cache (I : St -> Prop) : Prop :=
  forall s s', cached_pr_status s = cached_pr_status s' -> I s -> I s'.

(** The number of entries of the dictionary whose permission is an
    allowed one. *)
Definition valid_entries (h : Handler) (d : Dict) : Z :=
  Z.of_nat (length (filter (fun item => permission_in h (snd item)) d)).

(** How [main] of boussole ends on the response a handler handed back:
    [bool(response)] is false on 400..599, and only a truthy response is
    looked at by [check_response]. *)
Definition ending (r : Resp unit) : Outcome unit * list Print :=
  if response_ok r then
    if (200 <=? status_code r) && (status_code r <? 300) then (Ret tt, [])
    else (Exit 1, [Stderr (MSG_command_error (status_code r) (text r))])
  else (Ret tt, []).

(** Worlds of the scenarios above in which one call is refused. *)
Definition refusing (E : Env) (refused : Call -> bool) (code : Z) : Env :=
  {| comments_of := comments_of E; permission_of := permission_of E;
     commits_of := commits_of E; ref_of := ref_of E; pull_of := pull_of E;
     merges_of := merges_of E;
     plain_of := fun calls c =>
       if refused c then Scenario.answer code tt else plain_of E calls c;
     set_order := set_order E |}.

Definition is_update_branch (c : Call) : bool :=
  match c with PUT_update_branch _ => true | _ => false end.

(** What a membership check reports on the answer to its permission lookup. *)
Definition membership_of (h : Handler) (r : Resp (option string))
  : option string * bool :=
  if status_code r =? 200 then
    match json r with
    | Some (String a p) => (Some (String a p), permission_in h (Some (String a p)))
    | _ => (None, false)
    end
  else (None, false).

(** The world [E] with the comment listing answered by another status. *)
Definition with_comments_status (E : Env) (code : Z) : Env :=
  {| comments_of := fun _ _ => Scenario.answer code [];
     permission_of := permission_of E; commits_of := commits_of E;
     ref_of := ref_of E; pull_of := pull_of E; merges_of := merges_of E;
     plain_of := plain_of E; set_order := set_order E |}.

(** The handler of the scenarios with another author of the trigger comment. *)
Definition invoked_by (user : string) : Handler :=
  PRHandler_init "12" "alice" user 1 "admin,write" "APPROVE" "rebase".

(** The world [E] in which the comments can be listed only as long as no
    merge call has been made. *)
Definition listing_lost (E : Env) : Env :=
  {| comments_of := fun calls pr =>
       if existsb is_merge_call calls then Scenario.answer 502 []
       else comments_of E calls pr;
     permission_of := permission_of E; commits_of := commits_of E;
     ref_of := ref_of E; pull_of := pull_of E; merges_of := merges_of E;
     plain_of := plain_of E; set_order := set_order E |}.

(** The world [E] with every replay answered by the given status and text. *)
Definition replays_answered (E : Env) (code : Z) (body : string) : Env :=
  {| comments_of := comments_of E; permission_of := permission_of E;
     commits_of := commits_of E; ref_of := ref_of E; pull_of := pull_of E;
     merges_of := fun _ _ _ => {| status_code := code; text := body; json := EmptyString |};
     plain_of := plain_of E; set_order := set_order E |}.

(** The world [E] without any branch. *)
Definition without_branches (E : Env) : Env :=
  {| comments_of := comments_of E; permission_of := permission_of E;
     commits_of := commits_of E; ref_of := fun _ _ => Scenario.answer 404 None;
     pull_of := pull_of E; merges_of := merges_of E;
     plain_of := plain_of E; set_order := set_order E |}.

(** The text starts with an at sign. *)
Definition at_first (s : string) : bool :=
  match s with
  | String c _ => Ascii.eqb c "@"%char
  | EmptyString => false
  end.

(** The answers on which [assign_unassign] posts its confirmation. *)
Definition assigned (r : Resp unit) : bool :=
  (status_code r =? 200) || (status_code r =? 201) || (status_code r =? 204).


(** * Properties *)

Open Scope list_scope.

(** ** States *)

Lemma St_eq (s s' : St) :
  trace s = trace s' -> out s = out s' ->
  cached_pr_status s = cached_pr_status s' -> s = s'.
Proof. destruct s, s'; simpl; intros; subst; reflexivity. Qed.

Lemma adds_nil (s : St) : adds s [] [] = s.
Proof. apply St_eq; simpl; auto using app_nil_r. Qed.

Lemma adds_adds (s : St) c1 p1 c2 p2 :
  adds (adds s c1 p1) c2 p2 = adds s (c1 ++ c2) (p1 ++ p2).
Proof. apply St_eq; simpl; auto using app_assoc. Qed.

Lemma record_adds (c : Call) (s : St) : record c s = adds s [c] [].
Proof. apply St_eq; simpl; auto using app_nil_r. Qed.

Lemma print_adds (p : Print) (s : St) : print p s = (Ret tt, adds s [] [p]).
Proof. unfold print. f_equal. apply St_eq; simpl; auto using app_nil_r. Qed.

Lemma trace_adds s c p : trace (adds s c p) = trace s ++ c.
Proof. reflexivity. Qed.

Lemma cached_adds s c p : cached_pr_status (adds s c p) = cached_pr_status s.
Proof. reflexivity. Qed.

Lemma caching_adds s r c p : adds (caching s r) c p = caching (adds s c p) r.
Proof. reflexivity. Qed.

Ltac absurd_nil :=
  match goal with H : _ <> [] |- _ => exfalso; apply H; reflexivity end.

Ltac norm :=
  repeat (rewrite ?record_adds, ?print_adds, ?adds_adds, ?caching_adds, ?trace_adds; simpl).

Lemma replay_calls_app h b total pre : forall i post,
  replay_calls h b total i (pre ++ post) =
  replay_calls h b total i pre
  ++ replay_calls h b total (i + Z.of_nat (length pre)) post.
Proof.
  induction pre as [|p pre IH]; intros i post; simpl.
  - now rewrite Z.add_0_r.
  - rewrite IH. do 3 f_equal. lia.
Qed.

Lemma replay_conflict E h b total c post : forall pre i s0 st,
  all_created E h b total i (trace st) pre ->
  status_code (merges_of E (trace st ++ replay_calls h b total i pre) b (sha c)) = 409 ->
  Boussole.replay E h b total i (pre ++ c :: post) s0 st =
  (Ret (false, sha_produced E h b total i (trace st) s0 pre),
   adds st (replay_calls h b total i (pre ++ [c])
            ++ [POST_comment (pr_num h)
                  (CHERRY_PICK_CONFLICT (pr_num h) b (i + Z.of_nat (length pre))
                     total (sha c))]) []).
Proof.
  induction pre as [|p pre IH]; intros i s0 st Hok Hc.
  - simpl in *. rewrite app_nil_r in Hc.
    unfold bind, api_post_merges; simpl. rewrite Hc. simpl.
    unfold Boussole._handle_merge_conflict, Boussole._post_comment, post_comment, bind, api_call, ret.
    norm. rewrite Z.add_0_r. reflexivity.
  - simpl in Hok. destruct Hok as [H201 Hok].
    replace (i + Z.of_nat (length (p :: pre))) with (i + 1 + Z.of_nat (length pre))
      by (change (length (p :: pre)) with (S (length pre)); lia).
    cbn [app Boussole.replay]. unfold bind at 1, api_post_merges at 1. cbn beta iota.
    rewrite H201. cbn [Z.eqb Pos.eqb negb].
    fold (replay_call h b total i p).
    rewrite (IH (i + 1) _ (record (replay_call h b total i p) st)).
    + rewrite record_adds, adds_adds. reflexivity.
    + exact Hok.
    + simpl trace. rewrite <- app_assoc. exact Hc.
Qed.

(** ** Observations on calls *)

Lemma job_reports_app (a b : list Call) :
  job_reports (a ++ b) = job_reports a ++ job_reports b.
Proof.
  induction a as [|c a IH]; simpl; [reflexivity|].
  destruct (report_of c); simpl; now rewrite IH.
Qed.

Lemma replay_calls_quiet h b total commits : forall i,
  job_reports (replay_calls h b total i commits) = []
  /\ filter is_branch_creation (replay_calls h b total i commits) = []
  /\ filter is_success_summary (replay_calls h b total i commits) = []
  /\ filter is_replay_call (replay_calls h b total i commits)
     = replay_calls h b total i commits.
Proof.
  induction commits as [|c cs IH]; intros i; simpl; [auto|].
  destruct (IH (i + 1)) as (H1 & H2 & H3 & H4). repeat split; auto. now rewrite H4.
Qed.

(** ** The small calls of the cherry-pick engine *)

Lemma _get_pr_commits_run E pr st :
  Boussole._get_pr_commits E pr st =
  (Ret (if status_code (commits_of E (trace st) pr) =? 200
        then json (commits_of E (trace st) pr) else []),
   adds st [GET_commits pr] []).
Proof.
  unfold Boussole._get_pr_commits, bind, api_get_commits, ret.
  rewrite record_adds. now destruct (_ =? 200).
Qed.

Lemma _get_branch_sha_run E b st :
  Boussole._get_branch_sha E b st =
  (Ret (branch_sha (ref_of E (trace st) b)), adds st [GET_ref b] []).
Proof.
  unfold Boussole._get_branch_sha, branch_sha, bind, api_get_ref, ret.
  rewrite record_adds. now destruct (_ =? 200).
Qed.

Lemma _create_branch_run E b s0 st :
  Boussole._create_branch E b s0 st =
  (Ret (status_code (plain_of E (trace st) (POST_ref b s0)) =? 201),
   adds st [POST_ref b s0] []).
Proof.
  unfold Boussole._create_branch, bind, api_call, ret. now rewrite record_adds.
Qed.

Lemma _post_comment_run E h m st :
  Boussole._post_comment E h m st =
  (Ret (plain_of E (trace st) (POST_comment (pr_num h) m)),
   adds st [POST_comment (pr_num h) m] []).
Proof.
  unfold Boussole._post_comment, post_comment, api_call. now rewrite record_adds.
Qed.

(** [_get_pr_status] asks the API at most once and prints nothing. *)
Lemma _get_pr_status_run E n st :
  exists r st' ext,
    Boussole._get_pr_status E n st = (Ret r, st')
    /\ trace st' = trace st ++ ext /\ out st' = out st
    /\ (ext = [] \/ ext = [GET_pull n]).
Proof.
  unfold Boussole._get_pr_status, bind, get_pr_status_cache, api_get_pull, set_pr_status, ret.
  destruct (cached_pr_status st) as [r|] eqn:Hc; [destruct (response_ok r)|]; simpl.
  - exists r, st, []. rewrite app_nil_r. auto.
  - eexists _, _, [GET_pull n]. simpl. auto.
  - eexists _, _, [GET_pull n]. simpl. auto.
Qed.

(** The replay loop over any commits, in any environment: it returns, its
    calls are the replays of a first part of the commits followed, when it
    stops early, by one failure report for the target. *)
Lemma replay_shape E h b total : forall commits i s0 st,
  exists completed s1 ext k,
    Boussole.replay E h b total i commits s0 st = (Ret (completed, s1), adds st ext [])
    /\ job_reports ext = (if completed then [] else [(b, false)])
    /\ filter is_branch_creation ext = []
    /\ filter is_success_summary ext = []
    /\ filter is_replay_call ext = replay_calls h b total i (firstn k commits).
Proof.
  induction commits as [|c cs IH]; intros i s0 st.
  - exists true, s0, [], 0%nat. simpl. unfold ret. now rewrite adds_nil.
  - cbn [Boussole.replay]. unfold bind at 1, api_post_merges at 1. cbn beta iota.
    destruct (status_code _ =? 409) eqn:H409.
    + unfold Boussole._handle_merge_conflict, bind. rewrite _post_comment_run.
      unfold ret. rewrite record_adds, adds_adds. simpl.
      eexists false, s0, _, 1%nat. split; [reflexivity|]. simpl. auto.
    + destruct (status_code _ =? 201) eqn:H201; simpl.
      * destruct (IH (i + 1) (json (merges_of E (trace st) b (sha c)))
                    (record (replay_call h b total i c) st))
          as (completed & s1 & ext & k & Hrun & Hrep & Hcr & Hsum & Hcalls).
        unfold replay_call in Hrun. rewrite Hrun.
        rewrite record_adds, adds_adds. simpl.
        eexists completed, s1, _, (S k). split; [reflexivity|]. simpl.
        rewrite Hcalls. auto.
      * unfold bind. rewrite _post_comment_run.
        unfold ret. rewrite record_adds, adds_adds. simpl.
        eexists false, s0, _, 1%nat. split; [reflexivity|]. simpl. auto.
Qed.

(** ** Branch resolution *)

Lemma resolve_existing E h b st s :
  Boussole.truthy (branch_sha (ref_of E (trace st) b)) = Some s ->
  Boussole.resolve_branch E h b st = (Ret (Some s), adds st [GET_ref b] []).
Proof.
  intros H. unfold Boussole.resolve_branch, bind at 1.
  rewrite _get_branch_sha_run, H. reflexivity.
Qed.

Lemma resolve_created E h b st pr_status st2 base_sha :
  Boussole.truthy (branch_sha (ref_of E (trace st) b)) = None ->
  Boussole._get_pr_status E (pr_num h) (adds st [GET_ref b] []) = (Ret pr_status, st2) ->
  Boussole.truthy (branch_sha (ref_of E (trace st2) (base_ref (json pr_status))))
    = Some base_sha ->
  status_code (plain_of E (trace st2 ++ [GET_ref (base_ref (json pr_status))])
                 (POST_ref b base_sha)) = 201 ->
  Boussole.resolve_branch E h b st =
  (Ret (Some base_sha),
   adds st2 [GET_ref (base_ref (json pr_status)); POST_ref b base_sha] []).
Proof.
  intros H0 Hpr Hbase H201. unfold Boussole.resolve_branch, bind at 1.
  rewrite _get_branch_sha_run, H0. unfold bind at 1. rewrite Hpr.
  unfold bind at 1. rewrite _get_branch_sha_run, Hbase.
  unfold bind at 1. rewrite _create_branch_run, trace_adds.
  rewrite H201. simpl. unfold ret. now rewrite adds_adds.
Qed.

Lemma resolve_branch_shape E h b st :
  exists res st' ext,
    Boussole.resolve_branch E h b st = (Ret res, st')
    /\ trace st' = trace st ++ ext /\ out st' = out st
    /\ job_reports ext = match res with Some _ => [] | None => [(b, false)] end
    /\ (length (filter is_branch_creation ext) <= 1)%nat
    /\ filter is_success_summary ext = []
    /\ filter is_replay_call ext = []
    /\ (filter is_branch_creation ext <> [] ->
        Boussole.truthy (branch_sha (ref_of E (trace st) b)) = None).
Proof.
  unfold Boussole.resolve_branch, bind at 1. rewrite _get_branch_sha_run.
  destruct (Boussole.truthy (branch_sha (ref_of E (trace st) b))) as [s|] eqn:H0.
  - eexists (Some s), _, [GET_ref b]. unfold ret. simpl.
    repeat split; auto; try lia; try apply app_nil_r;
      try (intros Hne; exfalso; apply Hne; reflexivity).
  - unfold bind at 1.
    destruct (_get_pr_status_run E (pr_num h) (adds st [GET_ref b] []))
      as (r & s1 & e1 & Hrun & Htr & Hout & He1).
    rewrite Hrun. unfold bind at 1. rewrite _get_branch_sha_run.
    simpl in Htr, Hout. rewrite app_nil_r in Hout.
    destruct (Boussole.truthy (branch_sha (ref_of E (trace s1) (base_ref (json r)))))
      as [bs|] eqn:Hb.
    + unfold bind at 1. rewrite _create_branch_run.
      destruct (status_code _ =? 201) eqn:H201; simpl.
      * unfold ret. eexists (Some bs), _, (GET_ref b :: e1 ++ [_; _]).
        split; [reflexivity|]. simpl. rewrite Htr, <- !app_assoc. simpl.
        rewrite Hout, !app_nil_r.
        rewrite job_reports_app, !filter_app.
        destruct He1 as [-> | ->]; simpl; repeat split; auto.
      * unfold bind. rewrite _post_comment_run. unfold ret.
        eexists None, _, (GET_ref b :: e1 ++ [_; _; _]).
        split; [reflexivity|]. simpl. rewrite Htr, <- !app_assoc. simpl.
        rewrite Hout, !app_nil_r.
        rewrite job_reports_app, !filter_app.
        destruct He1 as [-> | ->]; simpl; repeat split; auto.
    + unfold bind. rewrite _post_comment_run. unfold ret.
      eexists None, _, (GET_ref b :: e1 ++ [_; _]).
      split; [reflexivity|]. simpl. rewrite Htr, <- !app_assoc. simpl.
      rewrite Hout, !app_nil_r.
      rewrite job_reports_app, !filter_app.
      destruct He1 as [-> | ->]; simpl; repeat split; auto.
Qed.

(** ** The cherry-pick job *)

Lemma job_without_commits E h b st :
  fetched_commits E h st = [] ->
  Boussole.cherry_pick_job E h b st =
  (Ret (false, None),
   adds st [GET_commits (pr_num h);
            POST_comment (pr_num h)
              (CHERRY_PICK_ERROR (pr_num h) b (StatusText "404")
                 "Could not fetch PR commits")] []).
Proof.
  intros H. unfold Boussole.cherry_pick_job, bind at 1.
  rewrite _get_pr_commits_run. fold (fetched_commits E h st). rewrite H.
  unfold bind. rewrite _post_comment_run. unfold ret. now rewrite adds_adds.
Qed.

Lemma job_with_commits E h b st :
  fetched_commits E h st <> [] ->
  Boussole.cherry_pick_job E h b st =
  (resolved <- Boussole.resolve_branch E h b ;;
   match resolved with
   | None => ret (false, None)
   | Some current_sha =>
       r <- Boussole.replay E h b (Z.of_nat (length (fetched_commits E h st))) 1
              (fetched_commits E h st) current_sha ;;
       Boussole.finish_job E h b r
   end) (adds st [GET_commits (pr_num h)] []).
Proof.
  intros H. unfold Boussole.cherry_pick_job, bind at 1.
  rewrite _get_pr_commits_run. fold (fetched_commits E h st).
  destruct (fetched_commits E h st); [now elim H | reflexivity].
Qed.

Lemma finish_job_run E h b completed s1 st :
  Boussole.finish_job E h b (completed, s1) st =
  (Ret (completed, Some s1),
   adds st (if completed
            then [POST_comment (pr_num h)
                    (CHERRY_PICK_SUCCESS (pr_num h) b (comment_sender h) s1)]
            else []) []).
Proof.
  unfold Boussole.finish_job. destruct completed.
  - unfold bind. rewrite _post_comment_run. reflexivity.
  - unfold ret. now rewrite adds_nil.
Qed.

(** Every run of a job returns, prints nothing, ends in exactly one
    report for its target, which is the success report exactly when the
    job answers [true], and creates a branch at most once and only after
    a first fetch of the target that gave no sha. *)
Lemma job_shape E h b st :
  exists ok s1 st' ext,
    Boussole.cherry_pick_job E h b st = (Ret (ok, s1), st')
    /\ trace st' = trace st ++ ext /\ out st' = out st
    /\ job_reports ext = [(b, ok)]
    /\ filter is_success_summary ext = []
    /\ (exists k, filter is_replay_call ext
                  = replay_calls h b (Z.of_nat (length (fetched_commits E h st))) 1
                      (firstn k (fetched_commits E h st)))
    /\ (length (filter is_branch_creation ext) <= 1)%nat
    /\ (filter is_branch_creation ext <> [] ->
        fetched_commits E h st <> []
        /\ Boussole.truthy
             (branch_sha (ref_of E (trace st ++ [GET_commits (pr_num h)]) b)) = None).
Proof.
  destruct (fetched_commits E h st) as [|c0 cs] eqn:Hc.
  - rewrite (job_without_commits E h b st Hc).
    eexists _, _, _, _. split; [reflexivity|]. simpl.
    split; [reflexivity|]. split; [apply app_nil_r|]. split; [reflexivity|].
    split; [reflexivity|]. split; [now exists 0%nat|]. split; [auto|].
    intros Hne. absurd_nil.
  - rewrite job_with_commits by (rewrite Hc; discriminate).
    rewrite Hc. unfold bind at 1.
    destruct (resolve_branch_shape E h b (adds st [GET_commits (pr_num h)] []))
      as (res & s2 & e2 & Hrun & Htr & Hout & Hrep & Hlen & Hsum & Hnor & Hcre).
    rewrite Hrun. simpl in Htr, Hout. rewrite app_nil_r in Hout.
    destruct res as [s0|].
    + unfold bind at 1.
      destruct (replay_shape E h b (Z.of_nat (length (c0 :: cs))) (c0 :: cs) 1 s0 s2)
        as (completed & s3 & e3 & k & Hrun3 & Hrep3 & Hcre3 & Hsum3 & Hcalls).
      rewrite Hrun3, finish_job_run, adds_adds.
      simpl in Hcre.
      eexists _, _, _, (GET_commits (pr_num h) :: e2 ++ e3 ++
                          (if completed
                           then [POST_comment (pr_num h)
                                   (CHERRY_PICK_SUCCESS (pr_num h) b (comment_sender h) s3)]
                           else [])).
      split; [reflexivity|]. simpl. rewrite Htr, <- !app_assoc. simpl.
      rewrite Hout, !job_reports_app, !filter_app, Hrep, Hrep3, Hsum, Hsum3, Hcre3,
        Hnor, Hcalls.
      destruct completed; simpl; rewrite ?app_nil_r;
        (split; [reflexivity|]); (split; [reflexivity|]); (split; [reflexivity|]);
        (split; [reflexivity|]); (split; [now exists k|]); (split; [assumption|]);
        intros Hne; (split; [discriminate | now apply Hcre]).
    + unfold ret. simpl in Hcre. eexists _, _, _, (GET_commits (pr_num h) :: e2).
      split; [reflexivity|]. simpl. rewrite Htr, <- !app_assoc. simpl.
      rewrite Hout, Hrep, Hsum, Hnor.
      (split; [reflexivity|]); (split; [reflexivity|]); (split; [reflexivity|]);
        (split; [reflexivity|]); (split; [now exists 0%nat|]); (split; [assumption|]);
        intros Hne; (split; [discriminate | now apply Hcre]).
Qed.

Lemma _perform_cherry_pick_run E h b st ok s1 st' :
  Boussole.cherry_pick_job E h b st = (Ret (ok, s1), st') ->
  Boussole._perform_cherry_pick E h b st = (Ret ok, st').
Proof.
  intros H. unfold Boussole._perform_cherry_pick, bind. now rewrite H.
Qed.


(** ** Dictionaries *)

Lemma keys_dict_set (d : Dict) k v :
  keys (dict_set d k v) = if in_dec string_dec k (keys d) then keys d else keys d ++ [k].
Proof.
  induction d as [|[k' v'] d IH]; simpl; [reflexivity|].
  destruct (String.eqb_spec k' k) as [->|Hne].
  - simpl. destruct (string_dec k k); [reflexivity|]. destruct (in_dec _ _ _); congruence.
  - simpl. rewrite IH. destruct (string_dec k' k); [congruence|].
    destruct (in_dec string_dec k (keys d)); reflexivity.
Qed.

Lemma keys_dict_set_in (d : Dict) k v :
  In k (keys d) -> keys (dict_set d k v) = keys d.
Proof. intros H. rewrite keys_dict_set. now destruct (in_dec _ _ _). Qed.

Lemma in_keys_dict_set (d : Dict) k v x :
  In x (keys (dict_set d k v)) <-> x = k \/ In x (keys d).
Proof.
  rewrite keys_dict_set. destruct (in_dec string_dec k (keys d)) as [Hin|Hnot].
  - split; [auto | intros [->|]; auto].
  - rewrite in_app_iff. simpl. intuition.
Qed.

Lemma NoDup_keys_dict_set (d : Dict) k v :
  NoDup (keys d) -> NoDup (keys (dict_set d k v)).
Proof.
  intros H. rewrite keys_dict_set. destruct (in_dec string_dec k (keys d)) as [Hin|Hnot]; auto.
  apply NoDup_app; auto.
  - constructor; [intros []| constructor].
  - intros x Hx [<-|[]]. contradiction.
Qed.


Lemma dict_set_unrated (d : Dict) k : unrated d -> unrated (dict_set d k None).
Proof.
  induction d as [|[k' v'] d IH]; intros H kv; simpl.
  - intros [<-|[]]; reflexivity.
  - destruct (String.eqb k' k); simpl.
    + intros [<-|Hin]; [reflexivity | apply H; now right].
    + intros [<-|Hin]; [apply (H (k', v')); now left|].
      apply IH; [|assumption]. intros kv' Hkv'. apply H. now right.
Qed.

Lemma dict_set_again (d : Dict) k :
  unrated d -> In k (keys d) -> dict_set d k None = d.
Proof.
  induction d as [|[k' v'] d IH]; intros H Hin; simpl in *; [contradiction|].
  destruct (String.eqb_spec k' k) as [->|Hne].
  - f_equal. f_equal. symmetry. apply (H (k, v')). now left.
  - f_equal. apply IH; [|destruct Hin; congruence].
    intros kv Hkv. apply H. now right.
Qed.

(** ** The scan *)

Lemma recorded_votes_app c1 : forall c2 d,
  recorded_votes (c1 ++ c2) d = recorded_votes c2 (recorded_votes c1 d).
Proof. induction c1 as [|c c1 IH]; intros; simpl; [reflexivity | apply IH]. Qed.

Lemma recorded_votes_spec cs : forall d,
  NoDup (keys d) -> unrated d ->
  NoDup (keys (recorded_votes cs d))
  /\ unrated (recorded_votes cs d)
  /\ (forall u, In u (keys (recorded_votes cs d))
                <-> In u (keys d) \/ In u (voting_authors cs)).
Proof.
  unfold voting_authors.
  induction cs as [|c cs IH]; intros d Hnd Hun; simpl.
  - intuition.
  - destruct (Text.matches_lgtm (body c)).
    + destruct (IH (dict_set d (login c) None)) as (H1 & H2 & H3).
      * now apply NoDup_keys_dict_set.
      * now apply dict_set_unrated.
      * split; [exact H1|]. split; [exact H2|].
        intros u. rewrite H3, in_keys_dict_set. simpl. intuition.
    + apply (IH d Hnd Hun).
Qed.

Lemma find_app {A} (f : A -> bool) l1 l2 :
  find f (l1 ++ l2) = match find f l1 with Some x => Some x | None => find f l2 end.
Proof. induction l1 as [|a l1 IH]; simpl; [reflexivity|]. now destruct (f a). Qed.

Lemma scan_self E h c0 : forall cs d st,
  find (self_vote h) cs = Some c0 ->
  scan_votes E h cs d st =
  (Exit 1,
   adds st [POST_comment (pr_num h) (SELF_APPROVAL_ERROR (login c0) (html_url c0))]
     [Stderr (SELF_APPROVAL_ERROR (login c0) (html_url c0))]).
Proof.
  induction cs as [|c cs IH]; intros d st H; simpl in H; [discriminate|].
  unfold self_vote in H at 1. cbn [scan_votes].
  destruct (Text.matches_lgtm (body c)); simpl in H; [|now apply IH].
  destruct (String.eqb (login c) (pr_sender h)); [|now apply IH].
  injection H as ->.
  unfold bind, post_comment, api_call, print_err, sys_exit.
  rewrite print_adds, record_adds, adds_adds. reflexivity.
Qed.

Lemma scan_clean E h : forall cs d st,
  find (self_vote h) cs = None ->
  scan_votes E h cs d st = (Ret (recorded_votes cs d), st).
Proof.
  induction cs as [|c cs IH]; intros d st H; simpl in H; [reflexivity|].
  unfold self_vote in H at 1. cbn [scan_votes recorded_votes].
  destruct (Text.matches_lgtm (body c)); simpl in H; [|now apply IH].
  destruct (String.eqb (login c) (pr_sender h)); [discriminate|now apply IH].
Qed.

Lemma recorded_votes_no_sender h cs :
  find (self_vote h) cs = None -> ~ In (pr_sender h) (voting_authors cs).
Proof.
  unfold voting_authors.
  induction cs as [|c cs IH]; simpl; intros H; [tauto|].
  unfold self_vote in H at 1.
  destruct (Text.matches_lgtm (body c)); simpl in *; [|auto].
  destruct (String.eqb_spec (login c) (pr_sender h)); [discriminate|].
  intros [Heq|Hin]; [congruence | now apply IH].
Qed.

(** ** Permission lookups and the tally *)

Lemma _check_membership_like E h : membership_like E h (Boussole._check_membership E h).
Proof.
  intros user st. unfold Boussole._check_membership, bind at 1, api_get_permission.
  cbn beta iota. rewrite record_adds.
  destruct (status_code _ =? 404).
  { exists None, []. reflexivity. }
  destruct (status_code _ =? 200); simpl.
  - destruct (json (permission_of E (trace st) user)) as [[|a p]|].
    + exists None, [Stderr (PERMISSION_DATA_MISSING user)].
      unfold bind, print_err, ret. now rewrite print_adds, adds_adds.
    + exists (Some (String a p)), []. reflexivity.
    + exists None, [Stderr (PERMISSION_DATA_MISSING user)].
      unfold bind, print_err, ret. now rewrite print_adds, adds_adds.
  - eexists None, [_]. unfold bind, print_err, ret. now rewrite print_adds, adds_adds.
Qed.

Lemma check_membership_like E h : membership_like E h (Prow.check_membership E h).
Proof.
  intros user st. unfold Prow.check_membership, bind at 1, api_get_permission.
  cbn beta iota. rewrite record_adds.
  destruct (status_code _ =? 200); simpl.
  - destruct (json (permission_of E (trace st) user)) as [[|a p]|].
    + exists None, [Stderr (PERMISSION_DATA_MISSING user)].
      unfold bind, print_err, ret. now rewrite print_adds, adds_adds.
    + exists (Some (String a p)), []. reflexivity.
    + exists None, [Stderr (PERMISSION_DATA_MISSING user)].
      unfold bind, print_err, ret. now rewrite print_adds, adds_adds.
  - eexists None, [_]. unfold bind, print_err, ret. now rewrite print_adds, adds_adds.
Qed.

Lemma tally_shape E h check :
  membership_like E h check ->
  forall users d v st,
  exists v' d' prints,
    tally_votes check users d v st
    = (Ret (v', d'), adds st (map GET_permission users) prints)
    /\ (incl users (keys d) -> keys d' = keys d)
    /\ v <= v' <= v + Z.of_nat (length users).
Proof.
  intros Hc. induction users as [|u users IH]; intros d v st.
  - exists v, d, []. simpl. unfold ret. rewrite adds_nil. repeat split; auto; lia.
  - cbn [tally_votes]. unfold bind at 1.
    destruct (Hc u st) as (p & pr1 & Hrun). rewrite Hrun.
    destruct (IH (dict_set d u p)
                (if permission_in h p then v + 1 else v)
                (adds st [GET_permission u] pr1))
      as (v' & d' & pr2 & Hrun2 & Hkeys & Hv).
    rewrite Hrun2, adds_adds. exists v', d', (pr1 ++ pr2).
    split; [reflexivity|]. split.
    + intros Hincl. rewrite Hkeys.
      * apply keys_dict_set_in. apply Hincl. now left.
      * rewrite keys_dict_set_in by (apply Hincl; now left).
        intros x Hx. apply Hincl. now right.
    + change (length (u :: users)) with (S (length users)).
      destruct (permission_in h p); lia.
Qed.

(** The scan and the tally together, as [lgtm] and
    [_fetch_and_validate_lgtm_votes] run them on the listed comments. *)
Lemma count_clean E h check cs st :
  membership_like E h check ->
  find (self_vote h) cs = None ->
  exists v users prints,
    (lgtm_users <- scan_votes E h cs [] ;;
     tally_votes check (keys lgtm_users) lgtm_users 0) st
    = (Ret (v, users),
       adds st (map GET_permission (keys (recorded_votes cs []))) prints)
    /\ keys users = keys (recorded_votes cs [])
    /\ 0 <= v <= Z.of_nat (length (keys users)).
Proof.
  intros Hc Hf. unfold bind. rewrite (scan_clean E h cs [] st Hf).
  destruct (tally_shape E h check Hc (keys (recorded_votes cs [])) (recorded_votes cs []) 0 st)
    as (v & users & prints & Hrun & Hkeys & Hv).
  rewrite Hrun. exists v, users, prints. split; [reflexivity|].
  rewrite (Hkeys (incl_refl _)). split; [reflexivity | lia].
Qed.

Lemma count_self E h check cs st c0 :
  find (self_vote h) cs = Some c0 ->
  (lgtm_users <- scan_votes E h cs [] ;;
   tally_votes check (keys lgtm_users) lgtm_users 0) st
  = (Exit 1,
     adds st [POST_comment (pr_num h) (SELF_APPROVAL_ERROR (login c0) (html_url c0))]
       [Stderr (SELF_APPROVAL_ERROR (login c0) (html_url c0))]).
Proof. intros Hf. unfold bind. now rewrite (scan_self E h c0 cs [] st Hf). Qed.

Lemma distinct_voters_length cs (l : list string) :
  NoDup l -> (forall u, In u l <-> In u (voting_authors cs)) ->
  Z.of_nat (length l) = distinct_voters cs.
Proof.
  intros Hnd Hin. unfold distinct_voters. f_equal.
  apply Nat.le_antisymm; apply NoDup_incl_length; auto using NoDup_nodup.
  - intros u Hu. apply nodup_In. now apply Hin.
  - intros u Hu. apply Hin. now apply nodup_In in Hu.
Qed.

Lemma recorded_keys cs :
  NoDup (keys (recorded_votes cs []))
  /\ (forall u, In u (keys (recorded_votes cs [])) <-> In u (voting_authors cs))
  /\ Z.of_nat (length (keys (recorded_votes cs []))) = distinct_voters cs.
Proof.
  destruct (recorded_votes_spec cs []) as (H1 & _ & H3).
  - constructor.
  - intros kv [].
  - assert (H: forall u, In u (keys (recorded_votes cs [])) <-> In u (voting_authors cs)).
    { intros u. rewrite H3. simpl. tauto. }
    split; [exact H1|]. split; [exact H|]. now apply distinct_voters_length.
Qed.

(** ** The vote tally of the three entry points *)


Section Tally.

Variable E : Env.
Variable h : Handler.
Variable st : St.

Local Abbreviation r := (comments_of E (trace st) (pr_num h)).
Local Abbreviation st1 := (adds st [GET_comments (pr_num h)] []).

Lemma fetch_unavailable :
  status_code r <> 200 ->
  Boussole._fetch_and_validate_lgtm_votes E h st
  = (Exit 1, adds st [GET_comments (pr_num h)]
               [Stderr (COMMENTS_FETCH_ERROR (status_code r) (text r) (pr_num h))]).
Proof.
  intros Hs. apply Z.eqb_neq in Hs.
  unfold Boussole._fetch_and_validate_lgtm_votes, bind at 1, api_get_comments.
  cbn beta iota. rewrite Hs. simpl.
  unfold bind, print_err, sys_exit. now rewrite print_adds, record_adds, adds_adds.
Qed.

Lemma fetch_start :
  status_code r = 200 ->
  Boussole._fetch_and_validate_lgtm_votes E h st
  = (lgtm_users <- scan_votes E h (json r) [] ;;
     tally_votes (Boussole._check_membership E h) (keys lgtm_users) lgtm_users 0) st1.
Proof.
  intros Hs.
  unfold Boussole._fetch_and_validate_lgtm_votes, bind at 1, api_get_comments.
  cbn beta iota. rewrite Hs. simpl. now rewrite record_adds.
Qed.

Lemma fetch_self c0 :
  status_code r = 200 -> find (self_vote h) (json r) = Some c0 ->
  Boussole._fetch_and_validate_lgtm_votes E h st
  = (Exit 1,
     adds st [GET_comments (pr_num h);
              POST_comment (pr_num h) (SELF_APPROVAL_ERROR (login c0) (html_url c0))]
       [Stderr (SELF_APPROVAL_ERROR (login c0) (html_url c0))]).
Proof.
  intros Hs Hf. rewrite (fetch_start Hs), (count_self _ _ _ _ _ _ Hf).
  now rewrite adds_adds.
Qed.

Lemma fetch_clean :
  status_code r = 200 -> find (self_vote h) (json r) = None ->
  exists v users prints,
    Boussole._fetch_and_validate_lgtm_votes E h st
    = (Ret (v, users),
       adds st (GET_comments (pr_num h)
                :: map GET_permission (keys (recorded_votes (json r) []))) prints)
    /\ keys users = keys (recorded_votes (json r) [])
    /\ 0 <= v <= Z.of_nat (length (keys users)).
Proof.
  intros Hs Hf. rewrite (fetch_start Hs).
  destruct (count_clean E h _ (json r) st1 (_check_membership_like E h) Hf)
    as (v & users & prints & Hrun & Hk & Hv).
  rewrite Hrun. exists v, users, prints. rewrite adds_adds. auto.
Qed.


Lemma boussole_lgtm_self c0 send :
  status_code r = 200 -> find (self_vote h) (json r) = Some c0 ->
  Boussole.lgtm E h send st
  = (Exit 1,
     adds st [GET_comments (pr_num h);
              POST_comment (pr_num h) (SELF_APPROVAL_ERROR (login c0) (html_url c0))]
       [Stderr (SELF_APPROVAL_ERROR (login c0) (html_url c0))]).
Proof.
  intros Hs Hf. unfold Boussole.lgtm, bind at 1, api_get_comments.
  cbn beta iota. rewrite Hs. simpl. unfold bind at 1.
  rewrite (scan_self E h c0 _ _ _ Hf), record_adds, adds_adds. reflexivity.
Qed.

Lemma prow_lgtm_self c0 send :
  status_code r = 200 -> find (self_vote h) (json r) = Some c0 ->
  Prow.lgtm E h send st
  = (Exit 1,
     adds st [GET_comments (pr_num h);
              POST_comment (pr_num h) (SELF_APPROVAL_ERROR (login c0) (html_url c0))]
       [Stderr (SELF_APPROVAL_ERROR (login c0) (html_url c0))]).
Proof.
  intros Hs Hf. unfold Prow.lgtm, bind at 1, api_get_comments.
  cbn beta iota. rewrite Hs. simpl. unfold bind at 1.
  rewrite (scan_self E h c0 _ _ _ Hf), record_adds, adds_adds. reflexivity.
Qed.

(** [lgtm] of prow once the comments are listed without a vote of the
    sender: the tally, then the review and the count, or the way out with
    code 0. *)
Lemma prow_lgtm_clean send :
  status_code r = 200 -> find (self_vote h) (json r) = None ->
  exists v users prints,
    tally_votes (Prow.check_membership E h) (keys (recorded_votes (json r) []))
      (recorded_votes (json r) []) 0 st1
    = (Ret (v, users),
       adds st (GET_comments (pr_num h)
                :: map GET_permission (keys (recorded_votes (json r) []))) prints)
    /\ keys users = keys (recorded_votes (json r) [])
    /\ 0 <= v <= Z.of_nat (length (keys users))
    /\ Prow.lgtm E h send st
       = if lgtm_threshold h <=? v then
           (Ret v,
            adds st (GET_comments (pr_num h)
                     :: map GET_permission (keys (recorded_votes (json r) []))
                     ++ [POST_review (pr_num h) (lgtm_review_event h)
                           (APPROVED_TEMPLATE (lgtm_threshold h) v
                              (users_table h "none" users))])
              (prints ++ [Stdout MSG_pr_approved]))
         else
           (Exit 0,
            adds st (GET_comments (pr_num h)
                     :: map GET_permission (keys (recorded_votes (json r) []))
                     ++ (if send
                         then [POST_comment (pr_num h)
                                 (LGTM_BREAKDOWN_TEMPLATE v (lgtm_threshold h)
                                    (users_table h "none" users))]
                         else []))
              (prints ++ [Stdout (NOT_ENOUGH_LGTM v (lgtm_threshold h))])).
Proof.
  intros Hs Hf.
  destruct (tally_shape E h _ (check_membership_like E h)
              (keys (recorded_votes (json r) [])) (recorded_votes (json r) []) 0 st1)
    as (v & users & prints & Hrun & Hk & Hv).
  specialize (Hk (incl_refl _)).
  exists v, users, prints. rewrite adds_adds in Hrun.
  split; [exact Hrun|]. split; [exact Hk|]. split; [rewrite Hk; lia|].
  unfold Prow.lgtm, bind at 1, api_get_comments.
  cbn beta iota. rewrite Hs. simpl. unfold bind at 1.
  rewrite (scan_clean E h _ _ _ Hf), record_adds. unfold bind at 1.
  rewrite Hrun. unfold bind at 1.
  destruct (lgtm_threshold h <=? v).
  - unfold bind, print_out, api_call, ret.
    rewrite print_adds, record_adds, !adds_adds. reflexivity.
  - unfold bind at 1, print_out. rewrite print_adds, adds_adds.
    destruct send.
    + unfold post_lgtm_breakdown, post_comment, api_call, ret, sys_exit, bind.
      cbn beta iota. rewrite record_adds, !adds_adds. simpl. now rewrite !app_nil_r.
    + unfold bind, ret, sys_exit. simpl. now rewrite !app_nil_r.
Qed.

End Tally.

(** ** One more vote of somebody who has voted *)

Lemma find_extra_vote h l1 a l2 a' l3 :
  Text.matches_lgtm (body a) = true -> login a' = login a ->
  find (self_vote h) (l1 ++ a :: l2 ++ a' :: l3)
  = find (self_vote h) (l1 ++ a :: l2 ++ l3).
Proof.
  intros Ha Hl. rewrite !find_app. destruct (find (self_vote h) l1); [reflexivity|].
  simpl. destruct (self_vote h a) eqn:Hsa; [reflexivity|].
  rewrite !find_app. destruct (find (self_vote h) l2); [reflexivity|].
  simpl. unfold self_vote in Hsa |- *. rewrite Ha in Hsa. simpl in Hsa.
  rewrite Hl, Hsa, andb_false_r. reflexivity.
Qed.

Lemma recorded_extra_vote l1 a l2 a' l3 :
  Text.matches_lgtm (body a) = true -> login a' = login a ->
  recorded_votes (l1 ++ a :: l2 ++ a' :: l3) []
  = recorded_votes (l1 ++ a :: l2 ++ l3) [].
Proof.
  intros Ha Hl.
  replace (l1 ++ a :: l2 ++ a' :: l3) with ((l1 ++ a :: l2) ++ a' :: l3)
    by now rewrite <- app_assoc.
  replace (l1 ++ a :: l2 ++ l3) with ((l1 ++ a :: l2) ++ l3)
    by now rewrite <- app_assoc.
  rewrite (recorded_votes_app (l1 ++ a :: l2) (a' :: l3)),
    (recorded_votes_app (l1 ++ a :: l2) l3).
  cbn [recorded_votes].
  destruct (Text.matches_lgtm (body a')); [|reflexivity].
  rewrite dict_set_again; [reflexivity| |].
  - apply (recorded_votes_spec (l1 ++ a :: l2) []); [constructor | intros kv []].
  - apply (proj1 (proj2 (recorded_keys (l1 ++ a :: l2)))).
    rewrite Hl. unfold voting_authors. apply in_map, filter_In.
    split; [apply in_elt | exact Ha].
Qed.

Lemma scan_extra_vote E h l1 a l2 a' l3 st :
  Text.matches_lgtm (body a) = true -> login a' = login a ->
  scan_votes E h (l1 ++ a :: l2 ++ a' :: l3) [] st
  = scan_votes E h (l1 ++ a :: l2 ++ l3) [] st.
Proof.
  intros Ha Hl. pose proof (find_extra_vote h l1 a l2 a' l3 Ha Hl) as Hfind.
  destruct (find (self_vote h) (l1 ++ a :: l2 ++ l3)) as [c0|] eqn:Hf.
  - now rewrite (scan_self E h c0 _ _ _ Hfind), (scan_self E h c0 _ _ _ Hf).
  - rewrite (scan_clean E h _ _ _ Hfind), (scan_clean E h _ _ _ Hf).
    now rewrite (recorded_extra_vote l1 a l2 a' l3 Ha Hl).
Qed.

(** ** The merge command of prow *)

Lemma filter_lookups (P : Call -> bool) (users : list string) :
  (forall u, P (GET_permission u) = false) ->
  filter P (map GET_permission users) = [].
Proof. intros H. induction users; simpl; [reflexivity|]. now rewrite H. Qed.

Lemma not_in_filtered (P : Call -> bool) (l : list Call) (c : Call) :
  filter P l = [] -> P c = true -> ~ In c l.
Proof.
  intros Hf Hp Hin. assert (H : In c (filter P l)) by (apply filter_In; auto).
  now rewrite Hf in H.
Qed.

(** Every run of prow's [lgtm]: no merge call, no comment about missing
    votes, and a count that is returned has reached the threshold. *)
Lemma prow_lgtm_calls E h send st :
  exists o st' ext,
    Prow.lgtm E h send st = (o, st')
    /\ trace st' = trace st ++ ext
    /\ filter is_not_enough_comment ext = []
    /\ filter is_merge_call ext = []
    /\ (forall v, o = Ret v -> lgtm_threshold h <= v).
Proof.
  destruct (Z.eq_dec (status_code (comments_of E (trace st) (pr_num h))) 200) as [Hs|Hs].
  - destruct (find (self_vote h) (json (comments_of E (trace st) (pr_num h))))
      as [c0|] eqn:Hf.
    + rewrite (prow_lgtm_self E h st c0 send Hs Hf). eexists _, _, _.
      split; [reflexivity|]. split; [reflexivity|]. repeat split. discriminate.
    + destruct (prow_lgtm_clean E h st send Hs Hf)
        as (v & users & prints & _ & _ & _ & Hrun).
      rewrite Hrun. destruct (lgtm_threshold h <=? v) eqn:Hv.
      * eexists _, _, _. split; [reflexivity|]. split; [reflexivity|].
        simpl. rewrite !filter_app, !filter_lookups by reflexivity.
        repeat split. intros v' [= <-]. now apply Z.leb_le.
      * eexists _, _, _. split; [reflexivity|]. split; [reflexivity|].
        simpl. rewrite !filter_app, !filter_lookups by reflexivity.
        destruct send; repeat split; discriminate.
  - apply Z.eqb_neq in Hs.
    unfold Prow.lgtm, bind at 1, api_get_comments. cbn beta iota. rewrite Hs. simpl.
    unfold bind, print_err, sys_exit. rewrite print_adds, record_adds, adds_adds.
    eexists _, _, _. split; [reflexivity|]. split; [reflexivity|].
    repeat split. discriminate.
Qed.

Lemma refresh_permissions_shape E h : forall users d st,
  exists d' prints,
    Prow.refresh_permissions E h users d st
    = (Ret d', adds st (map GET_permission users) prints).
Proof.
  induction users as [|u users IH]; intros d st.
  - exists d, []. simpl. unfold ret. now rewrite adds_nil.
  - cbn [Prow.refresh_permissions]. unfold bind at 1.
    destruct (check_membership_like E h u st) as (p & pr1 & Hrun). rewrite Hrun.
    destruct (IH (dict_set d u p) (adds st [GET_permission u] pr1)) as (d' & pr2 & Hrun2).
    rewrite Hrun2, adds_adds. now exists d', (pr1 ++ pr2).
Qed.

(** Every run of prow's [merge_pr]: the comment about missing votes is
    never posted, and the count a merge call carries has reached the
    threshold. *)
Lemma prow_merge_shape E h st :
  exists o st' ext,
    Prow.merge_pr E h st = (o, st')
    /\ trace st' = trace st ++ ext
    /\ filter is_not_enough_comment ext = []
    /\ (forall pr m t pr' s v,
          In (PUT_merge pr m t (MSG_merge_message pr' s v)) ext ->
          lgtm_threshold h <= v).
Proof.
  unfold Prow.merge_pr, bind at 1.
  destruct (check_membership_like E h (comment_sender h) st) as (p & pr0 & Hc).
  rewrite Hc. destruct (permission_in h p); simpl.
  - unfold bind at 1.
    destruct (prow_lgtm_calls E h false (adds st [GET_permission (comment_sender h)] pr0))
      as (o & s1 & e1 & Hrun & Htr & Hne & Hmc & Hv).
    rewrite Hrun. simpl in Htr.
    destruct o as [v|code|exn].
    + pose proof (Hv v eq_refl) as Hle. apply Z.leb_le in Hle. rewrite Hle.
      apply Z.leb_le in Hle.
      unfold bind at 1, api_call at 1. cbn beta iota.
      destruct (response_ok _ && (status_code _ =? 200)).
      * unfold bind at 1, api_get_comments. cbn beta iota. unfold bind at 1.
        match goal with
        | |- context [Prow.refresh_permissions E h ?us ?d ?s] =>
            destruct (refresh_permissions_shape E h us d s) as (d' & pr2 & Hr);
            rewrite Hr
        end.
        unfold bind, post_comment, api_call, ret.
        rewrite !record_adds, !adds_adds.
        eexists _, _, (GET_permission (comment_sender h) :: e1 ++ _).
        split; [reflexivity|]. simpl. rewrite Htr, <- !app_assoc. simpl.
        split; [reflexivity|]. rewrite !filter_app, Hne. simpl.
        rewrite filter_app, filter_lookups by reflexivity. simpl.
        split; [reflexivity|].
        intros pr m t pr' s v' [Hin|Hin]; [discriminate|].
        apply in_app_or in Hin. destruct Hin as [Hin|Hin].
        { exfalso. revert Hin. now apply (not_in_filtered is_merge_call). }
        simpl in Hin. destruct Hin as [[= _ _ _ _ _ <-]|[Hin|Hin]];
          [exact Hle | discriminate |].
        apply in_app_or in Hin. destruct Hin as [Hin|[Hin|[]]]; [|discriminate].
        apply in_map_iff in Hin. destruct Hin as (u & Hu & _). discriminate.
      * unfold bind, post_comment, api_call, ret.
        rewrite !record_adds, !adds_adds.
        eexists _, _, (GET_permission (comment_sender h) :: e1 ++ _).
        split; [reflexivity|]. simpl. rewrite Htr, <- !app_assoc. simpl.
        split; [reflexivity|]. rewrite !filter_app, Hne. simpl.
        split; [reflexivity|].
        intros pr m t pr' s v' [Hin|Hin]; [discriminate|].
        apply in_app_or in Hin. destruct Hin as [Hin|Hin].
        { exfalso. revert Hin. now apply (not_in_filtered is_merge_call). }
        simpl in Hin. destruct Hin as [[= _ _ _ _ _ <-]|[Hin|[]]];
          [exact Hle | discriminate].
    + eexists _, _, (GET_permission (comment_sender h) :: e1).
      split; [reflexivity|]. rewrite Htr, <- app_assoc. simpl.
      split; [reflexivity|]. split; [exact Hne|].
      intros pr m t pr' s v' [Hin|Hin]; [discriminate|].
      exfalso. revert Hin. now apply (not_in_filtered is_merge_call).
    + eexists _, _, (GET_permission (comment_sender h) :: e1).
      split; [reflexivity|]. rewrite Htr, <- app_assoc. simpl.
      split; [reflexivity|]. split; [exact Hne|].
      intros pr m t pr' s v' [Hin|Hin]; [discriminate|].
      exfalso. revert Hin. now apply (not_in_filtered is_merge_call).
  - unfold bind, post_comment, api_call, print_err, sys_exit.
    rewrite print_adds, record_adds, !adds_adds.
    eexists _, _, _. split; [reflexivity|]. split; [reflexivity|].
    split; [reflexivity|].
    intros pr m t pr' s v' [Hin|[Hin|[]]]; discriminate.
Qed.

(** ** The merge command of boussole *)


Lemma boussole_merge_denied E h st p s1 :
  Boussole._check_membership E h (comment_sender h) st = (Ret (p, false), s1) ->
  Boussole.merge_pr E h st
  = (Exit 1,
     adds s1 [POST_comment (pr_num h)
                (INSUFFICIENT_PERMISSIONS (comment_sender h) p (lgtm_permissions h))]
       [Stderr (INSUFFICIENT_PERMISSIONS (comment_sender h) p (lgtm_permissions h))]).
Proof.
  intros Hc. unfold Boussole.merge_pr, bind at 1. rewrite Hc. simpl.
  unfold bind. rewrite _post_comment_run. unfold print_err, sys_exit.
  now rewrite print_adds, adds_adds.
Qed.

(** Below the threshold boussole posts the comment about missing votes
    and returns [False]; no merge call is made. *)
Lemma boussole_merge_below_threshold E h st p s1 v users s2 :
  Boussole._check_membership E h (comment_sender h) st = (Ret (p, true), s1) ->
  Boussole._fetch_and_validate_lgtm_votes E h s1 = (Ret (v, users), s2) ->
  v < lgtm_threshold h ->
  Boussole.merge_pr E h st
  = (Ret false,
     adds s2 [POST_comment (pr_num h) (NOT_ENOUGH_LGTM v (lgtm_threshold h))] []).
Proof.
  intros Hc Hf Hv. unfold Boussole.merge_pr, bind at 1. rewrite Hc. simpl.
  unfold bind at 1. rewrite Hf. apply Z.leb_gt in Hv. rewrite Hv.
  unfold bind. now rewrite _post_comment_run.
Qed.



(** ** The gate on the state of the pull request *)

Lemma main_not_open E h trigger command values s0 :
  Text.parse_command Boussole.commands trigger = Some (command, values) ->
  cached_pr_status s0 = None ->
  status_code (pull_of E (trace s0) (pr_num h)) = 200 ->
  state (json (pull_of E (trace s0) (pr_num h))) <> Some "open" ->
  Boussole.main E h trigger s0
  = (Exit 1,
     caching (adds s0 [GET_pull (pr_num h)] [Stderr (MSG_not_open (pr_num h))])
       (pull_of E (trace s0) (pr_num h))).
Proof.
  intros Hp Hc Hs Hst. unfold Boussole.main. rewrite Hp.
  unfold bind at 1, Boussole.check_status, bind at 1, Boussole._get_pr_status, bind at 1.
  unfold get_pr_status_cache. rewrite Hc.
  unfold bind at 1, api_get_pull. cbn beta iota.
  unfold bind at 1, set_pr_status, ret. cbn beta iota. simpl status_code.
  rewrite Hs. simpl.
  assert (Hb : match state (json (pull_of E (trace s0) (pr_num h))) with
               | Some s => String.eqb s "open"
               | None => false
               end = false).
  { destruct (state (json (pull_of E (trace s0) (pr_num h)))) as [s|]; [|reflexivity].
    destruct (String.eqb_spec s "open"); [subst; now elim Hst | reflexivity]. }
  rewrite Hb. simpl. unfold bind, print_err, sys_exit. rewrite print_adds.
  f_equal. apply St_eq; simpl; rewrite ?app_nil_r; reflexivity.
Qed.

(** ** The cherry-pick engine *)

(** C10: whatever status other than 200 the commit listing comes back
    with, [_get_pr_commits] hands on the empty list; then, as for a pull
    request without commits, the job posts the one error report with the
    fixed status text 404 and the text about the commits, answers [false],
    and has asked for no branch and replayed nothing. *)
Theorem C10_commit_fetch_failure (E : Env) (h : Handler) (b : string) (st : St) :
  let r := commits_of E (trace st) (pr_num h) in
  let report :=
    CHERRY_PICK_ERROR (pr_num h) b (StatusText "404") "Could not fetch PR commits" in
  let st' := adds st [GET_commits (pr_num h); POST_comment (pr_num h) report] [] in
  (status_code r <> 200 ->
   Boussole._get_pr_commits E (pr_num h) st
   = (Ret [], adds st [GET_commits (pr_num h)] []))
  /\ (status_code r <> 200 \/ json r = [] ->
      Boussole.cherry_pick_job E h b st = (Ret (false, None), st')
      /\ Boussole._perform_cherry_pick E h b st = (Ret false, st')
      /\ filter is_branch_fetch (trace st') = filter is_branch_fetch (trace st)
      /\ filter is_replay_call (trace st') = filter is_replay_call (trace st)).
Proof.
  intros r report st'. split.
  - intros Hs. rewrite _get_pr_commits_run. fold r.
    apply Z.eqb_neq in Hs. now rewrite Hs.
  - intros Hr.
    assert (Hf : fetched_commits E h st = []).
    { unfold fetched_commits. fold r. destruct Hr as [Hs|Hj].
      - apply Z.eqb_neq in Hs. now rewrite Hs.
      - rewrite Hj. now destruct (_ =? _). }
    pose proof (job_without_commits E h b st Hf) as Hjob. fold report st' in Hjob.
    split; [exact Hjob|]. split; [exact (_perform_cherry_pick_run _ _ _ _ _ _ _ Hjob)|].
    unfold st'. rewrite trace_adds, !filter_app. simpl. now rewrite !app_nil_r.
Qed.

Lemma C10_commit_fetch_failure_witness :
  status_code (commits_of Scenario.commits_unavailable (trace initial) "12") <> 200
  /\ Boussole._get_pr_commits Scenario.commits_unavailable "12" initial
     = (Ret [], adds initial [GET_commits "12"] [])
  /\ Boussole._perform_cherry_pick Scenario.commits_unavailable Scenario.handler
       "release-1.2" initial
     = (Ret false,
        adds initial
          [GET_commits "12";
           POST_comment "12"
             (CHERRY_PICK_ERROR "12" "release-1.2" (StatusText "404")
                "Could not fetch PR commits")] []).
Proof.
  assert (H : status_code (commits_of Scenario.commits_unavailable (trace initial) "12")
              <> 200) by (simpl; lia).
  split; [exact H|].
  destruct (C10_commit_fetch_failure Scenario.commits_unavailable Scenario.handler
              "release-1.2" initial) as [H1 H2].
  split; [exact (H1 H) | exact (proj1 (proj2 (H2 (or_introl H))))].
Defined.

(** C2: the replay calls of a job are those of the first commits of the
    listing, in the order of the listing and numbered from 1; and when
    the commits before commit i are created and the replay of commit i is
    answered 409, the job makes exactly the replay calls of commits 1..i
    in that order, posts the conflict report with i, the number of commits
    and the sha of commit i, and answers [false] with [current_sha] the
    sha produced for commit i-1 (the resolved sha when i = 1); nothing is
    called after the report. *)
Theorem C2_replay_order_and_conflict (E : Env) (h : Handler) (b : string) (st : St) :
  (exists ok s1 st' ext k,
      Boussole.cherry_pick_job E h b st = (Ret (ok, s1), st')
      /\ trace st' = trace st ++ ext
      /\ filter is_replay_call ext
         = replay_calls h b (Z.of_nat (length (fetched_commits E h st))) 1
             (firstn k (fetched_commits E h st)))
  /\ (forall pre c post s0 st2,
        fetched_commits E h st = pre ++ c :: post ->
        let total := Z.of_nat (length (pre ++ c :: post)) in
        Boussole.resolve_branch E h b (adds st [GET_commits (pr_num h)] [])
        = (Ret (Some s0), st2) ->
        all_created E h b total 1 (trace st2) pre ->
        status_code (merges_of E (trace st2 ++ replay_calls h b total 1 pre) b (sha c))
        = 409 ->
        let st' :=
          adds st2
            (replay_calls h b total 1 (pre ++ [c])
             ++ [POST_comment (pr_num h)
                   (CHERRY_PICK_CONFLICT (pr_num h) b (Z.of_nat (length pre) + 1)
                      total (sha c))]) [] in
        Boussole.cherry_pick_job E h b st
        = (Ret (false, Some (sha_produced E h b total 1 (trace st2) s0 pre)), st')
        /\ Boussole._perform_cherry_pick E h b st = (Ret false, st')).
Proof.
  split.
  - destruct (job_shape E h b st)
      as (ok & s1 & st' & ext & Hrun & Htr & _ & _ & _ & [k Hk] & _).
    exists ok, s1, st', ext, k. auto.
  - intros pre c post s0 st2 Hc total Hres Hok H409 st'.
    assert (Hjob : Boussole.cherry_pick_job E h b st
                   = (Ret (false, Some (sha_produced E h b total 1 (trace st2) s0 pre)),
                      st')).
    { rewrite job_with_commits by (rewrite Hc; now destruct pre).
      rewrite Hc. fold total. unfold bind at 1. rewrite Hres. unfold bind at 1.
      rewrite (replay_conflict E h b total c post pre 1 s0 st2 Hok H409).
      rewrite finish_job_run, adds_adds, app_nil_r.
      unfold st'. now rewrite (Z.add_comm 1). }
    split; [exact Hjob | exact (_perform_cherry_pick_run _ _ _ _ _ _ _ Hjob)].
Qed.

Lemma C2_replay_order_and_conflict_witness :
  Boussole._perform_cherry_pick Scenario.conflict_at_second Scenario.handler
    "release-1.2" initial
  = (Ret false,
     adds initial
       [GET_commits "12"; GET_ref "release-1.2";
        POST_merges "release-1.2" "c1"
          (MSG_cherry_pick_commit 1 3 "12" "release-1.2" "first" "carol");
        POST_merges "release-1.2" "c2"
          (MSG_cherry_pick_commit 2 3 "12" "release-1.2" "second" "carol");
        POST_comment "12" (CHERRY_PICK_CONFLICT "12" "release-1.2" 2 3 "c2")] [])
  /\ fst (Boussole.cherry_pick_job Scenario.conflict_at_second Scenario.handler
            "release-1.2" initial)
     = Ret (false, Some "new-c1").
Proof.
  destruct (C2_replay_order_and_conflict Scenario.conflict_at_second Scenario.handler
              "release-1.2" initial) as [_ H].
  destruct (H [Scenario.c1] Scenario.c2 [Scenario.c3] "head-of-release-1.2"
              (adds initial [GET_commits "12"; GET_ref "release-1.2"] []))
    as [Hjob Hrun].
  - reflexivity.
  - reflexivity.
  - simpl. split; [reflexivity | exact I].
  - reflexivity.
  - split; [exact Hrun | now rewrite Hjob].
Defined.

(** C6: a job creates a branch at most once, and only when commits were
    listed and the first fetch of the target's head gave no sha; a job
    whose first fetch gives a sha goes on to the replay from that sha
    right after the fetch; and when the branch has to be created and the
    creation is answered 201, the replay starts from the head sha of the
    base branch of the pull request. *)
Theorem C6_branch_creation (E : Env) (h : Handler) (b : string) (st : St) :
  let commits := fetched_commits E h st in
  let total := Z.of_nat (length commits) in
  let st1 := adds st [GET_commits (pr_num h)] [] in
  let first_fetch := Boussole.truthy (branch_sha (ref_of E (trace st1) b)) in
  (exists ok s1 st' ext,
      Boussole.cherry_pick_job E h b st = (Ret (ok, s1), st')
      /\ trace st' = trace st ++ ext
      /\ (length (filter is_branch_creation ext) <= 1)%nat
      /\ (filter is_branch_creation ext <> [] -> commits <> [] /\ first_fetch = None)
      /\ (forall s0, first_fetch = Some s0 -> filter is_branch_creation ext = []))
  /\ (forall s0,
        commits <> [] -> first_fetch = Some s0 ->
        Boussole.cherry_pick_job E h b st
        = (r <- Boussole.replay E h b total 1 commits s0 ;;
           Boussole.finish_job E h b r) (adds st1 [GET_ref b] []))
  /\ (forall pr_status st2 base_sha,
        let base_branch := base_ref (json pr_status) in
        commits <> [] -> first_fetch = None ->
        Boussole._get_pr_status E (pr_num h) (adds st1 [GET_ref b] [])
        = (Ret pr_status, st2) ->
        Boussole.truthy (branch_sha (ref_of E (trace st2) base_branch)) = Some base_sha ->
        status_code (plain_of E (trace st2 ++ [GET_ref base_branch])
                       (POST_ref b base_sha)) = 201 ->
        Boussole.cherry_pick_job E h b st
        = (r <- Boussole.replay E h b total 1 commits base_sha ;;
           Boussole.finish_job E h b r)
            (adds st2 [GET_ref base_branch; POST_ref b base_sha] [])).
Proof.
  intros commits total st1 first_fetch. split; [|split].
  - destruct (job_shape E h b st)
      as (ok & s1 & st' & ext & Hrun & Htr & _ & _ & _ & _ & Hlen & Hcre).
    exists ok, s1, st', ext. repeat (split; [assumption|]).
    intros s0 Hs0. destruct (filter is_branch_creation ext) eqn:Hf; [reflexivity|].
    destruct Hcre as [_ Hnone]; [discriminate|].
    unfold first_fetch, st1 in Hs0. rewrite trace_adds in Hs0. congruence.
  - intros s0 Hne Hs0. rewrite job_with_commits by exact Hne.
    fold commits total st1. unfold bind at 1.
    rewrite (resolve_existing E h b st1 s0 Hs0). reflexivity.
  - intros pr_status st2 base_sha base_branch Hne Hnone Hpr Hbase H201.
    rewrite job_with_commits by exact Hne.
    fold commits total st1. unfold bind at 1.
    rewrite (resolve_created E h b st1 pr_status st2 base_sha Hnone Hpr Hbase H201).
    reflexivity.
Qed.

Lemma C6_branch_creation_witness :
  Boussole.cherry_pick_job Scenario.new_branch Scenario.handler "release-1.2" initial
  = (r <- Boussole.replay Scenario.new_branch Scenario.handler "release-1.2" 2 1
            [Scenario.c1; Scenario.c2] "abc123" ;;
     Boussole.finish_job Scenario.new_branch Scenario.handler "release-1.2" r)
      (caching
         (adds initial
            [GET_commits "12"; GET_ref "release-1.2"; GET_pull "12"; GET_ref "main";
             POST_ref "release-1.2" "abc123"] [])
         Scenario.open_pull)
  /\ Boussole.cherry_pick_job Scenario.conflict_at_second Scenario.handler
       "release-1.2" initial
     = (r <- Boussole.replay Scenario.conflict_at_second Scenario.handler
               "release-1.2" 3 1 [Scenario.c1; Scenario.c2; Scenario.c3]
               "head-of-release-1.2" ;;
        Boussole.finish_job Scenario.conflict_at_second Scenario.handler
          "release-1.2" r)
         (adds initial [GET_commits "12"; GET_ref "release-1.2"] []).
Proof.
  split.
  - destruct (C6_branch_creation Scenario.new_branch Scenario.handler "release-1.2" initial)
      as (_ & _ & H).
    apply (H Scenario.open_pull
             (caching (adds initial [GET_commits "12"; GET_ref "release-1.2";
                                     GET_pull "12"] []) Scenario.open_pull)
             "abc123").
    + simpl. discriminate.
    + reflexivity.
    + reflexivity.
    + reflexivity.
    + reflexivity.
  - destruct (C6_branch_creation Scenario.conflict_at_second Scenario.handler
                "release-1.2" initial) as (_ & H & _).
    apply (H "head-of-release-1.2").
    + simpl. discriminate.
    + reflexivity.
Defined.

(** ** Votes *)

(** C1: when the listed comments hold a vote of the PR sender, the tally
    ([_fetch_and_validate_lgtm_votes], and [lgtm] of both scripts) posts
    the rejection of the first such comment and leaves the process with
    code 1, having made no other call after the listing; the merge command
    of both scripts then ends with code 1 without a merge call and with no
    permission lookup but the one for the invoker; and a tally that
    returns never has the PR sender among its voters. *)
Theorem C1_self_approval_is_fatal (E : Env) (h : Handler) (st : St) :
  (forall c0 send,
      status_code (comments_of E (trace st) (pr_num h)) = 200 ->
      find (self_vote h) (json (comments_of E (trace st) (pr_num h))) = Some c0 ->
      let rejection := SELF_APPROVAL_ERROR (login c0) (html_url c0) in
      let st' := adds st [GET_comments (pr_num h); POST_comment (pr_num h) rejection]
                   [Stderr rejection] in
      login c0 = pr_sender h
      /\ Boussole._fetch_and_validate_lgtm_votes E h st = (Exit 1, st')
      /\ Boussole.lgtm E h send st = (Exit 1, st')
      /\ Prow.lgtm E h send st = (Exit 1, st'))
  /\ (forall c0,
        let listing :=
          comments_of E (trace st ++ [GET_permission (comment_sender h)]) (pr_num h) in
        status_code listing = 200 ->
        find (self_vote h) (json listing) = Some c0 ->
        exists stb extb stp extp,
          Boussole.merge_pr E h st = (Exit 1, stb) /\ trace stb = trace st ++ extb
          /\ Prow.merge_pr E h st = (Exit 1, stp) /\ trace stp = trace st ++ extp
          /\ filter is_merge_call extb = [] /\ filter is_merge_call extp = []
          /\ filter is_permission_lookup extb = [GET_permission (comment_sender h)]
          /\ filter is_permission_lookup extp = [GET_permission (comment_sender h)])
  /\ (forall v users st',
        Boussole._fetch_and_validate_lgtm_votes E h st = (Ret (v, users), st') ->
        ~ In (pr_sender h) (keys users)).
Proof.
  split; [|split].
  - intros c0 send Hs Hf rejection st'. split; [|split; [|split]].
    + apply find_some in Hf. destruct Hf as [_ Hf]. unfold self_vote in Hf.
      apply andb_true_iff in Hf. now apply String.eqb_eq.
    + now apply fetch_self.
    + now apply boussole_lgtm_self.
    + now apply prow_lgtm_self.
  - intros c0 listing Hs Hf.
    destruct (_check_membership_like E h (comment_sender h) st) as (pb & prb & Hb).
    destruct (check_membership_like E h (comment_sender h) st) as (pp & prp & Hp).
    assert (Hbm : exists stb extb,
               Boussole.merge_pr E h st = (Exit 1, stb) /\ trace stb = trace st ++ extb
               /\ filter is_merge_call extb = []
               /\ filter is_permission_lookup extb = [GET_permission (comment_sender h)]).
    { unfold Boussole.merge_pr, bind at 1. rewrite Hb.
      destruct (permission_in h pb); simpl.
      - unfold bind at 1.
        rewrite (fetch_self E h (adds st [GET_permission (comment_sender h)] prb) c0 Hs Hf).
        rewrite adds_adds. eexists _, _. split; [reflexivity|]. repeat split.
      - unfold bind. rewrite _post_comment_run. unfold print_err, sys_exit.
        rewrite print_adds, !adds_adds.
        eexists _, _. split; [reflexivity|]. repeat split. }
    assert (Hpm : exists stp extp,
               Prow.merge_pr E h st = (Exit 1, stp) /\ trace stp = trace st ++ extp
               /\ filter is_merge_call extp = []
               /\ filter is_permission_lookup extp = [GET_permission (comment_sender h)]).
    { unfold Prow.merge_pr, bind at 1. rewrite Hp.
      destruct (permission_in h pp); simpl.
      - unfold bind at 1.
        rewrite (prow_lgtm_self E h (adds st [GET_permission (comment_sender h)] prp)
                   c0 false Hs Hf).
        rewrite adds_adds. eexists _, _. split; [reflexivity|]. repeat split.
      - unfold bind, post_comment, api_call, print_err, sys_exit.
        rewrite print_adds, record_adds, !adds_adds.
        eexists _, _. split; [reflexivity|]. repeat split. }
    destruct Hbm as (stb & extb & H1 & H2 & H3 & H4).
    destruct Hpm as (stp & extp & H5 & H6 & H7 & H8).
    exists stb, extb, stp, extp. auto 10.
  - intros v users st' Hrun.
    destruct (Z.eq_dec (status_code (comments_of E (trace st) (pr_num h))) 200) as [Hs|Hs].
    + destruct (find (self_vote h) (json (comments_of E (trace st) (pr_num h))))
        as [c0|] eqn:Hf.
      * rewrite (fetch_self E h st c0 Hs Hf) in Hrun. discriminate.
      * destruct (fetch_clean E h st Hs Hf) as (v' & users' & prints & Hrun' & Hk & _).
        rewrite Hrun' in Hrun. injection Hrun as <- <- <-.
        rewrite Hk. intros Hin.
        apply (recorded_votes_no_sender h _ Hf).
        now apply (proj1 (proj2 (recorded_keys _))).
    + rewrite (fetch_unavailable E h st Hs) in Hrun. discriminate.
Qed.

Lemma C1_self_approval_is_fatal_witness :
  Boussole._fetch_and_validate_lgtm_votes Scenario.self_approval Scenario.handler initial
  = (Exit 1,
     adds initial
       [GET_comments "12";
        POST_comment "12"
          (SELF_APPROVAL_ERROR "alice" "https://github.com/o/r/pull/12#issuecomment-alice")]
       [Stderr
          (SELF_APPROVAL_ERROR "alice" "https://github.com/o/r/pull/12#issuecomment-alice")])
  /\ (exists stb, Boussole.merge_pr Scenario.self_approval Scenario.handler initial
                  = (Exit 1, stb))
  /\ ~ In "alice"
       (keys (snd (match fst (Boussole._fetch_and_validate_lgtm_votes Scenario.one_vote
                                Scenario.handler initial) with
                   | Ret x => x
                   | _ => (0, [])
                   end))).
Proof.
  split; [|split].
  - destruct (C1_self_approval_is_fatal Scenario.self_approval Scenario.handler initial)
      as (H & _ & _).
    apply (H (Scenario.says "alice" "/lgtm") true); reflexivity.
  - destruct (C1_self_approval_is_fatal Scenario.self_approval Scenario.handler initial)
      as (_ & H & _).
    destruct (H (Scenario.says "alice" "/lgtm")) as (stb & _ & _ & _ & Hb & _);
      [reflexivity | reflexivity | now exists stb].
  - destruct (C1_self_approval_is_fatal Scenario.one_vote Scenario.handler initial)
      as (_ & _ & H).
    apply (H 1 [("bob", Some "write")]
             (adds initial [GET_comments "12"; GET_permission "bob"] [])).
    reflexivity.
Defined.

(** C7: a tally that returns has every voting author once among its
    voters, and its count of valid votes is at most the number of distinct
    voting authors (in prow, the count [lgtm] returns); and one more
    matching comment of an author who has voted before it changes nothing:
    the run on the longer listing is the run on the shorter one. *)
Theorem C7_one_vote_per_author (E : Env) (h : Handler) (st : St) :
  let cs := json (comments_of E (trace st) (pr_num h)) in
  (forall v users st',
      Boussole._fetch_and_validate_lgtm_votes E h st = (Ret (v, users), st') ->
      NoDup (keys users)
      /\ (forall u, In u (keys users) <-> In u (voting_authors cs))
      /\ 0 <= v <= distinct_voters cs)
  /\ (forall send v st',
        Prow.lgtm E h send st = (Ret v, st') -> 0 <= v <= distinct_voters cs)
  /\ (forall l1 a l2 a' l3 send,
        Text.matches_lgtm (body a) = true ->
        Text.matches_lgtm (body a') = true ->
        login a' = login a ->
        let longer := with_comments E (l1 ++ a :: l2 ++ a' :: l3) in
        let shorter := with_comments E (l1 ++ a :: l2 ++ l3) in
        Boussole._fetch_and_validate_lgtm_votes longer h st
        = Boussole._fetch_and_validate_lgtm_votes shorter h st
        /\ Prow.lgtm longer h send st = Prow.lgtm shorter h send st).
Proof.
  intros cs. split; [|split].
  - intros v users st' Hrun.
    destruct (Z.eq_dec (status_code (comments_of E (trace st) (pr_num h))) 200) as [Hs|Hs].
    + destruct (find (self_vote h) cs) as [c0|] eqn:Hf.
      * rewrite (fetch_self E h st c0 Hs Hf) in Hrun. discriminate.
      * destruct (fetch_clean E h st Hs Hf) as (v' & users' & prints & Hrun' & Hk & Hv).
        rewrite Hrun' in Hrun. injection Hrun as <- <- <-.
        destruct (recorded_keys cs) as (Hnd & Hin & Hlen).
        fold cs in Hk. rewrite Hk, <- Hlen. rewrite Hk in Hv. auto.
    + rewrite (fetch_unavailable E h st Hs) in Hrun. discriminate.
  - intros send v st' Hrun.
    destruct (Z.eq_dec (status_code (comments_of E (trace st) (pr_num h))) 200) as [Hs|Hs].
    + destruct (find (self_vote h) cs) as [c0|] eqn:Hf.
      * rewrite (prow_lgtm_self E h st c0 send Hs Hf) in Hrun. discriminate.
      * destruct (prow_lgtm_clean E h st send Hs Hf)
          as (v' & users' & prints & _ & Hk & Hv & Hrun').
        rewrite Hrun' in Hrun.
        destruct (lgtm_threshold h <=? v'); [|discriminate].
        injection Hrun as <- <-.
        destruct (recorded_keys cs) as (_ & _ & Hlen).
        fold cs in Hk. rewrite <- Hlen, <- Hk. exact Hv.
    + apply Z.eqb_neq in Hs. revert Hrun.
      unfold Prow.lgtm, bind at 1, api_get_comments. cbn beta iota. rewrite Hs. simpl.
      unfold bind, print_err, sys_exit. rewrite print_adds. discriminate.
  - intros l1 a l2 a' l3 send Ha Ha' Hl longer shorter.
    pose proof (find_extra_vote h l1 a l2 a' l3 Ha Hl) as Hfind.
    pose proof (recorded_extra_vote l1 a l2 a' l3 Ha Hl) as Hrec.
    subst longer shorter. split.
    + rewrite (fetch_start (with_comments E (l1 ++ a :: l2 ++ a' :: l3)) h st eq_refl),
        (fetch_start (with_comments E (l1 ++ a :: l2 ++ l3)) h st eq_refl).
      unfold bind. cbn [comments_of with_comments json].
      change (scan_votes (with_comments E (l1 ++ a :: l2 ++ a' :: l3)) h)
        with (scan_votes E h).
      change (scan_votes (with_comments E (l1 ++ a :: l2 ++ l3)) h)
        with (scan_votes E h).
      now rewrite (scan_extra_vote E h l1 a l2 a' l3 _ Ha Hl).
    + destruct (find (self_vote h) (l1 ++ a :: l2 ++ l3)) as [c0|] eqn:Hf.
      * rewrite (prow_lgtm_self (with_comments E _) h st c0 send eq_refl Hfind).
        now rewrite (prow_lgtm_self (with_comments E _) h st c0 send eq_refl Hf).
      * destruct (prow_lgtm_clean (with_comments E _) h st send eq_refl Hfind)
          as (v1 & u1 & p1 & Ht1 & _ & _ & Hr1).
        destruct (prow_lgtm_clean (with_comments E _) h st send eq_refl Hf)
          as (v2 & u2 & p2 & Ht2 & _ & _ & Hr2).
        rewrite Hr1, Hr2. clear Hr1 Hr2.
        cbn [comments_of with_comments json] in *.
        rewrite Hrec in *.
        change (Prow.check_membership (with_comments E (l1 ++ a :: l2 ++ a' :: l3)) h)
          with (Prow.check_membership E h) in Ht1.
        change (Prow.check_membership (with_comments E (l1 ++ a :: l2 ++ l3)) h)
          with (Prow.check_membership E h) in Ht2.
        rewrite Ht2 in Ht1. injection Ht1 as -> -> Hout.
        apply app_inv_head in Hout. now subst.
Qed.

Lemma C7_one_vote_per_author_witness :
  Boussole._fetch_and_validate_lgtm_votes Scenario.one_vote_twice Scenario.handler initial
  = Boussole._fetch_and_validate_lgtm_votes Scenario.one_vote Scenario.handler initial
  /\ Boussole._fetch_and_validate_lgtm_votes Scenario.one_vote_twice Scenario.handler
       initial
     = (Ret (1, [("bob", Some "write")]),
        adds initial [GET_comments "12"; GET_permission "bob"] [])
  /\ 0 <= 1 <= distinct_voters
                 [Scenario.says "bob" "/lgtm"; Scenario.says "dave" "nice";
                  Scenario.says "bob" "/LGTM again"].
Proof.
  split; [|split].
  - destruct (C7_one_vote_per_author Scenario.one_vote Scenario.handler initial)
      as (_ & _ & H).
    apply (H [] (Scenario.says "bob" "/lgtm") [Scenario.says "dave" "nice"]
             (Scenario.says "bob" "/LGTM again") [] true); reflexivity.
  - reflexivity.
  - destruct (C7_one_vote_per_author Scenario.one_vote_twice Scenario.handler initial)
      as (H & _ & _).
    apply (H 1 [("bob", Some "write")]
             (adds initial [GET_comments "12"; GET_permission "bob"] [])).
    reflexivity.
Defined.

(** C9: in prow, a count that [lgtm] returns has reached the threshold;
    with a tally below the threshold [lgtm(send_comment=False)] leaves the
    process with code 0 and makes no call after the tally; so in every run
    of [merge_pr] the count carried by a merge call has reached the
    threshold and the comment about missing votes is never posted. *)
Theorem C9_prow_insufficient_branch_unreachable (E : Env) (h : Handler) (st : St) :
  (forall send v st', Prow.lgtm E h send st = (Ret v, st') -> lgtm_threshold h <= v)
  /\ (let listing := comments_of E (trace st) (pr_num h) in
      let voters := recorded_votes (json listing) [] in
      status_code listing = 200 ->
      find (self_vote h) (json listing) = None ->
      exists v users st2,
        tally_votes (Prow.check_membership E h) (keys voters) voters 0
          (adds st [GET_comments (pr_num h)] [])
        = (Ret (v, users), st2)
        /\ (v < lgtm_threshold h ->
            Prow.lgtm E h false st
            = (Exit 0, adds st2 [] [Stdout (NOT_ENOUGH_LGTM v (lgtm_threshold h))])))
  /\ (exists o st' ext,
        Prow.merge_pr E h st = (o, st')
        /\ trace st' = trace st ++ ext
        /\ filter is_not_enough_comment ext = []
        /\ (forall pr m t pr' s v,
              In (PUT_merge pr m t (MSG_merge_message pr' s v)) ext ->
              lgtm_threshold h <= v)).
Proof.
  split; [|split].
  - intros send v st' Hrun.
    destruct (prow_lgtm_calls E h send st) as (o & s1 & e1 & Hrun' & _ & _ & _ & Hv).
    rewrite Hrun in Hrun'. injection Hrun' as <- <-. now apply Hv.
  - intros listing voters Hs Hf.
    destruct (prow_lgtm_clean E h st false Hs Hf)
      as (v & users & prints & Ht & _ & _ & Hrun).
    eexists v, users, _. split; [exact Ht|].
    intros Hlt. apply Z.leb_gt in Hlt. rewrite Hrun, Hlt, adds_adds, !app_nil_r.
    reflexivity.
  - apply prow_merge_shape.
Qed.

Lemma C9_prow_insufficient_branch_unreachable_witness :
  Prow.lgtm Scenario.no_vote Scenario.handler false initial
  = (Exit 0, adds initial [GET_comments "12"] [Stdout (NOT_ENOUGH_LGTM 0 1)])
  /\ lgtm_threshold Scenario.handler
     <= match fst (Prow.lgtm Scenario.one_vote Scenario.handler false initial) with
        | Ret v => v
        | _ => 0
        end.
Proof.
  split.
  - destruct (C9_prow_insufficient_branch_unreachable Scenario.no_vote Scenario.handler
                initial) as (_ & H & _).
    destruct H as (v & users & st2 & Ht & Hrun); [reflexivity | reflexivity |].
    injection Ht as <- <- <-. apply Hrun. reflexivity.
  - destruct (C9_prow_insufficient_branch_unreachable Scenario.one_vote Scenario.handler
                initial) as (H & _ & _).
    apply (H false 1
             (adds initial
                [GET_comments "12"; GET_permission "bob";
                 POST_review "12" "APPROVE"
                   (APPROVED_TEMPLATE 1 1
                      [{| row_user := "bob"; row_permission := "write";
                          row_valid := true |}])]
                [Stdout MSG_pr_approved])).
    reflexivity.
Defined.

(** C5, on the code: with nobody having voted and a threshold of 1, the
    merge command of prow leaves the process with code 0 after the
    permission lookup and the comment listing; the text about missing
    votes goes to the standard output only, no comment is posted and
    [merge_pr] returns nothing. *)
Theorem C5_prow_merge_exits_without_comment :
  Prow.merge_pr Scenario.no_vote Scenario.handler initial
  = (Exit 0,
     {| trace := [GET_permission "carol"; GET_comments "12"];
        out := [Stdout (NOT_ENOUGH_LGTM 0 1)];
        cached_pr_status := None |})
  /\ Prow.main Scenario.no_vote Scenario.handler "/merge" initial
     = (Exit 0,
        {| trace := [GET_permission "carol"; GET_comments "12"];
           out := [Stdout (NOT_ENOUGH_LGTM 0 1)];
           cached_pr_status := None |}).
Proof. split; reflexivity. Qed.

(** ** The merge command *)









(** C8, as stated, fails for prow: its [merge_pr] and its [main] never ask
    for the pull request, and on a closed one with enough votes the merge
    call is made and the command ends with [True]. *)
Lemma C8_prow_merges_a_closed_pull_request :
  state (json (pull_of Scenario.closed [] "12")) = Some "closed"
  /\ Prow.merge_pr Scenario.closed Scenario.handler initial
     = (Ret true,
        adds initial
          [GET_permission "carol"; GET_comments "12"; GET_permission "bob";
           POST_review "12" "APPROVE"
             (APPROVED_TEMPLATE 1 1
                [{| row_user := "bob"; row_permission := "write"; row_valid := true |}]);
           PUT_merge "12" "rebase" (MSG_merge_title "12")
             (MSG_merge_message "12" "alice" 1);
           GET_comments "12"; GET_permission "bob";
           POST_comment "12"
             (SUCCESS_MERGED "rebase" "carol" 1 1
                [{| row_user := "bob"; row_permission := "write";
                    row_valid := true |}])]
          [Stdout MSG_pr_approved])
  /\ fst (Prow.main Scenario.closed Scenario.handler "/merge" initial) = Ret tt
  /\ filter is_merge_call
       (trace (snd (Prow.main Scenario.closed Scenario.handler "/merge" initial)))
     = [PUT_merge "12" "rebase" (MSG_merge_title "12")
          (MSG_merge_message "12" "alice" 1)]
  /\ filter is_pull_fetch
       (trace (snd (Prow.main Scenario.closed Scenario.handler "/merge" initial)))
     = [].
Proof. repeat split. Qed.

(** C8: with the merge command as trigger and a pull request whose
    fetched state is not open, [main] prints that the pull request is not
    open and leaves the process with code 1 right after the one fetch of
    the pull request; a second process started in the world the first one
    left, the state again not being open, ends the same way; no merge
    call is made in either. *)
Theorem C8_not_open_short_circuit (E : Env) (h : Handler) (st : St)
    (trigger : string) (values : list string) :
  Text.parse_command Boussole.commands trigger = Some ("merge", values) ->
  let r1 := pull_of E (trace st) (pr_num h) in
  status_code r1 = 200 -> state (json r1) <> Some "open" ->
  let s1 := caching (adds (new_process st) [GET_pull (pr_num h)]
                       [Stderr (MSG_not_open (pr_num h))]) r1 in
  Boussole.main E h trigger (new_process st) = (Exit 1, s1)
  /\ filter is_merge_call (trace s1) = filter is_merge_call (trace st)
  /\ (let r2 := pull_of E (trace s1) (pr_num h) in
      status_code r2 = 200 -> state (json r2) <> Some "open" ->
      let s2 := caching (adds (new_process s1) [GET_pull (pr_num h)]
                           [Stderr (MSG_not_open (pr_num h))]) r2 in
      Boussole.main E h trigger (new_process s1) = (Exit 1, s2)
      /\ filter is_merge_call (trace s2) = filter is_merge_call (trace st)).
Proof.
  intros Hp r1 Hs1 Ho1 s1. split; [|split].
  - now apply (main_not_open E h trigger "merge" values (new_process st)).
  - unfold s1. simpl. rewrite filter_app. simpl. now rewrite app_nil_r.
  - intros r2 Hs2 Ho2 s2. split.
    + now apply (main_not_open E h trigger "merge" values (new_process s1)).
    + unfold s2, s1. simpl. rewrite !filter_app. simpl. now rewrite !app_nil_r.
Qed.

Lemma C8_not_open_short_circuit_witness :
  Boussole.main Scenario.closed Scenario.handler "/merge" (new_process initial)
  = (Exit 1,
     caching (adds initial [GET_pull "12"] [Stderr (MSG_not_open "12")])
       Scenario.closed_pull)
  /\ Boussole.main Scenario.closed Scenario.handler "/merge"
       (new_process
          (caching (adds initial [GET_pull "12"] [Stderr (MSG_not_open "12")])
             Scenario.closed_pull))
     = (Exit 1,
        caching (adds initial [GET_pull "12"; GET_pull "12"]
                   [Stderr (MSG_not_open "12"); Stderr (MSG_not_open "12")])
          Scenario.closed_pull).
Proof.
  destruct (C8_not_open_short_circuit Scenario.closed Scenario.handler initial
              "/merge" []) as (H1 & _ & H2).
  - reflexivity.
  - reflexivity.
  - simpl. discriminate.
  - split; [exact H1|].
    destruct H2 as [H2 _]; [reflexivity | simpl; discriminate | exact H2].
Defined.

(** prow's [main] has no gate on the state of the pull request: it never
    asks for the pull request, and on a closed one with enough votes the
    merge call is made. *)
Example prow_main_never_fetches_state :
  trace (snd (Prow.main Scenario.closed Scenario.handler "/merge" initial))
  = [GET_permission "carol"; GET_comments "12"; GET_permission "bob";
     POST_review "12" "APPROVE"
       (APPROVED_TEMPLATE 1 1
          [{| row_user := "bob"; row_permission := "write"; row_valid := true |}]);
     PUT_merge "12" "rebase" (MSG_merge_title "12") (MSG_merge_message "12" "alice" 1);
     GET_comments "12"; GET_permission "bob";
     POST_comment "12"
       (SUCCESS_MERGED "rebase" "carol" 1 1
          [{| row_user := "bob"; row_permission := "write"; row_valid := true |}])].
Proof. reflexivity. Qed.

(** * Further properties of the code *)

(** ** The text functions *)

Lemma append_nil_r (s : string) : (s ++ "")%string = s.
Proof. induction s; simpl; congruence. Qed.

Lemma append_assoc (a b c : string) : ((a ++ b) ++ c)%string = (a ++ b ++ c)%string.
Proof. induction a; simpl; congruence. Qed.

Lemma no_comma_app (a b : string) :
  no_comma (a ++ b) = no_comma a && no_comma b.
Proof. induction a as [|c a IH]; simpl; [reflexivity|]. now rewrite IH, andb_assoc. Qed.

Lemma split_comma_acc_nonempty (s : string) : forall acc, Text.split_comma_acc s acc <> [].
Proof.
  induction s as [|c s IH]; intros acc; simpl; [discriminate|].
  destruct (Ascii.eqb c ","); [discriminate | apply IH].
Qed.

Lemma split_comma_acc_concat (s : string) : forall acc,
  String.concat "," (Text.split_comma_acc s acc) = (acc ++ s)%string.
Proof.
  induction s as [|c s IH]; intros acc; simpl.
  - now rewrite append_nil_r.
  - destruct (Ascii.eqb_spec c ","%char) as [->|Hne].
    + pose proof (IH EmptyString) as H.
      destruct (Text.split_comma_acc s "") eqn:Hs;
        [now elim (split_comma_acc_nonempty s "")|].
      change (String.concat "," (acc :: s0 :: l))
        with (acc ++ "," ++ String.concat "," (s0 :: l))%string.
      rewrite H. reflexivity.
    + rewrite IH, append_assoc. reflexivity.
Qed.

Lemma split_comma_acc_no_comma (s : string) : forall acc,
  no_comma acc = true ->
  Forall (fun w => no_comma w = true) (Text.split_comma_acc s acc).
Proof.
  induction s as [|c s IH]; intros acc Hacc; simpl.
  - now constructor.
  - destruct (Ascii.eqb c ","%char) eqn:Hc.
    + constructor; [assumption | now apply IH].
    + apply IH. rewrite no_comma_app, Hacc. simpl. now rewrite Hc.
Qed.

(** X1: the allowed permissions of a handler are the pieces of the
    configured text between its commas: joined with commas they give the
    text back, none of them holds a comma, and there is at least one
    (the empty text gives the one empty piece). *)
Theorem X1_permissions_split_round_trip
    (pr sender commenter : string) (threshold : Z) (permissions event method : string) :
  let h := PRHandler_init pr sender commenter threshold permissions event method in
  String.concat "," (lgtm_permissions h) = permissions
  /\ Forall (fun w => no_comma w = true) (lgtm_permissions h)
  /\ lgtm_permissions h <> []
  /\ (forall p, permission_in h (Some p) = true -> no_comma p = true).
Proof.
  intros h. simpl. unfold Text.split_comma.
  split; [apply split_comma_acc_concat|].
  pose proof (split_comma_acc_no_comma permissions "" eq_refl) as Hall.
  split; [exact Hall|]. split; [apply split_comma_acc_nonempty|].
  intros p Hp. apply existsb_exists in Hp. destruct Hp as (w & Hin & Heq).
  apply String.eqb_eq in Heq. subst w.
  now apply (proj1 (Forall_forall _ _) Hall).
Qed.

Lemma lower_lower (c : ascii) : Text.lower (Text.lower c) = Text.lower c.
Proof. destruct c as [[] [] [] [] [] [] [] []]; reflexivity. Qed.

Lemma is_word_lower (c : ascii) : Text.is_word (Text.lower c) = Text.is_word c.
Proof. destruct c as [[] [] [] [] [] [] [] []]; reflexivity. Qed.

Lemma is_space_lower (c : ascii) : Text.is_space (Text.lower c) = Text.is_space c.
Proof. destruct c as [[] [] [] [] [] [] [] []]; reflexivity. Qed.

Lemma literal_lowercase (lit : string) : forall s,
  Text.literal true lit (lowercase s) = option_map lowercase (Text.literal true lit s).
Proof.
  induction lit as [|a lit IH]; intros s; simpl; [reflexivity|].
  destruct s as [|b s]; simpl; [reflexivity|].
  rewrite lower_lower. destruct (Ascii.eqb _ _); [apply IH | reflexivity].
Qed.

(** X2: the vote pattern does not look at the case of the letters: two
    comment bodies that are equal up to case are both votes or both not,
    and so are a body and its lower-case form. *)
Theorem X2_vote_pattern_ignores_case (body1 body2 : string) :
  Text.matches_lgtm (lowercase body1) = Text.matches_lgtm body1
  /\ (lowercase body1 = lowercase body2 ->
      Text.matches_lgtm body1 = Text.matches_lgtm body2).
Proof.
  assert (H : forall b, Text.matches_lgtm (lowercase b) = Text.matches_lgtm b).
  { intros b. unfold Text.matches_lgtm. rewrite literal_lowercase.
    destruct (Text.literal true "/lgtm" b) as [[|c r]|]; simpl; auto.
    now rewrite is_word_lower. }
  split; [apply H|]. intros Heq. now rewrite <- (H body1), <- (H body2), Heq.
Qed.

Lemma X2_vote_pattern_ignores_case_witness :
  Text.matches_lgtm "/LGTM, thanks" = Text.matches_lgtm "/lgtm, Thanks".
Proof.
  apply (X2_vote_pattern_ignores_case "/LGTM, thanks" "/lgtm, Thanks"). reflexivity.
Defined.

Lemma no_space_take_nonspace (s : string) : no_space (Text.take_nonspace s) = true.
Proof.
  induction s as [|c s IH]; simpl; [reflexivity|].
  destruct (Text.is_space c) eqn:Hc; simpl; [reflexivity|]. now rewrite Hc.
Qed.

Lemma requested_branches_spec (comments : list Comment) (b : string) :
  In b (Boussole.requested_branches comments)
  <-> exists c, In c comments /\ Text.cherry_pick_target (body c) = Some b.
Proof.
  induction comments as [|c cs IH]; simpl.
  - split; [intros [] | intros (c & [] & _)].
  - destruct (Text.cherry_pick_target (body c)) as [t|] eqn:Ht; simpl; rewrite IH.
    + split.
      * intros [<-|(c' & Hin & Hc')]; [exists c; auto | exists c'; auto].
      * intros (c' & [<-|Hin] & Hc'); [left; congruence | right; exists c'; auto].
    + split.
      * intros (c' & Hin & Hc'). exists c'; auto.
      * intros (c' & [<-|Hin] & Hc'); [congruence | exists c'; auto].
Qed.

(** X3: the branch a cherry-pick comment asks for is a word: it is not
    empty and holds no white space; so is every branch collected from the
    comments after a merge, and each of them comes from a comment. *)
Theorem X3_requested_branches_are_words (comments : list Comment) :
  (forall body b, Text.cherry_pick_target body = Some b -> word b)
  /\ (forall b, In b (Boussole.requested_branches comments) ->
                word b
                /\ exists c, In c comments /\ Text.cherry_pick_target (body c) = Some b).
Proof.
  assert (H : forall body b, Text.cherry_pick_target body = Some b -> word b).
  { intros bd b. unfold Text.cherry_pick_target.
    destruct (Text.literal true "/cherry-pick" bd) as [[|c rest]|]; try discriminate.
    destruct (Text.is_space c); try discriminate.
    destruct (Text.take_nonspace (Text.skip_spaces rest)) as [|a t] eqn:Ht;
      try discriminate.
    intros [= <-]. split; [discriminate|]. rewrite <- Ht. apply no_space_take_nonspace. }
  split; [exact H|]. intros b Hin. apply requested_branches_spec in Hin.
  destruct Hin as (c & Hin & Hc). split; [now apply (H (body c)) | now exists c].
Qed.

Lemma X3_requested_branches_are_words_witness :
  word "release-1.2".
Proof.
  apply (proj1 (X3_requested_branches_are_words []) "/Cherry-Pick   release-1.2 please").
  reflexivity.
Defined.

Lemma skip_spaces_length (s : string) :
  (String.length (Text.skip_spaces s) <= String.length s)%nat.
Proof. induction s as [|c s IH]; simpl; [lia|]. destruct (Text.is_space c); simpl; lia. Qed.

Lemma drop_nonspace_length (s : string) :
  (String.length (Text.drop_nonspace s) <= String.length s)%nat.
Proof. induction s as [|c s IH]; simpl; [lia|]. destruct (Text.is_space c); simpl; lia. Qed.

Lemma skip_spaces_head (s : string) c r :
  Text.skip_spaces s = String c r -> Text.is_space c = false.
Proof.
  induction s as [|a s IH]; simpl; [discriminate|].
  destruct (Text.is_space a) eqn:Ha; [exact IH | now intros [= <- _]].
Qed.

Lemma split_fuel_enough : forall n m s,
  (String.length s <= n)%nat -> (String.length s <= m)%nat ->
  Text.split_fuel n s = Text.split_fuel m s.
Proof.
  induction n as [|n IH]; intros m s Hn Hm.
  - destruct s; [|simpl in Hn; lia]. now destruct m.
  - destruct m as [|m].
    + destruct s; [reflexivity | simpl in Hm; lia].
    + simpl. pose proof (skip_spaces_length s) as Hsk.
      destruct (Text.skip_spaces s) as [|c r] eqn:Hs; [reflexivity|].
      pose proof (skip_spaces_head s c r Hs) as Hc.
      f_equal. simpl. rewrite Hc.
      pose proof (drop_nonspace_length r). simpl in Hsk.
      apply IH; lia.
Qed.

Lemma split_fuel_words : forall n s, Forall word (Text.split_fuel n s).
Proof.
  induction n as [|n IH]; intros s; simpl; [constructor|].
  destruct (Text.skip_spaces s) as [|c r] eqn:Hs; [constructor|].
  pose proof (skip_spaces_head s c r Hs) as Hc.
  constructor; [|apply IH].
  split.
  - simpl. rewrite Hc. discriminate.
  - apply (no_space_take_nonspace (String c r)).
Qed.

Lemma no_space_take_drop (s : string) :
  no_space s = true -> Text.take_nonspace s = s /\ Text.drop_nonspace s = EmptyString
                       /\ Text.skip_spaces s = s.
Proof.
  induction s as [|c s IH]; simpl; [auto|].
  intros H. apply andb_true_iff in H. destruct H as [Hc Hs].
  apply negb_true_iff in Hc. rewrite Hc. destruct (IH Hs) as (H1 & H2 & H3).
  rewrite H1. auto.
Qed.

(** X4: [values.split()] gives words only (not empty, no white space);
    a text that is one word is given back as it is; a text of white space
    gives nothing; and the length of the text is fuel enough for the
    model, more fuel changing nothing. *)
Theorem X4_split_gives_words (s : string) :
  Forall word (Text.split s)
  /\ (word s -> Text.split s = [s])
  /\ (Text.skip_spaces s = EmptyString -> Text.split s = [])
  /\ (forall n, (String.length s <= n)%nat -> Text.split_fuel n s = Text.split s).
Proof.
  split; [apply split_fuel_words|]. split; [|split].
  - intros [Hne Hns]. unfold Text.split.
    destruct (no_space_take_drop s Hns) as (H1 & H2 & H3).
    destruct s as [|c r]; [now elim Hne|].
    cbn [String.length Text.split_fuel]. rewrite H3, H1, H2.
    now destruct (String.length r).
  - intros H. unfold Text.split. destruct (String.length s); simpl; [reflexivity|].
    now rewrite H.
  - intros n Hn. unfold Text.split. apply split_fuel_enough; lia.
Qed.

Lemma X4_split_gives_words_witness :
  Text.split "main" = ["main"] /\ Text.split "  " = [] /\ Text.split_fuel 9 "a b" = ["a"; "b"].
Proof.
  destruct (X4_split_gives_words "main") as (_ & H1 & _).
  destruct (X4_split_gives_words "  ") as (_ & _ & H2 & _).
  destruct (X4_split_gives_words "a b") as (_ & _ & _ & H3).
  split; [apply H1; split; [discriminate | reflexivity]|].
  split; [apply H2; reflexivity|].
  rewrite (H3 9%nat); [reflexivity | simpl; lia].
Defined.

Lemma literal_exact (lit : string) : forall s rest,
  Text.literal false lit s = Some rest -> s = (lit ++ rest)%string.
Proof.
  induction lit as [|a lit IH]; intros s rest; simpl.
  - now intros [= ->].
  - destruct s as [|b s]; [discriminate|].
    destruct (Ascii.eqb_spec a b) as [->|]; [|discriminate].
    intros H. now rewrite (IH s rest H).
Qed.

Lemma first_command_sound (names : list string) : forall s n rest,
  Text.first_command names s = Some (n, rest) -> In n names /\ s = (n ++ rest)%string.
Proof.
  induction names as [|m names IH]; intros s n rest; simpl; [discriminate|].
  destruct (Text.literal false m s) as [r|] eqn:Hl.
  - intros [= <- <-]. split; [now left | now apply literal_exact].
  - intros H. destruct (IH s n rest H). auto.
Qed.

(** X5: a trigger comment is taken for a command only when it starts with
    a slash followed, letter for letter, by one of the command names; the
    values are words; and nothing is asked after the name: any text that
    begins with the slash and a command name is taken for that command,
    whatever follows ([/merger] is the command [merge]). *)
Theorem X5_command_by_prefix (text : string) :
  (forall names command values,
      Text.parse_command names text = Some (command, values) ->
      In command names
      /\ (exists rest, text = ("/" ++ command ++ rest)%string)
      /\ Forall word values)
  /\ (forall n rest,
        In n Boussole.commands ->
        Text.parse_command Boussole.commands ("/" ++ n ++ rest)
        = Some (n, Text.split (Text.take_line (Text.skip_spaces rest))))
  /\ (forall n rest,
        In n Prow.commands ->
        Text.parse_command Prow.commands ("/" ++ n ++ rest)
        = Some (n, Text.split (Text.take_line (Text.skip_spaces rest)))).
Proof.
  split; [|split].
  - intros names command values. unfold Text.parse_command.
    destruct text as [|c s]; [discriminate|].
    destruct c as [[] [] [] [] [] [] [] []]; try discriminate.
    destruct (Text.first_command names s) as [[n rest]|] eqn:Hf; [|discriminate].
    intros [= <- <-]. destruct (first_command_sound names s n rest Hf) as [Hin ->].
    split; [exact Hin|]. split; [now exists rest|]. apply split_fuel_words.
  - intros n rest Hin. simpl in Hin.
    repeat (destruct Hin as [<-|Hin]; [reflexivity|]). contradiction.
  - intros n rest Hin. simpl in Hin.
    repeat (destruct Hin as [<-|Hin]; [reflexivity|]). contradiction.
Qed.

Lemma X5_command_by_prefix_witness :
  Text.parse_command Boussole.commands "/merger now"
  = Some ("merge", ["r"; "now"])
  /\ In "lgtm" Prow.commands.
Proof.
  destruct (X5_command_by_prefix "/lgtm") as (H1 & H2 & _).
  split.
  - apply (H2 "merge" "r now"). simpl. auto.
  - apply (H1 Prow.commands "lgtm" []). reflexivity.
Defined.

(** X6: a trigger comment that is no command ends both scripts with code 1
    after the diagnostic, before any call on the API: nothing is fetched
    and nothing is posted. *)
Theorem X6_unknown_command_is_fatal (E : Env) (h : Handler) (text : string) (st : St) :
  (Text.parse_command Boussole.commands text = None ->
   Boussole.main E h text st = (Exit 1, adds st [] [Stderr (MSG_no_valid_command text)]))
  /\ (Text.parse_command Prow.commands text = None ->
      Prow.main E h text st = (Exit 1, adds st [] [Stderr (MSG_no_valid_command text)])).
Proof.
  split; intros Hp.
  - unfold Boussole.main. rewrite Hp. unfold bind, print_err, sys_exit.
    now rewrite print_adds.
  - unfold Prow.main. rewrite Hp. unfold bind, print_err, sys_exit.
    now rewrite print_adds.
Qed.

Lemma X6_unknown_command_is_fatal_witness :
  Boussole.main Scenario.one_vote Scenario.handler "please /merge" initial
  = (Exit 1, adds initial [] [Stderr (MSG_no_valid_command "please /merge")])
  /\ Prow.main Scenario.one_vote Scenario.handler "/rebase" initial
     = (Exit 1, adds initial [] [Stderr (MSG_no_valid_command "/rebase")]).
Proof.
  split.
  - apply (proj1 (X6_unknown_command_is_fatal Scenario.one_vote Scenario.handler
                    "please /merge" initial)). reflexivity.
  - apply (proj2 (X6_unknown_command_is_fatal Scenario.one_vote Scenario.handler
                    "/rebase" initial)). reflexivity.
Defined.

(** ** Which calls a run can make *)

Section CallsWithin.

Variable I : St -> Prop.
Variable P : Call -> bool.
Hypothesis I_on_cache : on_cache I.

Lemma cw_ret {A} (a : A) : calls_within I P (ret a).
Proof. intros st H. split; [exact H|]. exists []. now rewrite app_nil_r. Qed.

Lemma cw_exit {A} (code : Z) : calls_within I P (@sys_exit A code).
Proof. intros st H. split; [exact H|]. exists []. now rewrite app_nil_r. Qed.

Lemma cw_raise {A} (exn : string) : calls_within I P (@raise A exn).
Proof. intros st H. split; [exact H|]. exists []. now rewrite app_nil_r. Qed.

Lemma cw_print (p : Print) : calls_within I P (print p).
Proof.
  intros st H. split; [now apply (I_on_cache st)|]. exists []. simpl.
  now rewrite app_nil_r.
Qed.

Lemma cw_cache : calls_within I P get_pr_status_cache.
Proof. intros st H. split; [exact H|]. exists []. now rewrite app_nil_r. Qed.

Lemma cw_bind {A B} (c : M A) (k : A -> M B) :
  calls_within I P c -> (forall a, calls_within I P (k a)) ->
  calls_within I P (bind c k).
Proof.
  intros Hc Hk st H. destruct (Hc st H) as [H1 (e1 & T1 & F1)].
  unfold bind. destruct (c st) as [[a|code|exn] s1]; simpl in *.
  - destruct (Hk a s1 H1) as [H2 (e2 & T2 & F2)]. split; [exact H2|].
    exists (e1 ++ e2). rewrite T2, T1, app_assoc, forallb_app, F1, F2. auto.
  - split; [exact H1|]. now exists e1.
  - split; [exact H1|]. now exists e1.
Qed.

Lemma cw_recorded {A} (f : St -> A) (c : Call) :
  P c = true -> calls_within I P (fun s => (Ret (f s), record c s)).
Proof.
  intros Hc st H. split; [now apply (I_on_cache st)|]. exists [c]. simpl.
  now rewrite Hc.
Qed.

Hypothesis P_plain :
  forall c, is_pull_fetch c = false -> is_merge_call c = false -> P c = true.

Lemma cw_api_call (E : Env) (c : Call) :
  is_pull_fetch c = false -> is_merge_call c = false ->
  calls_within I P (api_call E c).
Proof. intros H1 H2. apply (cw_recorded _ c). now apply P_plain. Qed.

Lemma cw_get_comments E pr : calls_within I P (api_get_comments E pr).
Proof. apply (cw_recorded _ (GET_comments pr)). now apply P_plain. Qed.

Lemma cw_get_permission E u : calls_within I P (api_get_permission E u).
Proof. apply (cw_recorded _ (GET_permission u)). now apply P_plain. Qed.

Lemma cw_get_commits E pr : calls_within I P (api_get_commits E pr).
Proof. apply (cw_recorded _ (GET_commits pr)). now apply P_plain. Qed.

Lemma cw_get_ref E b : calls_within I P (api_get_ref E b).
Proof. apply (cw_recorded _ (GET_ref b)). now apply P_plain. Qed.

Lemma cw_post_merges E b hd m : calls_within I P (api_post_merges E b hd m).
Proof. apply (cw_recorded _ (POST_merges b hd m)). now apply P_plain. Qed.

Lemma cw_post_comment E h m : calls_within I P (post_comment E h m).
Proof. now apply cw_api_call. Qed.

Hypothesis status_within : forall E n, calls_within I P (Boussole._get_pr_status E n).

Ltac cw_using known :=
  repeat first
    [ known
    | apply cw_ret | apply cw_exit | apply cw_raise | apply cw_print | apply cw_cache
    | apply cw_get_comments | apply cw_get_permission | apply cw_get_commits
    | apply cw_get_ref | apply cw_post_merges | apply cw_post_comment
    | apply status_within
    | apply cw_api_call; reflexivity
    | apply cw_bind; [|intros ?]
    | match goal with
      | |- calls_within _ _ (if ?b then _ else _) => destruct b
      | |- calls_within _ _ (match ?x with _ => _ end) => destruct x
      | |- calls_within _ _ (let (_, _) := ?x in _) => destruct x
      end ].

Ltac cw := cw_using fail.

Lemma cw_check_membership E h u : calls_within I P (Boussole._check_membership E h u).
Proof. unfold Boussole._check_membership, print_err. cw. Qed.

Lemma cw_prow_check_membership E h u : calls_within I P (Prow.check_membership E h u).
Proof. unfold Prow.check_membership, print_err. cw. Qed.

Lemma cw_scan_votes E h : forall cs d, calls_within I P (scan_votes E h cs d).
Proof.
  induction cs as [|c cs IH]; intros d; cbn [scan_votes]; unfold print_err;
    cw_using ltac:(apply IH).
Qed.

Lemma cw_tally_votes check :
  (forall u, calls_within I P (check u)) ->
  forall users d v, calls_within I P (tally_votes check users d v).
Proof.
  intros Hc. induction users as [|u users IH]; intros d v; cbn [tally_votes];
    cw_using ltac:(first [apply Hc | apply IH]).
Qed.

Lemma cw_fetch E h : calls_within I P (Boussole._fetch_and_validate_lgtm_votes E h).
Proof.
  unfold Boussole._fetch_and_validate_lgtm_votes, print_err.
  cw_using ltac:(first [apply cw_scan_votes
                       | apply cw_tally_votes; apply cw_check_membership]).
Qed.

Lemma cw_boussole_lgtm E h send : calls_within I P (Boussole.lgtm E h send).
Proof.
  unfold Boussole.lgtm, Boussole._post_lgtm_breakdown, post_lgtm_breakdown,
    print_err, print_out.
  cw_using ltac:(first [apply cw_scan_votes
                       | apply cw_tally_votes; apply cw_check_membership]).
Qed.

Lemma cw_replay E h b total : forall commits i s0,
  calls_within I P (Boussole.replay E h b total i commits s0).
Proof.
  induction commits as [|c cs IH]; intros i s0; cbn [Boussole.replay];
    unfold Boussole._handle_merge_conflict, Boussole._post_comment;
    cw_using ltac:(apply IH).
Qed.

Lemma cw_resolve_branch E h b : calls_within I P (Boussole.resolve_branch E h b).
Proof.
  unfold Boussole.resolve_branch, Boussole._get_branch_sha, Boussole._create_branch,
    Boussole._post_comment. cw.
Qed.

Lemma cw_job E h b : calls_within I P (Boussole.cherry_pick_job E h b).
Proof.
  unfold Boussole.cherry_pick_job, Boussole._get_pr_commits, Boussole.finish_job,
    Boussole._post_comment.
  cw_using ltac:(first [apply cw_resolve_branch | apply cw_replay]).
Qed.

Lemma cw_cherry_pick_all E h : forall branches,
  calls_within I P (Boussole.cherry_pick_all E h branches).
Proof.
  induction branches as [|b bs IH]; cbn [Boussole.cherry_pick_all];
    unfold Boussole._perform_cherry_pick; cw_using ltac:(first [apply cw_job | apply IH]).
Qed.

Lemma cw_delete_labels E h : forall labels, calls_within I P (delete_labels E h labels).
Proof.
  induction labels as [|l ls IH]; cbn [delete_labels]; cw_using ltac:(apply IH).
Qed.

(** The handlers but [merge_pr], which alone makes the merge call. *)
Lemma cw_handlers E h command values :
  command <> "merge" -> calls_within I P (Boussole.dispatch E h command values).
Proof.
  intros Hm. unfold Boussole.dispatch, assign_unassign, label, unlabel,
    Boussole.rebase, Boussole.cherry_pick, Boussole._post_comment, print_err.
  apply String.eqb_neq in Hm. rewrite Hm.
  cw_using ltac:(first [apply cw_delete_labels | apply cw_boussole_lgtm]).
  destruct (String.eqb command "assign"); apply cw_api_call; reflexivity.
Qed.

End CallsWithin.

Lemma cw_merge_pr I P E h :
  on_cache I ->
  (forall c, is_pull_fetch c = false -> P c = true) ->
  (forall E n, calls_within I P (Boussole._get_pr_status E n)) ->
  calls_within I P (Boussole.merge_pr E h).
Proof.
  intros HI HP Hs.
  assert (HP' : forall c, is_pull_fetch c = false -> is_merge_call c = false -> P c = true)
    by auto.
  unfold Boussole.merge_pr, Boussole._post_comment, print_err.
  repeat first
    [ apply cw_ret | apply cw_exit | apply cw_print; assumption
    | apply cw_check_membership; assumption
    | apply cw_fetch; assumption
    | apply cw_cherry_pick_all; assumption
    | apply cw_get_comments; assumption
    | apply cw_post_comment; assumption
    | apply cw_recorded; [assumption | apply HP; reflexivity]
    | apply cw_bind; [|intros ?]
    | match goal with
      | |- calls_within _ _ (if ?b then _ else _) => destruct b
      | |- calls_within _ _ (match ?x with _ => _ end) => destruct x
      end ].
Qed.

Lemma cw_dispatch I P E h command values :
  on_cache I ->
  (forall c, is_pull_fetch c = false -> P c = true) ->
  (forall E n, calls_within I P (Boussole._get_pr_status E n)) ->
  calls_within I P (Boussole.dispatch E h command values).
Proof.
  intros HI HP Hs. destruct (String.eqb_spec command "merge") as [->|Hne].
  - unfold Boussole.dispatch. simpl.
    apply cw_bind; [now apply cw_merge_pr | intros ?; apply cw_ret].
  - apply cw_handlers; auto.
Qed.

Lemma holds_status_on_cache : on_cache holds_status.
Proof. intros s s' Hc (r & Hr & Hok). exists r. now rewrite <- Hc. Qed.

Lemma status_reused E n :
  calls_within holds_status (fun c => negb (is_pull_fetch c)) (Boussole._get_pr_status E n).
Proof.
  intros st (r & Hr & Hok).
  unfold Boussole._get_pr_status, bind, get_pr_status_cache. rewrite Hr, Hok. simpl.
  split; [now exists r|]. exists []. now rewrite app_nil_r.
Qed.

Lemma forallb_not_filter (Q : Call -> bool) (l : list Call) :
  forallb (fun c => negb (Q c)) l = true -> filter Q l = [].
Proof.
  induction l as [|c l IH]; simpl; [reflexivity|].
  intros H. apply andb_true_iff in H. destruct H as [Hc H].
  apply negb_true_iff in Hc. rewrite Hc. auto.
Qed.

Lemma check_status_fresh E num status s0 :
  cached_pr_status s0 = None ->
  Boussole.check_status E num status s0
  = if status_code (pull_of E (trace s0) num) =? 200
    then (Ret match state (json (pull_of E (trace s0) num)) with
              | Some s => String.eqb s status
              | None => false
              end,
          caching (adds s0 [GET_pull num] []) (pull_of E (trace s0) num))
    else (Exit 1,
          caching (adds s0 [GET_pull num]
                     [Stderr (MSG_status_unavailable num
                                (text (pull_of E (trace s0) num)))])
            (pull_of E (trace s0) num)).
Proof.
  intros Hc. unfold Boussole.check_status, bind at 1, Boussole._get_pr_status, bind at 1.
  unfold get_pr_status_cache. rewrite Hc.
  unfold bind at 1, api_get_pull. cbn beta iota.
  unfold bind at 1, set_pr_status, ret. cbn beta iota. simpl status_code.
  destruct (status_code (pull_of E (trace s0) num) =? 200); simpl.
  - unfold ret. f_equal. apply St_eq; simpl; rewrite ?app_nil_r; reflexivity.
  - unfold bind, print_err, sys_exit. rewrite print_adds.
    f_equal. apply St_eq; simpl; rewrite ?app_nil_r; reflexivity.
Qed.

(** X7: a process of boussole asks for the pull request at most once, as
    its very first call: whatever the command and the answers of the API,
    the calls of [main] are none at all, or the fetch of the pull request
    followed by calls none of which is a fetch of the pull request. *)
Theorem X7_pull_request_fetched_once (E : Env) (h : Handler) (text : string) (st : St) :
  exists ext,
    trace (snd (Boussole.main E h text (new_process st))) = trace st ++ ext
    /\ (ext = []
        \/ exists rest, ext = GET_pull (pr_num h) :: rest
                        /\ filter is_pull_fetch rest = []).
Proof.
  unfold Boussole.main.
  destruct (Text.parse_command Boussole.commands text) as [[command values]|].
  - unfold bind at 1. rewrite check_status_fresh by reflexivity.
    destruct (status_code (pull_of E (trace (new_process st)) (pr_num h)) =? 200) eqn:Hs.
    + match goal with
      | |- context [snd (?K (caching ?s ?r))] =>
          assert (HK : calls_within holds_status (fun c => negb (is_pull_fetch c)) K)
      end.
      { assert (HP : forall c, is_pull_fetch c = false -> negb (is_pull_fetch c) = true)
          by (intros c ->; reflexivity).
        unfold Boussole.check_response, print_err.
        repeat first
          [ apply cw_ret | apply cw_exit | apply cw_raise
          | apply cw_print; apply holds_status_on_cache
          | apply cw_dispatch; [apply holds_status_on_cache | exact HP | apply status_reused]
          | apply cw_bind; [|intros ?]
          | match goal with
            | |- calls_within _ _ (if ?b then _ else _) => destruct b
            | |- calls_within _ _ (match ?x with _ => _ end) => destruct x
            end ]. }
      match goal with
      | |- context [snd (?K (caching ?s ?r))] =>
          destruct (HK (caching s r)) as [_ (e & He & Hf)]
      end.
      * eexists. split; [reflexivity|]. apply Z.eqb_eq in Hs.
        unfold response_ok. rewrite Hs. reflexivity.
      * rewrite He. simpl. exists (GET_pull (pr_num h) :: e).
        rewrite <- app_assoc. split; [reflexivity|]. right. exists e.
        split; [reflexivity | now apply forallb_not_filter].
    + simpl. exists [GET_pull (pr_num h)]. split; [reflexivity|].
      right. now exists [].
  - unfold bind, print_err, sys_exit. rewrite print_adds. simpl.
    exists []. rewrite app_nil_r. split; [reflexivity | now left].
Qed.

(** ** The gate of [main] and the end of a command *)

(** X8: [_get_pr_status] with nothing cached asks the API and keeps the
    answer; asked again, it hands out the kept answer without a call when
    the answer is truthy (its status is not in 400..599), whatever number
    it is asked for, and asks the API again when the kept answer is
    falsy. *)
Theorem X8_pr_status_cache (E : Env) (n : string) (st : St) :
  cached_pr_status st = None ->
  let r := pull_of E (trace st) n in
  let s1 := caching (adds st [GET_pull n] []) r in
  Boussole._get_pr_status E n st = (Ret r, s1)
  /\ (response_ok r = true ->
      forall n', Boussole._get_pr_status E n' s1 = (Ret r, s1))
  /\ (response_ok r = false ->
      Boussole._get_pr_status E n s1
      = (Ret (pull_of E (trace s1) n),
         caching (adds s1 [GET_pull n] []) (pull_of E (trace s1) n))).
Proof.
  intros Hc r s1. split; [|split].
  - unfold Boussole._get_pr_status, bind, get_pr_status_cache, api_get_pull,
      set_pr_status, ret. rewrite Hc. f_equal.
    apply St_eq; simpl; rewrite ?app_nil_r; reflexivity.
  - intros Hok n'.
    unfold Boussole._get_pr_status, bind, get_pr_status_cache, ret. simpl.
    now rewrite Hok.
  - intros Hok.
    unfold Boussole._get_pr_status, bind, get_pr_status_cache, api_get_pull,
      set_pr_status, ret. simpl. rewrite Hok. f_equal.
    apply St_eq; simpl; rewrite ?app_nil_r; reflexivity.
Qed.

Lemma X8_pr_status_cache_witness :
  Boussole._get_pr_status Scenario.closed "7"
    (caching (adds initial [GET_pull "12"] []) Scenario.closed_pull)
  = (Ret Scenario.closed_pull,
     caching (adds initial [GET_pull "12"] []) Scenario.closed_pull).
Proof.
  destruct (X8_pr_status_cache Scenario.closed "12" initial eq_refl) as (_ & H & _).
  apply (H eq_refl "7").
Defined.

(** X9: whatever the command, [main] of boussole runs no handler unless the
    pull request could be fetched and is open: a fetch answered with
    another status than 200, or a state that is not open, ends the process
    with code 1 after that one call, also for [/help] or [/label]. *)
Theorem X9_every_command_is_gated (E : Env) (h : Handler) (comment : string) (st : St)
    (command : string) (values : list string) :
  Text.parse_command Boussole.commands comment = Some (command, values) ->
  let s0 := new_process st in
  let r := pull_of E (trace st) (pr_num h) in
  (status_code r <> 200 ->
   Boussole.main E h comment s0
   = (Exit 1,
      caching (adds s0 [GET_pull (pr_num h)]
                 [Stderr (MSG_status_unavailable (pr_num h) (text r))]) r))
  /\ (status_code r = 200 -> state (json r) <> Some "open" ->
      Boussole.main E h comment s0
      = (Exit 1,
         caching (adds s0 [GET_pull (pr_num h)] [Stderr (MSG_not_open (pr_num h))]) r)).
Proof.
  intros Hp s0 r. split.
  - intros Hs. apply Z.eqb_neq in Hs.
    unfold Boussole.main. rewrite Hp. unfold bind at 1.
    rewrite check_status_fresh by reflexivity.
    change (trace s0) with (trace st). fold r. now rewrite Hs.
  - intros Hs Ho. now apply (main_not_open E h comment command values s0).
Qed.

Lemma X9_every_command_is_gated_witness :
  Boussole.main Scenario.closed Scenario.handler "/help" (new_process initial)
  = (Exit 1,
     caching (adds initial [GET_pull "12"] [Stderr (MSG_not_open "12")])
       Scenario.closed_pull).
Proof.
  destruct (X9_every_command_is_gated Scenario.closed Scenario.handler "/help" initial
              "help" []) as [_ H]; [reflexivity|].
  apply H; [reflexivity | simpl; discriminate].
Defined.

Lemma main_open E h text command values s0 :
  Text.parse_command Boussole.commands text = Some (command, values) ->
  cached_pr_status s0 = None ->
  status_code (pull_of E (trace s0) (pr_num h)) = 200 ->
  state (json (pull_of E (trace s0) (pr_num h))) = Some "open" ->
  Boussole.main E h text s0
  = (response <- Boussole.dispatch E h command values ;;
     match response with
     | None => ret tt
     | Some Blank => raise "TypeError"
     | Some (Real r) =>
         if response_ok r then
           ok <- Boussole.check_response r ;;
           if negb ok then sys_exit 1 else ret tt
         else ret tt
     end)
      (caching (adds s0 [GET_pull (pr_num h)] []) (pull_of E (trace s0) (pr_num h))).
Proof.
  intros Hp Hc Hs Ho. unfold Boussole.main. rewrite Hp. unfold bind at 1.
  rewrite check_status_fresh by exact Hc. rewrite Hs, Ho. reflexivity.
Qed.

Lemma ending_run (r : Resp unit) s :
  (if response_ok r then
     ok <- Boussole.check_response r ;;
     if negb ok then sys_exit 1 else ret tt
   else ret tt) s
  = (fst (ending r), adds s [] (snd (ending r))).
Proof.
  unfold ending, Boussole.check_response.
  destruct (response_ok r); [|unfold ret; now rewrite adds_nil].
  destruct ((200 <=? status_code r) && (status_code r <? 300)).
  - unfold bind, ret. simpl. now rewrite adds_nil.
  - unfold bind, print_err, ret, sys_exit. now rewrite print_adds.
Qed.

(** X10: how a command of boussole ends on the response of its last call.
    [/rebase] and [/label] post their confirmation before the call and
    whatever its answer; the process then ends with code 1 only when the
    answer is truthy for [requests] and not a 2xx, that is below 200, in
    300..399 or from 600 on: an answer in 400..599 is not looked at and
    the command ends as a success. *)
Theorem X10_failed_call_ends_as_success (E : Env) (h : Handler) (text : string)
    (st : St) (values : list string) :
  let s0 := new_process st in
  let pull := pull_of E (trace st) (pr_num h) in
  let s1 := caching (adds s0 [GET_pull (pr_num h)] []) pull in
  status_code pull = 200 -> state (json pull) = Some "open" ->
  (Text.parse_command Boussole.commands text = Some ("rebase", values) ->
   let calls := [POST_comment (pr_num h) MSG_rebased; PUT_update_branch (pr_num h)] in
   let r := plain_of E (trace s1 ++ [POST_comment (pr_num h) MSG_rebased])
              (PUT_update_branch (pr_num h)) in
   Boussole.main E h text s0 = (fst (ending r), adds s1 calls (snd (ending r))))
  /\ (Text.parse_command Boussole.commands text = Some ("label", values) ->
      let calls := [POST_comment (pr_num h) (MSG_added_labels values);
                    POST_labels (pr_num h) values] in
      let r := plain_of E (trace s1 ++ [POST_comment (pr_num h) (MSG_added_labels values)])
                 (POST_labels (pr_num h) values) in
      Boussole.main E h text s0 = (fst (ending r), adds s1 calls (snd (ending r))))
  /\ (forall r : Resp unit,
        (400 <= status_code r < 600 -> ending r = (Ret tt, []))
        /\ (200 <= status_code r < 300 -> ending r = (Ret tt, []))
        /\ (fst (ending r) = Exit 1
            <-> status_code r < 200 \/ 300 <= status_code r < 400
                \/ 600 <= status_code r)).
Proof.
  intros s0 pull s1 Hs Ho. split; [|split].
  - intros Hp calls r.
    rewrite (main_open E h text "rebase" values s0 Hp eq_refl Hs Ho).
    unfold bind at 1, Boussole.dispatch. simpl.
    rewrite ending_run, !record_adds, !adds_adds. reflexivity.
  - intros Hp calls r.
    rewrite (main_open E h text "label" values s0 Hp eq_refl Hs Ho).
    unfold bind at 1, Boussole.dispatch. simpl.
    rewrite ending_run, !record_adds, !adds_adds. reflexivity.
  - intros r. unfold ending, response_ok. split; [|split].
    + intros H.
      destruct (400 <=? status_code r) eqn:H1; destruct (status_code r <? 600) eqn:H2;
        simpl; try reflexivity; lia.
    + intros H.
      destruct (400 <=? status_code r) eqn:H1; destruct (status_code r <? 600) eqn:H2;
        destruct (200 <=? status_code r) eqn:H3; destruct (status_code r <? 300) eqn:H4;
        simpl; try reflexivity; lia.
    + destruct (400 <=? status_code r) eqn:H1; destruct (status_code r <? 600) eqn:H2;
        destruct (200 <=? status_code r) eqn:H3; destruct (status_code r <? 300) eqn:H4;
        simpl; split; intros H; try discriminate; try reflexivity; lia.
Qed.

Lemma X10_failed_call_ends_as_success_witness :
  Boussole.main (refusing Scenario.one_vote is_update_branch 404) Scenario.handler
    "/rebase" (new_process initial)
  = (Ret tt,
     adds (caching (adds initial [GET_pull "12"] []) Scenario.open_pull)
       [POST_comment "12" MSG_rebased; PUT_update_branch "12"] []).
Proof.
  destruct (X10_failed_call_ends_as_success
              (refusing Scenario.one_vote is_update_branch 404) Scenario.handler
              "/rebase" initial []) as (H & _ & _); [reflexivity | reflexivity |].
  apply H. reflexivity.
Defined.

Lemma delete_labels_run E h : forall labels st,
  delete_labels E h labels st
  = (Ret tt, adds st (map (DELETE_label (pr_num h)) labels) []).
Proof.
  induction labels as [|l ls IH]; intros st; cbn [delete_labels map].
  - unfold ret. now rewrite adds_nil.
  - unfold bind, api_call. rewrite IH, record_adds, adds_adds. reflexivity.
Qed.

(** X11: on an open pull request [/unlabel] deletes the labels one by one
    and posts its comment, after which boussole ends in an uncaught
    [TypeError], the fresh [requests.Response()] it hands to [main] having
    no status to compare; prow, which does not look at the response, ends
    normally after the same calls.  [/cherry-pick] with one branch posts
    its note and ends normally; with no branch or several it ends with
    code 1 and posts nothing. *)
Theorem X11_unlabel_and_cherry_pick_commands (E : Env) (h : Handler) (text : string)
    (st : St) (values : list string) :
  let s0 := new_process st in
  let pull := pull_of E (trace st) (pr_num h) in
  let s1 := caching (adds s0 [GET_pull (pr_num h)] []) pull in
  let unlabelling := map (DELETE_label (pr_num h)) values
                     ++ [POST_comment (pr_num h) (MSG_removed_labels values)] in
  (status_code pull = 200 -> state (json pull) = Some "open" ->
   (Text.parse_command Boussole.commands text = Some ("unlabel", values) ->
    Boussole.main E h text s0 = (Raise "TypeError", adds s1 unlabelling []))
   /\ (Text.parse_command Boussole.commands text = Some ("cherry-pick", values) ->
       Boussole.main E h text s0
       = match values with
         | [branch] =>
             (Ret tt, adds s1 [POST_comment (pr_num h) (MSG_will_cherry_pick branch)] [])
         | _ => (Exit 1, adds s1 [] [Stderr (MSG_cherry_pick_arguments values)])
         end))
  /\ (Text.parse_command Prow.commands text = Some ("unlabel", values) ->
      Prow.main E h text st = (Ret tt, adds st unlabelling [])).
Proof.
  intros s0 pull s1 unlabelling. split.
  - intros Hs Ho. split; intros Hp.
    + rewrite (main_open E h text "unlabel" values s0 Hp eq_refl Hs Ho).
      unfold bind at 1, Boussole.dispatch. simpl.
      unfold bind at 1, unlabel, bind at 1. rewrite delete_labels_run.
      unfold bind, post_comment, api_call, ret, raise.
      rewrite record_adds, adds_adds. reflexivity.
    + rewrite (main_open E h text "cherry-pick" values s0 Hp eq_refl Hs Ho).
      unfold bind at 1, Boussole.dispatch. simpl.
      unfold bind at 1, Boussole.cherry_pick.
      destruct values as [|b [|b' vs]].
      * unfold bind, print_err, sys_exit. now rewrite print_adds.
      * unfold bind. rewrite _post_comment_run. reflexivity.
      * unfold bind, print_err, sys_exit. now rewrite print_adds.
  - intros Hp. unfold Prow.main. rewrite Hp. simpl.
    unfold bind at 1, unlabel, bind at 1. rewrite delete_labels_run.
    unfold bind, post_comment, api_call, ret.
    rewrite record_adds, adds_adds. reflexivity.
Qed.

Lemma X11_unlabel_and_cherry_pick_commands_witness :
  Boussole.main Scenario.one_vote Scenario.handler "/unlabel bug wip" (new_process initial)
  = (Raise "TypeError",
     adds (caching (adds initial [GET_pull "12"] []) Scenario.open_pull)
       [DELETE_label "12" "bug"; DELETE_label "12" "wip";
        POST_comment "12" (MSG_removed_labels ["bug"; "wip"])] [])
  /\ Prow.main Scenario.one_vote Scenario.handler "/unlabel bug wip" initial
     = (Ret tt,
        adds initial
          [DELETE_label "12" "bug"; DELETE_label "12" "wip";
           POST_comment "12" (MSG_removed_labels ["bug"; "wip"])] []).
Proof.
  destruct (X11_unlabel_and_cherry_pick_commands Scenario.one_vote Scenario.handler
              "/unlabel bug wip" initial ["bug"; "wip"]) as [Hb Hp].
  split.
  - destruct Hb as [Hb _]; [reflexivity | reflexivity |]. apply Hb. reflexivity.
  - apply Hp. reflexivity.
Defined.

(** ** Permission lookups *)

Lemma boussole_membership_run E h user st :
  exists prints,
    Boussole._check_membership E h user st
    = (Ret (membership_of h (permission_of E (trace st) user)),
       adds st [GET_permission user] prints)
    /\ (status_code (permission_of E (trace st) user) = 404 -> prints = []).
Proof.
  unfold Boussole._check_membership, membership_of, bind at 1, api_get_permission.
  cbn beta iota. rewrite record_adds.
  destruct (status_code (permission_of E (trace st) user) =? 404) eqn:H404.
  - apply Z.eqb_eq in H404. rewrite H404. exists []. split; reflexivity.
  - apply Z.eqb_neq in H404.
    destruct (status_code (permission_of E (trace st) user) =? 200); cbn [negb].
    + destruct (json (permission_of E (trace st) user)) as [[|a p]|];
        try (eexists; unfold bind, print_err, ret; rewrite print_adds, adds_adds;
             split; [reflexivity | intros; contradiction]).
      exists []. split; [reflexivity | intros; contradiction].
    + eexists. unfold bind, print_err, ret. rewrite print_adds, adds_adds.
      split; [reflexivity | intros; contradiction].
Qed.

Lemma prow_membership_run E h user st :
  exists prints,
    Prow.check_membership E h user st
    = (Ret (membership_of h (permission_of E (trace st) user)),
       adds st [GET_permission user] prints)
    /\ (status_code (permission_of E (trace st) user) = 404 -> prints <> []).
Proof.
  unfold Prow.check_membership, membership_of, bind at 1, api_get_permission.
  cbn beta iota. rewrite record_adds.
  destruct (status_code (permission_of E (trace st) user) =? 200) eqn:H200; cbn [negb].
  - apply Z.eqb_eq in H200.
    destruct (json (permission_of E (trace st) user)) as [[|a p]|];
      try (eexists; unfold bind, print_err, ret; rewrite print_adds, adds_adds;
           split; [reflexivity | intros; lia]).
    exists []. split; [reflexivity | intros; lia].
  - eexists. unfold bind, print_err, ret. rewrite print_adds, adds_adds.
    split; [reflexivity | intros; discriminate].
Qed.

(** X12: a membership check makes one permission lookup and always comes
    back, never ending the process; the vote it reports is valid exactly
    when the lookup is answered 200 with a permission that is not empty
    and is one of the allowed ones, and a permission is reported only when
    the lookup is answered 200 with one that is not empty.  The two
    scripts report the same; on a 404 boussole prints nothing and prow
    prints its diagnostic. *)
Theorem X12_membership_check (E : Env) (h : Handler) (user : string) (st : St) :
  let r := permission_of E (trace st) user in
  exists permission is_valid prints prints',
    Boussole._check_membership E h user st
    = (Ret (permission, is_valid), adds st [GET_permission user] prints)
    /\ Prow.check_membership E h user st
       = (Ret (permission, is_valid), adds st [GET_permission user] prints')
    /\ (is_valid = true
        <-> status_code r = 200
            /\ exists p, json r = Some p /\ p <> EmptyString /\ In p (lgtm_permissions h))
    /\ (forall p, permission = Some p
                  <-> status_code r = 200 /\ json r = Some p /\ p <> EmptyString)
    /\ (status_code r = 404 -> prints = [] /\ prints' <> []).
Proof.
  intros r.
  assert (Hin : forall p, existsb (String.eqb p) (lgtm_permissions h) = true
                          <-> In p (lgtm_permissions h)).
  { intros p. rewrite existsb_exists. split.
    - intros (x & Hx & He). apply String.eqb_eq in He. now subst.
    - intros Hp. exists p. split; [exact Hp | apply String.eqb_refl]. }
  destruct (boussole_membership_run E h user st) as (prints & Hb & Hb404).
  destruct (prow_membership_run E h user st) as (prints' & Hp & Hp404).
  fold r in Hb, Hp, Hb404, Hp404.
  exists (fst (membership_of h r)), (snd (membership_of h r)), prints, prints'.
  rewrite <- surjective_pairing.
  split; [exact Hb|]. split; [exact Hp|].
  split; [|split; [|auto]].
  - unfold membership_of.
    destruct (Z.eq_dec (status_code r) 200) as [Hs|Hs].
    + rewrite Hs. cbn [Z.eqb Pos.eqb]. destruct (json r) as [[|a p]|]; cbn [fst snd permission_in].
      * split; [discriminate | intros (_ & p & [= <-] & Hne & _); now elim Hne].
      * split.
        -- intros H. split; [reflexivity|]. exists (String a p).
           split; [reflexivity|]. split; [discriminate | now apply Hin].
        -- intros (_ & q & [= <-] & _ & Hq). now apply Hin.
      * split; [discriminate | intros (_ & p & Hp' & _); discriminate].
    + apply Z.eqb_neq in Hs. rewrite Hs. simpl. apply Z.eqb_neq in Hs.
      split; [discriminate | intros (H & _); contradiction].
  - intros q. unfold membership_of.
    destruct (Z.eq_dec (status_code r) 200) as [Hs|Hs].
    + rewrite Hs. cbn [Z.eqb Pos.eqb]. destruct (json r) as [[|a p]|]; cbn [fst snd permission_in].
      * split; [discriminate | intros (_ & [= <-] & Hne); now elim Hne].
      * split; [intros [= <-]; repeat split; discriminate
               | intros (_ & [= <-] & _); reflexivity].
      * split; [discriminate | intros (_ & Hq & _); discriminate].
    + apply Z.eqb_neq in Hs. rewrite Hs. simpl. apply Z.eqb_neq in Hs.
      split; [discriminate | intros (H & _); contradiction].
Qed.

(** ** The [lgtm] command *)

Lemma tally_agree E h : forall users d v s1 s2,
  trace s1 = trace s2 ->
  exists v' d' pb pp,
    tally_votes (Boussole._check_membership E h) users d v s1
    = (Ret (v', d'), adds s1 (map GET_permission users) pb)
    /\ tally_votes (Prow.check_membership E h) users d v s2
       = (Ret (v', d'), adds s2 (map GET_permission users) pp).
Proof.
  induction users as [|u users IH]; intros d v s1 s2 Ht.
  - exists v, d, [], []. simpl. unfold ret. now rewrite !adds_nil.
  - cbn [tally_votes]. unfold bind at 1 2.
    destruct (boussole_membership_run E h u s1) as (p1 & H1 & _).
    destruct (prow_membership_run E h u s2) as (p2 & H2 & _).
    rewrite H1, H2, Ht.
    destruct (membership_of h (permission_of E (trace s2) u)) as [p valid].
    destruct (IH (dict_set d u p) (if valid then v + 1 else v)
                (adds s1 [GET_permission u] p1) (adds s2 [GET_permission u] p2))
      as (v' & d' & pb & pp & Hb & Hp).
    { simpl. now rewrite Ht. }
    rewrite Hb, Hp, !adds_adds. now exists v', d', (p1 ++ pb), (p2 ++ pp).
Qed.

Lemma boussole_lgtm_unavailable E h send st :
  status_code (comments_of E (trace st) (pr_num h)) <> 200 ->
  Boussole.lgtm E h send st
  = (Exit 1,
     adds st [GET_comments (pr_num h)]
       [Stderr (COMMENTS_FETCH_ERROR (status_code (comments_of E (trace st) (pr_num h)))
                  (text (comments_of E (trace st) (pr_num h))) (pr_num h))]).
Proof.
  intros Hs. apply Z.eqb_neq in Hs.
  unfold Boussole.lgtm, bind at 1, api_get_comments. cbn beta iota. rewrite Hs.
  cbn [negb]. unfold bind, print_err, sys_exit.
  now rewrite print_adds, record_adds, adds_adds.
Qed.

Lemma prow_lgtm_unavailable E h send st :
  status_code (comments_of E (trace st) (pr_num h)) <> 200 ->
  Prow.lgtm E h send st
  = (Exit 1,
     adds st [GET_comments (pr_num h)]
       [Stderr (COMMENTS_FETCH_ERROR (status_code (comments_of E (trace st) (pr_num h)))
                  (text (comments_of E (trace st) (pr_num h))) (pr_num h))]).
Proof.
  intros Hs. apply Z.eqb_neq in Hs.
  unfold Prow.lgtm, bind at 1, api_get_comments. cbn beta iota. rewrite Hs.
  cbn [negb]. unfold bind, print_err, sys_exit.
  now rewrite print_adds, record_adds, adds_adds.
Qed.

Lemma boussole_lgtm_clean E h st send v users prints :
  status_code (comments_of E (trace st) (pr_num h)) = 200 ->
  find (self_vote h) (json (comments_of E (trace st) (pr_num h))) = None ->
  tally_votes (Boussole._check_membership E h)
    (keys (recorded_votes (json (comments_of E (trace st) (pr_num h))) []))
    (recorded_votes (json (comments_of E (trace st) (pr_num h))) []) 0
    (adds st [GET_comments (pr_num h)] [])
  = (Ret (v, users),
     adds st (GET_comments (pr_num h)
              :: map GET_permission
                   (keys (recorded_votes (json (comments_of E (trace st) (pr_num h))) [])))
       prints) ->
  Boussole.lgtm E h send st
  = if lgtm_threshold h <=? v then
      (Ret v,
       adds st (GET_comments (pr_num h)
                :: map GET_permission
                     (keys (recorded_votes (json (comments_of E (trace st) (pr_num h))) []))
                ++ [POST_review (pr_num h) (lgtm_review_event h)
                      (APPROVED_TEMPLATE (lgtm_threshold h) v
                         (users_table h "none" users))])
         (prints ++ [Stdout MSG_pr_approved]))
    else
      (Exit 0,
       adds st (GET_comments (pr_num h)
                :: map GET_permission
                     (keys (recorded_votes (json (comments_of E (trace st) (pr_num h))) []))
                ++ (if send
                    then [POST_comment (pr_num h)
                            (LGTM_BREAKDOWN_TEMPLATE v (lgtm_threshold h)
                               (users_table h "none" users))]
                    else []))
         (prints ++ [Stdout (NOT_ENOUGH_LGTM v (lgtm_threshold h))])).
Proof.
  intros Hs Hf Hrun.
  unfold Boussole.lgtm, bind at 1, api_get_comments.
  cbn beta iota. rewrite Hs. cbn [Z.eqb Pos.eqb negb]. unfold bind at 1.
  rewrite (scan_clean E h _ _ _ Hf), record_adds. unfold bind at 1.
  rewrite Hrun.
  destruct (lgtm_threshold h <=? v).
  - unfold bind, print_out, api_call, ret.
    rewrite print_adds, record_adds, !adds_adds. reflexivity.
  - unfold bind at 1, print_out. rewrite print_adds, adds_adds.
    destruct send.
    + unfold Boussole._post_lgtm_breakdown, post_lgtm_breakdown, post_comment, api_call,
        ret, sys_exit, bind.
      cbn beta iota. rewrite record_adds, !adds_adds. simpl. now rewrite !app_nil_r.
    + unfold bind, ret, sys_exit. simpl. now rewrite !app_nil_r.
Qed.

Lemma filter_app_nil {A} (f : A -> bool) (l1 l2 : list A) :
  filter f (l1 ++ l2) = [] <-> filter f l1 = [] /\ filter f l2 = [].
Proof.
  rewrite filter_app. split.
  - intros H. now apply app_eq_nil in H.
  - intros [-> ->]. reflexivity.
Qed.

(** The two [lgtm] in one statement: outcome, calls and what the calls
    say about the outcome. *)
Lemma lgtm_runs E h send st :
  exists o calls pb pp,
    Boussole.lgtm E h send st = (o, adds st calls pb)
    /\ Prow.lgtm E h send st = (o, adds st calls pp)
    /\ ((exists v, o = Ret v /\ lgtm_threshold h <= v
                   /\ filter is_review calls <> [] /\ filter is_comment calls = [])
        \/ (o = Exit 0 /\ filter is_review calls = []
            /\ (filter is_comment calls <> [] <-> send = true))
        \/ (o = Exit 1 /\ filter is_review calls = [])).
Proof.
  destruct (Z.eq_dec (status_code (comments_of E (trace st) (pr_num h))) 200) as [Hs|Hs].
  - destruct (find (self_vote h) (json (comments_of E (trace st) (pr_num h))))
      as [c0|] eqn:Hf.
    + rewrite (boussole_lgtm_self E h st c0 send Hs Hf),
        (prow_lgtm_self E h st c0 send Hs Hf).
      eexists _, _, _, _. split; [reflexivity|]. split; [reflexivity|].
      right; right. split; reflexivity.
    + destruct (tally_agree E h
                  (keys (recorded_votes (json (comments_of E (trace st) (pr_num h))) []))
                  (recorded_votes (json (comments_of E (trace st) (pr_num h))) []) 0
                  (adds st [GET_comments (pr_num h)] [])
                  (adds st [GET_comments (pr_num h)] []) eq_refl)
        as (v & users & pb & pp & Hb & Hp).
      rewrite adds_adds in Hb, Hp.
      rewrite (boussole_lgtm_clean E h st send v users _ Hs Hf Hb).
      destruct (prow_lgtm_clean E h st send Hs Hf)
        as (v' & users' & pp' & Hp' & _ & _ & Hrun).
      rewrite Hp in Hp'. injection Hp' as <- <- Hout. apply app_inv_head in Hout.
      subst pp'. rewrite Hrun.
      destruct (lgtm_threshold h <=? v) eqn:Hv.
      * eexists _, _, _, _. split; [reflexivity|]. split; [reflexivity|].
        left. exists v. split; [reflexivity|]. split; [now apply Z.leb_le|].
        simpl. rewrite !filter_app, !filter_lookups by reflexivity. simpl.
        split; [discriminate | reflexivity].
      * eexists _, _, _, _. split; [reflexivity|]. split; [reflexivity|].
        right; left. split; [reflexivity|].
        simpl. rewrite !filter_app, !filter_lookups by reflexivity.
        destruct send; simpl; split; try reflexivity;
          split; intros H; try discriminate; try reflexivity; now elim H.
  - rewrite (boussole_lgtm_unavailable E h send st Hs),
      (prow_lgtm_unavailable E h send st Hs).
    eexists _, _, _, _. split; [reflexivity|]. split; [reflexivity|].
    right; right. split; reflexivity.
Qed.

(** X13: [lgtm] of boussole and [lgtm] of prow do the same: on every state
    and for both values of [send_comment] they end the same way and make
    the same calls in the same order; only what they print can differ. *)
Theorem X13_lgtm_of_both_scripts_agree (E : Env) (h : Handler) (send : bool) (st : St) :
  fst (Boussole.lgtm E h send st) = fst (Prow.lgtm E h send st)
  /\ trace (snd (Boussole.lgtm E h send st)) = trace (snd (Prow.lgtm E h send st))
  /\ cached_pr_status (snd (Boussole.lgtm E h send st))
     = cached_pr_status (snd (Prow.lgtm E h send st)).
Proof.
  destruct (lgtm_runs E h send st) as (o & calls & pb & pp & Hb & Hp & _).
  rewrite Hb, Hp. repeat split.
Qed.

(** X14: how [lgtm] of boussole ends.  It returns a count only when
    the count has reached the threshold, and these are exactly the runs in
    which the approving review is posted; the process is otherwise ended
    with code 0 (too few valid votes) or 1; with code 0 a comment, the
    breakdown, is posted exactly when [send_comment] is set; no review is
    posted in a run that does not return. *)
Theorem X14_lgtm_outcomes (E : Env) (h : Handler) (send : bool) (st : St) :
  exists o calls prints,
    Boussole.lgtm E h send st = (o, adds st calls prints)
    /\ ((exists v, o = Ret v) <-> filter is_review calls <> [])
    /\ (forall v, o = Ret v -> lgtm_threshold h <= v /\ filter is_comment calls = [])
    /\ (o = Exit 0 -> (filter is_comment calls <> [] <-> send = true))
    /\ ((exists v, o = Ret v) \/ o = Exit 0 \/ o = Exit 1).
Proof.
  destruct (lgtm_runs E h send st) as (o & calls & pb & pp & Hb & _ & Hcase).
  exists o, calls, pb. split; [exact Hb|].
  destruct Hcase as [(v & -> & Hv & Hr & Hc) | [(-> & Hr & Hc) | (-> & Hr)]].
  - split; [split; [intros _; exact Hr | intros _; now exists v]|].
    split; [intros v' [= <-]; auto|]. split; [discriminate|]. left. now exists v.
  - split; [split; [intros (v & Hv); discriminate | intros H; now elim H]|].
    split; [discriminate|]. split; [intros _; exact Hc | auto].
  - split; [split; [intros (v & Hv); discriminate | intros H; now elim H]|].
    split; [discriminate|]. split; [discriminate | auto].
Qed.

(** ** The merge command *)

(** X15: when the comments cannot be listed the tally is over at once: the
    run is the listing call and the diagnostic on the standard error, the
    process ends with code 1, and nothing is posted on the pull request,
    be it from [_fetch_and_validate_lgtm_votes] or from [lgtm] of either
    script. *)
Theorem X15_listing_failure_is_silent (E : Env) (h : Handler) (send : bool) (st : St) :
  let r := comments_of E (trace st) (pr_num h) in
  status_code r <> 200 ->
  let st' := adds st [GET_comments (pr_num h)]
               [Stderr (COMMENTS_FETCH_ERROR (status_code r) (text r) (pr_num h))] in
  Boussole._fetch_and_validate_lgtm_votes E h st = (Exit 1, st')
  /\ Boussole.lgtm E h send st = (Exit 1, st')
  /\ Prow.lgtm E h send st = (Exit 1, st').
Proof.
  intros r Hs st'. split; [|split].
  - now apply fetch_unavailable.
  - now apply boussole_lgtm_unavailable.
  - now apply prow_lgtm_unavailable.
Qed.

Lemma X15_listing_failure_is_silent_witness :
  Boussole.lgtm (with_comments_status Scenario.one_vote 502) Scenario.handler true initial
  = (Exit 1, adds initial [GET_comments "12"]
               [Stderr (COMMENTS_FETCH_ERROR 502 "" "12")]).
Proof.
  apply (X15_listing_failure_is_silent (with_comments_status Scenario.one_vote 502)
           Scenario.handler true initial).
  simpl. lia.
Defined.

(** X16: the merge command is refused before any vote is looked at when
    the membership check of the invoker does not report a valid vote (the
    lookup failed, gave no permission, or one that is not allowed): both
    scripts post the message about the missing permission, with the
    permission found if any, and end the process with code 1 after these
    two calls. *)
Theorem X16_merge_needs_a_permitted_invoker (E : Env) (h : Handler) (st : St) :
  let found := membership_of h (permission_of E (trace st) (comment_sender h)) in
  let msg := INSUFFICIENT_PERMISSIONS (comment_sender h) (fst found) (lgtm_permissions h) in
  snd found = false ->
  exists pb pp,
    Boussole.merge_pr E h st
    = (Exit 1, adds st [GET_permission (comment_sender h); POST_comment (pr_num h) msg]
                 (pb ++ [Stderr msg]))
    /\ Prow.merge_pr E h st
       = (Exit 1, adds st [GET_permission (comment_sender h); POST_comment (pr_num h) msg]
                    (pp ++ [Stderr msg])).
Proof.
  intros found msg Hv.
  destruct (boussole_membership_run E h (comment_sender h) st) as (pb & Hb & _).
  destruct (prow_membership_run E h (comment_sender h) st) as (pp & Hp & _).
  fold found in Hb, Hp. exists pb, pp. split.
  - unfold Boussole.merge_pr, bind at 1. rewrite Hb.
    destruct found as [p valid]. simpl in Hv. subst valid. cbn [negb fst].
    unfold bind. rewrite _post_comment_run. unfold print_err, sys_exit.
    rewrite print_adds, !adds_adds. reflexivity.
  - unfold Prow.merge_pr, bind at 1. rewrite Hp.
    destruct found as [p valid]. simpl in Hv. subst valid. cbn [negb fst].
    unfold bind, post_comment, api_call, print_err, sys_exit.
    rewrite print_adds, record_adds, !adds_adds. reflexivity.
Qed.

Lemma X16_merge_needs_a_permitted_invoker_witness :
  exists pb,
    Boussole.merge_pr Scenario.one_vote (invoked_by "mallory") initial
    = (Exit 1,
       adds initial
         [GET_permission "mallory";
          POST_comment "12" (INSUFFICIENT_PERMISSIONS "mallory" None ["admin"; "write"])]
         (pb ++ [Stderr (INSUFFICIENT_PERMISSIONS "mallory" None ["admin"; "write"])])).
Proof.
  destruct (X16_merge_needs_a_permitted_invoker Scenario.one_vote
              (invoked_by "mallory") initial eq_refl) as (pb & pp & Hb & _).
  now exists pb.
Defined.

Lemma status_without_merge E n :
  calls_within (fun _ => True) (fun c => negb (is_merge_call c))
    (Boussole._get_pr_status E n).
Proof.
  intros st _. split; [exact I|].
  unfold Boussole._get_pr_status, bind, get_pr_status_cache, api_get_pull, set_pr_status, ret.
  destruct (cached_pr_status st) as [r|]; [destruct (response_ok r)|]; simpl;
    first [ exists []; now rewrite app_nil_r | exists [GET_pull n]; now split ].
Qed.

Lemma lookups_no_merge (users : list string) :
  filter is_merge_call (map GET_permission users) = [].
Proof. induction users as [|u us IH]; simpl; auto. Qed.

(** X17: [merge_pr] of boussole makes at most one merge call.  When it makes
    one, the invoker holds an allowed permission, everything done before is
    reading (the invoker's permission, the comment listing, one permission
    lookup for each voting author, nothing posted), the call carries a count
    of valid votes at or above the threshold, and no second merge call
    follows whatever the cherry-picks do.  A run without a merge call does
    not return true. *)
Theorem X17_at_most_one_merge_call (E : Env) (h : Handler) (st : St) :
  let invoker := GET_permission (comment_sender h) in
  let r := comments_of E (trace st ++ [invoker]) (pr_num h) in
  exists o st' ext,
    Boussole.merge_pr E h st = (o, st')
    /\ trace st' = trace st ++ ext
    /\ ((filter is_merge_call ext = [] /\ o <> Ret true)
        \/ exists v after,
             ext = invoker :: GET_comments (pr_num h)
                   :: map GET_permission (keys (recorded_votes (json r) []))
                   ++ PUT_merge (pr_num h) (merge_method h) (MSG_merge_title (pr_num h))
                        (MSG_merge_message (pr_num h) (pr_sender h) v) :: after
             /\ filter is_merge_call after = []
             /\ lgtm_threshold h <= v
             /\ snd (membership_of h (permission_of E (trace st) (comment_sender h)))
                = true).
Proof.
  intros invoker r.
  destruct (boussole_membership_run E h (comment_sender h) st) as (pb & Hb & _).
  destruct (membership_of h (permission_of E (trace st) (comment_sender h)))
    as [p valid] eqn:Hfound.
  destruct valid.
  2: { rewrite (boussole_merge_denied _ _ _ _ _ Hb). do 3 eexists.
       split; [reflexivity|]. rewrite !trace_adds, <- app_assoc.
       split; [reflexivity|]. left. split; [reflexivity|discriminate]. }
  set (s1 := adds st [GET_permission (comment_sender h)] pb) in *.
  assert (Hr : comments_of E (trace s1) (pr_num h) = r) by reflexivity.
  destruct (Z.eq_dec (status_code r) 200) as [Hs|Hs].
  2: { unfold Boussole.merge_pr, bind at 1. rewrite Hb. cbn [negb].
       unfold bind at 1. rewrite (fetch_unavailable E h s1 Hs).
       do 3 eexists. split; [reflexivity|]. subst s1. rewrite !trace_adds, <- app_assoc.
       split; [reflexivity|]. left. split; [reflexivity|discriminate]. }
  destruct (find (self_vote h) (json r)) as [c0|] eqn:Hf.
  { unfold Boussole.merge_pr, bind at 1. rewrite Hb. cbn [negb].
    unfold bind at 1. rewrite (fetch_self E h s1 c0 Hs Hf).
    do 3 eexists. split; [reflexivity|]. subst s1. rewrite !trace_adds, <- app_assoc.
    split; [reflexivity|]. left. split; [reflexivity|discriminate]. }
  destruct (fetch_clean E h s1 Hs Hf) as (v & users & prints & Hrun & Hk & Hv).
  fold r in Hrun, Hk.
  destruct (Z.ltb_spec v (lgtm_threshold h)) as [Hlt|Hge].
  { rewrite (boussole_merge_below_threshold _ _ _ _ _ _ _ _ Hb Hrun Hlt).
    do 3 eexists. split; [reflexivity|]. subst s1. rewrite !trace_adds, <- !app_assoc.
    split; [reflexivity|]. left. split; [|discriminate].
    simpl. rewrite filter_app. simpl. rewrite app_nil_r. apply lookups_no_merge. }
  apply Z.leb_le in Hge.
  unfold Boussole.merge_pr, bind at 1. rewrite Hb. cbn [negb].
  unfold bind at 1. rewrite Hrun. cbn beta iota. rewrite Hge.
  unfold bind at 1, api_call at 1. cbn beta iota.
  match goal with
  | |- context [(if ?b then ?X else ?Y) ?s] =>
      assert (HK : calls_within (fun _ => True) (fun c => negb (is_merge_call c))
                     (if b then X else Y));
      [| destruct (HK s I) as [_ (after & Hafter & Hquiet)];
         exists (fst ((if b then X else Y) s)), (snd ((if b then X else Y) s)) ]
  end.
  { assert (HI : on_cache (fun _ : St => True)) by (intros ? ? ? ?; exact I).
    assert (HP : forall c, is_pull_fetch c = false -> is_merge_call c = false ->
                           negb (is_merge_call c) = true)
      by (intros c _ Hc; now rewrite Hc).
    unfold Boussole._post_comment, print_err.
    repeat first
      [ apply cw_ret | apply cw_exit | apply cw_print; assumption
      | apply cw_cherry_pick_all; first [assumption | apply status_without_merge]
      | apply cw_get_comments; assumption
      | apply cw_post_comment; assumption
      | apply cw_bind; [|intros ?]
      | match goal with
        | |- calls_within _ _ (if ?b then _ else _) => destruct b
        end ]. }
  eexists. split; [apply surjective_pairing|].
  rewrite Hafter, record_adds, !trace_adds. subst s1. rewrite trace_adds, <- !app_assoc.
  split; [simpl; reflexivity|]. right. exists v, after.
  split; [reflexivity|]. split; [now apply forallb_not_filter|]. split; [now apply Z.leb_le|].
  reflexivity.
Qed.

(** X18: a merge call the API does not answer with 200 is reported on the
    pull request with the status and the text of the answer, and [merge_pr]
    of boussole returns false right after: the comments are not listed
    again, no cherry-pick is started and no summary is posted. *)
Theorem X18_rejected_merge_is_reported (E : Env) (h : Handler) (st s1 s2 : St)
    (p : option string) (v : Z) (users : Dict) :
  Boussole._check_membership E h (comment_sender h) st = (Ret (p, true), s1) ->
  Boussole._fetch_and_validate_lgtm_votes E h s1 = (Ret (v, users), s2) ->
  lgtm_threshold h <= v ->
  let call := PUT_merge (pr_num h) (merge_method h) (MSG_merge_title (pr_num h))
                (MSG_merge_message (pr_num h) (pr_sender h) v) in
  let response := plain_of E (trace s2) call in
  status_code response <> 200 ->
  Boussole.merge_pr E h st
  = (Ret false,
     adds s2 [call; POST_comment (pr_num h)
                      (MERGE_FAILED (pr_num h) (status_code response) (text response))]
       []).
Proof.
  intros Hc Hf Hv call response Hs.
  apply Z.leb_le in Hv. apply Z.eqb_neq in Hs.
  unfold Boussole.merge_pr, bind at 1. rewrite Hc. cbn [negb].
  unfold bind at 1. rewrite Hf. cbn beta iota. rewrite Hv.
  unfold bind at 1, api_call at 1. cbn beta iota.
  fold call. fold response. rewrite Hs, andb_false_r.
  unfold bind. rewrite _post_comment_run. unfold ret.
  now rewrite record_adds, adds_adds.
Qed.

Lemma X18_rejected_merge_is_reported_witness :
  fst (Boussole.merge_pr (refusing Scenario.one_vote is_merge_call 405)
         Scenario.handler initial) = Ret false.
Proof.
  erewrite (X18_rejected_merge_is_reported (refusing Scenario.one_vote is_merge_call 405)
              Scenario.handler initial);
    [reflexivity | reflexivity | reflexivity | simpl; lia | simpl; lia].
Defined.

(** X19: when the merge call succeeded but the comments cannot be listed
    afterwards, [merge_pr] of boussole ends the process with code 1: the
    pull request is merged, and nothing at all has been posted on it, neither
    a summary nor a cherry-pick report. *)
Theorem X19_merged_without_a_word (E : Env) (h : Handler) (st s1 s2 : St)
    (p : option string) (v : Z) (users : Dict) :
  Boussole._check_membership E h (comment_sender h) st = (Ret (p, true), s1) ->
  Boussole._fetch_and_validate_lgtm_votes E h s1 = (Ret (v, users), s2) ->
  lgtm_threshold h <= v ->
  let call := PUT_merge (pr_num h) (merge_method h) (MSG_merge_title (pr_num h))
                (MSG_merge_message (pr_num h) (pr_sender h) v) in
  status_code (plain_of E (trace s2) call) = 200 ->
  let listing := comments_of E (trace s2 ++ [call]) (pr_num h) in
  status_code listing <> 200 ->
  Boussole.merge_pr E h st
  = (Exit 1,
     adds s2 [call; GET_comments (pr_num h)]
       [Stderr (MSG_comments_unavailable (pr_num h) (text listing))]).
Proof.
  intros Hc Hf Hv call Hs listing Hl.
  apply Z.leb_le in Hv. apply Z.eqb_neq in Hl.
  unfold Boussole.merge_pr, bind at 1. rewrite Hc. cbn [negb].
  unfold bind at 1. rewrite Hf. cbn beta iota. rewrite Hv.
  unfold bind at 1, api_call at 1. cbn beta iota.
  fold call. unfold response_ok. rewrite Hs. cbn [Z.leb Z.ltb Z.eqb Pos.eqb Z.compare
    Pos.compare Pos.compare_cont andb negb].
  unfold bind at 1, api_get_comments at 1. cbn beta iota.
  change (trace (record call s2)) with (trace s2 ++ [call]). fold listing.
  rewrite Hl. cbn [negb].
  unfold bind, print_err, sys_exit.
  now rewrite !record_adds, print_adds, !adds_adds.
Qed.

Lemma X19_merged_without_a_word_witness :
  fst (Boussole.merge_pr (listing_lost Scenario.one_vote) Scenario.handler initial)
  = Exit 1.
Proof.
  erewrite (X19_merged_without_a_word (listing_lost Scenario.one_vote)
              Scenario.handler initial);
    [reflexivity | reflexivity | reflexivity | simpl; lia | reflexivity | simpl; lia].
Defined.

(** X20: with no cherry-pick requested among the comments listed after the
    merge, [merge_pr] of boussole posts the summary and returns true; the
    summary carries the merge method, the invoker, the count and the users
    of the tally made before the merge (the votes are not counted again). *)
Theorem X20_merge_summary (E : Env) (h : Handler) (st s1 s2 : St)
    (p : option string) (v : Z) (users : Dict) :
  Boussole._check_membership E h (comment_sender h) st = (Ret (p, true), s1) ->
  Boussole._fetch_and_validate_lgtm_votes E h s1 = (Ret (v, users), s2) ->
  lgtm_threshold h <= v ->
  let call := PUT_merge (pr_num h) (merge_method h) (MSG_merge_title (pr_num h))
                (MSG_merge_message (pr_num h) (pr_sender h) v) in
  status_code (plain_of E (trace s2) call) = 200 ->
  let listing := comments_of E (trace s2 ++ [call]) (pr_num h) in
  status_code listing = 200 ->
  set_order E (Boussole.requested_branches (json listing)) = [] ->
  Boussole.merge_pr E h st
  = (Ret true,
     adds s2 [call; GET_comments (pr_num h);
              POST_comment (pr_num h)
                (SUCCESS_MERGED (merge_method h) (comment_sender h) v (lgtm_threshold h)
                   (users_table h "unknown" users))]
       []).
Proof.
  intros Hc Hf Hv call Hs listing Hl Hb.
  apply Z.leb_le in Hv.
  unfold Boussole.merge_pr, bind at 1. rewrite Hc. cbn [negb].
  unfold bind at 1. rewrite Hf. cbn beta iota. rewrite Hv.
  unfold bind at 1, api_call at 1. cbn beta iota.
  fold call. unfold response_ok. rewrite Hs. cbn [Z.leb Z.ltb Z.eqb Pos.eqb Z.compare
    Pos.compare Pos.compare_cont andb negb].
  unfold bind at 1, api_get_comments at 1. cbn beta iota.
  change (trace (record call s2)) with (trace s2 ++ [call]). fold listing.
  rewrite Hl. cbn [negb Z.eqb Pos.eqb]. rewrite Hb.
  cbn [Boussole.cherry_pick_all]. unfold bind, ret. cbn [negb].
  rewrite _post_comment_run.
  now rewrite !record_adds, !adds_adds.
Qed.

Lemma X20_merge_summary_witness :
  fst (Boussole.merge_pr Scenario.one_vote Scenario.handler initial) = Ret true.
Proof.
  erewrite (X20_merge_summary Scenario.one_vote Scenario.handler initial);
    [reflexivity | reflexivity | reflexivity | simpl; lia | reflexivity | reflexivity
    | reflexivity].
Defined.

(** ** The count and the table *)

Lemma valid_rows (h : Handler) (default : string) (d : Dict) :
  Z.of_nat (length (filter row_valid (users_table h default d))) = valid_entries h d.
Proof.
  unfold valid_entries, users_table. f_equal.
  induction d as [|item d IH]; simpl; [reflexivity|].
  destruct (permission_in h (snd item)); simpl; now rewrite IH.
Qed.

Lemma valid_entries_cons (h : Handler) (item : string * option string) (d : Dict) :
  valid_entries h (item :: d)
  = (if permission_in h (snd item) then 1 else 0) + valid_entries h d.
Proof.
  unfold valid_entries. simpl. destruct (permission_in h (snd item)); [|lia].
  change (length (item :: ?l)) with (S (length l)). lia.
Qed.

Lemma in_keys (d : Dict) (k : string) (v : option string) : In (k, v) d -> In k (keys d).
Proof. intros H. apply in_map_iff. now exists (k, v). Qed.

(** Rating a user who was not rated yet adds the vote to the valid entries
    exactly when the permission is an allowed one. *)
Lemma valid_entries_set (h : Handler) (u : string) (p : option string) : forall d,
  NoDup (keys d) -> In (u, None) d ->
  valid_entries h (dict_set d u p)
  = valid_entries h d + (if permission_in h p then 1 else 0).
Proof.
  induction d as [|[k w] d IH]; intros Hn Hin; [destruct Hin|].
  simpl in Hn. inversion Hn as [|? ? Hk Hn']; subst.
  cbn [dict_set]. destruct (String.eqb_spec k u) as [->|Hne].
  - destruct Hin as [Heq|Hin]; [|exfalso; apply Hk; now apply (in_keys d u None)].
    injection Heq as ->. rewrite !valid_entries_cons. cbn [snd permission_in]. lia.
  - destruct Hin as [Heq|Hin]; [congruence|].
    rewrite !valid_entries_cons, (IH Hn' Hin). cbn [snd]. lia.
Qed.

Lemma dict_set_keeps (u k : string) (p q : option string) : forall d,
  k <> u -> In (k, q) d -> In (k, q) (dict_set d u p).
Proof.
  induction d as [|[k' w] d IH]; intros Hne Hin; [destruct Hin|].
  cbn [dict_set]. destruct (String.eqb_spec k' u) as [->|Hne'].
  - destruct Hin as [Heq|Hin]; [congruence | now right].
  - destruct Hin as [Heq|Hin]; [now left | right; auto].
Qed.

(** The tally adds to the count what it adds to the valid entries. *)
Lemma tally_counts E h check :
  membership_like E h check ->
  forall users d v st v' d' st',
    NoDup users -> NoDup (keys d) -> (forall u, In u users -> In (u, None) d) ->
    tally_votes check users d v st = (Ret (v', d'), st') ->
    valid_entries h d' - valid_entries h d = v' - v.
Proof.
  intros Hc. induction users as [|u users IH]; intros d v st v' d' st' Hn Hd Hin Hrun.
  - cbn [tally_votes] in Hrun. unfold ret in Hrun. injection Hrun as <- <- _. lia.
  - cbn [tally_votes] in Hrun. unfold bind at 1 in Hrun.
    destruct (Hc u st) as (p & prints & Hu). rewrite Hu in Hrun. cbn beta iota in Hrun.
    inversion Hn as [|? ? Hu' Hn']; subst.
    apply IH in Hrun; [| assumption | now apply NoDup_keys_dict_set |].
    + rewrite (valid_entries_set h u p d Hd (Hin u (or_introl eq_refl))) in Hrun.
      destruct (permission_in h p); lia.
    + intros k Hk. apply dict_set_keeps; [intros ->; contradiction|].
      apply Hin. now right.
Qed.

Lemma unrated_entries (h : Handler) (d : Dict) :
  unrated d -> valid_entries h d = 0 /\ (forall u, In u (keys d) -> In (u, None) d).
Proof.
  intros Hu. split.
  - induction d as [|item d IH]; [reflexivity|].
    rewrite valid_entries_cons, IH; [|intros kv Hkv; apply Hu; now right].
    rewrite (Hu item (or_introl eq_refl)). reflexivity.
  - intros u Hin. apply in_map_iff in Hin. destruct Hin as ([k w] & <- & Hin).
    pose proof (Hu _ Hin) as Hw. simpl in Hw. now subst w.
Qed.

(** X21: the count of valid votes [_fetch_and_validate_lgtm_votes] returns
    is the number of rows marked valid in the users table built from the
    dictionary it returns with it, whatever text stands for a missing
    permission: the count and the table a comment shows cannot disagree. *)
Theorem X21_count_matches_table (E : Env) (h : Handler) (st st' : St)
    (v : Z) (users : Dict) (default : string) :
  Boussole._fetch_and_validate_lgtm_votes E h st = (Ret (v, users), st') ->
  v = Z.of_nat (length (filter row_valid (users_table h default users))).
Proof.
  intros Hrun. rewrite valid_rows.
  set (r := comments_of E (trace st) (pr_num h)).
  destruct (Z.eq_dec (status_code r) 200) as [Hs|Hs];
    [|rewrite (fetch_unavailable E h st Hs) in Hrun; discriminate].
  destruct (find (self_vote h) (json r)) as [c0|] eqn:Hf;
    [rewrite (fetch_self E h st c0 Hs Hf) in Hrun; discriminate|].
  rewrite (fetch_start E h st Hs) in Hrun. unfold bind at 1 in Hrun.
  rewrite (scan_clean E h _ _ _ Hf) in Hrun. cbn beta iota in Hrun.
  destruct (recorded_votes_spec (json r) [] (NoDup_nil _)) as (Hn & Hu & _);
    [intros kv []|].
  destruct (unrated_entries h _ Hu) as (H0 & Hin).
  apply (tally_counts E h _ (_check_membership_like E h)) in Hrun;
    [fold r in Hrun; lia | | assumption | assumption].
  exact Hn.
Qed.

Lemma X21_count_matches_table_witness :
  1 = Z.of_nat (length (filter row_valid
                          (users_table Scenario.handler "none" [("bob", Some "write")]))).
Proof.
  apply (X21_count_matches_table Scenario.one_vote Scenario.handler initial
           (adds initial [GET_comments "12"; GET_permission "bob"] [])).
  reflexivity.
Defined.

(** ** The cherry-pick job *)

Lemma replay_created E h b total : forall commits i s0 st,
  all_created E h b total i (trace st) commits ->
  Boussole.replay E h b total i commits s0 st
  = (Ret (true, sha_produced E h b total i (trace st) s0 commits),
     adds st (replay_calls h b total i commits) []).
Proof.
  induction commits as [|c commits IH]; intros i s0 st Hok.
  - simpl. unfold ret. now rewrite adds_nil.
  - simpl in Hok. destruct Hok as [H201 Hok].
    cbn [Boussole.replay]. unfold bind at 1, api_post_merges at 1. cbn beta iota.
    rewrite H201. cbn [Z.eqb Pos.eqb negb].
    fold (replay_call h b total i c).
    rewrite (IH (i + 1) _ (record (replay_call h b total i c) st) Hok).
    rewrite record_adds, adds_adds. reflexivity.
Qed.

Lemma replay_error E h b total c post : forall pre i s0 st,
  all_created E h b total i (trace st) pre ->
  let response := merges_of E (trace st ++ replay_calls h b total i pre) b (sha c) in
  status_code response <> 409 -> status_code response <> 201 ->
  Boussole.replay E h b total i (pre ++ c :: post) s0 st =
  (Ret (false, sha_produced E h b total i (trace st) s0 pre),
   adds st (replay_calls h b total i (pre ++ [c])
            ++ [POST_comment (pr_num h)
                  (CHERRY_PICK_ERROR (pr_num h) b (StatusCode (status_code response))
                     (text response))]) []).
Proof.
  induction pre as [|p pre IH]; intros i s0 st Hok response H409 H201.
  - subst response. simpl in *. rewrite app_nil_r in *.
    apply Z.eqb_neq in H409, H201.
    unfold bind at 1, api_post_merges at 1. cbn beta iota. rewrite H409, H201.
    cbn [negb]. unfold bind. rewrite _post_comment_run. unfold ret.
    now rewrite record_adds, adds_adds.
  - simpl in Hok. destruct Hok as [Hp Hok].
    cbn [app Boussole.replay]. unfold bind at 1, api_post_merges at 1. cbn beta iota.
    rewrite Hp. cbn [Z.eqb Pos.eqb negb].
    fold (replay_call h b total i p).
    rewrite (IH (i + 1) _ (record (replay_call h b total i p) st) Hok).
    + rewrite record_adds, adds_adds. subst response. simpl trace.
      rewrite <- !app_assoc. reflexivity.
    + simpl trace. rewrite <- app_assoc. exact H409.
    + simpl trace. rewrite <- app_assoc. exact H201.
Qed.

(** X22: when the API creates every commit of the listing, the job makes
    the replay calls of all the commits in the order of the listing, then
    posts the success report with the invoker and the sha the API produced
    for the last commit, and [_perform_cherry_pick] returns true. *)
Theorem X22_cherry_pick_success (E : Env) (h : Handler) (b : string) (st st2 : St)
    (s0 : string) :
  let commits := fetched_commits E h st in
  let total := Z.of_nat (length commits) in
  commits <> [] ->
  Boussole.resolve_branch E h b (adds st [GET_commits (pr_num h)] [])
  = (Ret (Some s0), st2) ->
  all_created E h b total 1 (trace st2) commits ->
  let head := sha_produced E h b total 1 (trace st2) s0 commits in
  let st' := adds st2 (replay_calls h b total 1 commits
                       ++ [POST_comment (pr_num h)
                             (CHERRY_PICK_SUCCESS (pr_num h) b (comment_sender h) head)])
               [] in
  Boussole.cherry_pick_job E h b st = (Ret (true, Some head), st')
  /\ Boussole._perform_cherry_pick E h b st = (Ret true, st').
Proof.
  intros commits total Hc Hres Hok head st'.
  assert (Hjob : Boussole.cherry_pick_job E h b st = (Ret (true, Some head), st')).
  { rewrite job_with_commits by exact Hc. fold commits. fold total.
    unfold bind at 1. rewrite Hres. unfold bind at 1.
    rewrite (replay_created E h b total commits 1 s0 st2 Hok).
    rewrite finish_job_run, adds_adds. reflexivity. }
  split; [exact Hjob | exact (_perform_cherry_pick_run _ _ _ _ _ _ _ Hjob)].
Qed.

Lemma X22_cherry_pick_success_witness :
  Boussole._perform_cherry_pick Scenario.new_branch Scenario.handler "release-1.2" initial
  = (Ret true,
     caching
       (adds initial
          [GET_commits "12"; GET_ref "release-1.2"; GET_pull "12"; GET_ref "main";
           POST_ref "release-1.2" "abc123";
           replay_call Scenario.handler "release-1.2" 2 1 Scenario.c1;
           replay_call Scenario.handler "release-1.2" 2 2 Scenario.c2;
           POST_comment "12" (CHERRY_PICK_SUCCESS "12" "release-1.2" "carol" "new-c2")]
          [])
       Scenario.open_pull).
Proof.
  apply (X22_cherry_pick_success Scenario.new_branch Scenario.handler "release-1.2" initial
           (caching
              (adds initial
                 [GET_commits "12"; GET_ref "release-1.2"; GET_pull "12"; GET_ref "main";
                  POST_ref "release-1.2" "abc123"] []) Scenario.open_pull)
           "abc123").
  - discriminate.
  - reflexivity.
  - simpl. auto.
Defined.

(** X23: a replay answered with a status other than 201 and 409, after the
    commits before it were created, ends the job: the error report carries
    the status and the text of that answer, no later commit is replayed,
    no success report is posted and [_perform_cherry_pick] returns false. *)
Theorem X23_replay_error_stops_the_job (E : Env) (h : Handler) (b : string)
    (st st2 : St) (s0 : string) (pre post : list Commit) (c : Commit) :
  fetched_commits E h st = pre ++ c :: post ->
  let total := Z.of_nat (length (pre ++ c :: post)) in
  Boussole.resolve_branch E h b (adds st [GET_commits (pr_num h)] [])
  = (Ret (Some s0), st2) ->
  all_created E h b total 1 (trace st2) pre ->
  let response := merges_of E (trace st2 ++ replay_calls h b total 1 pre) b (sha c) in
  status_code response <> 409 -> status_code response <> 201 ->
  let st' :=
    adds st2
      (replay_calls h b total 1 (pre ++ [c])
       ++ [POST_comment (pr_num h)
             (CHERRY_PICK_ERROR (pr_num h) b (StatusCode (status_code response))
                (text response))]) [] in
  Boussole.cherry_pick_job E h b st
  = (Ret (false, Some (sha_produced E h b total 1 (trace st2) s0 pre)), st')
  /\ Boussole._perform_cherry_pick E h b st = (Ret false, st').
Proof.
  intros Hc total Hres Hok response H409 H201 st'.
  assert (Hjob : Boussole.cherry_pick_job E h b st
                 = (Ret (false, Some (sha_produced E h b total 1 (trace st2) s0 pre)),
                    st')).
  { rewrite job_with_commits by (rewrite Hc; now destruct pre).
    rewrite Hc. fold total. unfold bind at 1. rewrite Hres. unfold bind at 1.
    rewrite (replay_error E h b total c post pre 1 s0 st2 Hok H409 H201).
    rewrite finish_job_run, adds_adds, app_nil_r. reflexivity. }
  split; [exact Hjob | exact (_perform_cherry_pick_run _ _ _ _ _ _ _ Hjob)].
Qed.

Lemma X23_replay_error_stops_the_job_witness :
  Boussole._perform_cherry_pick
    (replays_answered Scenario.conflict_at_second 500 "boom") Scenario.handler
    "release-1.2" initial
  = (Ret false,
     adds initial
       [GET_commits "12"; GET_ref "release-1.2";
        replay_call Scenario.handler "release-1.2" 3 1 Scenario.c1;
        POST_comment "12"
          (CHERRY_PICK_ERROR "12" "release-1.2" (StatusCode 500) "boom")] []).
Proof.
  apply (X23_replay_error_stops_the_job
           (replays_answered Scenario.conflict_at_second 500 "boom") Scenario.handler
           "release-1.2" initial
           (adds initial [GET_commits "12"; GET_ref "release-1.2"] [])
           "head-of-release-1.2" [] [Scenario.c2; Scenario.c3] Scenario.c1).
  - reflexivity.
  - reflexivity.
  - exact I.
  - simpl. lia.
  - simpl. lia.
Defined.

(** X24: a job for a branch that does not exist yet fails without any
    replay when the branch cannot be made: when the base branch of the pull
    request has no sha the report says so with status text 404 and no branch
    is created; when the creation is not answered 201 the report carries the
    status text 422, whatever the status of the answer was.  Either way
    [_perform_cherry_pick] returns false right after the report. *)
Theorem X24_branch_cannot_be_made (E : Env) (h : Handler) (b : string) (st st2 : St)
    (pr_status : Resp PullInfo) :
  fetched_commits E h st <> [] ->
  let st1 := adds st [GET_commits (pr_num h)] [] in
  Boussole.truthy (branch_sha (ref_of E (trace st1) b)) = None ->
  Boussole._get_pr_status E (pr_num h) (adds st1 [GET_ref b] []) = (Ret pr_status, st2) ->
  status_code pr_status = 200 ->
  let base := base_ref (json pr_status) in
  let found := Boussole.truthy (branch_sha (ref_of E (trace st2) base)) in
  (found = None ->
   Boussole._perform_cherry_pick E h b st
   = (Ret false,
      adds st2 [GET_ref base;
                POST_comment (pr_num h)
                  (CHERRY_PICK_ERROR (pr_num h) b (StatusText "404")
                     ("Could not find base branch: " ++ base)%string)] []))
  /\ (forall base_sha,
        found = Some base_sha ->
        status_code (plain_of E (trace st2 ++ [GET_ref base]) (POST_ref b base_sha))
        <> 201 ->
        Boussole._perform_cherry_pick E h b st
        = (Ret false,
           adds st2 [GET_ref base; POST_ref b base_sha;
                     POST_comment (pr_num h)
                       (CHERRY_PICK_ERROR (pr_num h) b (StatusText "422")
                          ("Could not create branch: " ++ b)%string)] [])).
Proof.
  intros Hc st1 H0 Hpr _ base found. split.
  - intros Hbase. apply (_perform_cherry_pick_run _ _ _ _ false None).
    rewrite job_with_commits by exact Hc. fold st1.
    unfold bind at 1, Boussole.resolve_branch, bind at 1.
    rewrite _get_branch_sha_run, H0. unfold bind at 1. rewrite Hpr.
    unfold bind at 1. rewrite _get_branch_sha_run. fold base. fold found. rewrite Hbase.
    unfold bind. rewrite _post_comment_run. unfold ret.
    now rewrite adds_adds.
  - intros base_sha Hbase Hs. apply Z.eqb_neq in Hs.
    apply (_perform_cherry_pick_run _ _ _ _ false None).
    rewrite job_with_commits by exact Hc. fold st1.
    unfold bind at 1, Boussole.resolve_branch, bind at 1.
    rewrite _get_branch_sha_run, H0. unfold bind at 1. rewrite Hpr.
    unfold bind at 1. rewrite _get_branch_sha_run. fold base. fold found. rewrite Hbase.
    unfold bind at 1. rewrite _create_branch_run, trace_adds, Hs. cbn [negb].
    unfold bind. rewrite _post_comment_run. unfold ret.
    now rewrite !adds_adds.
Qed.

Lemma X24_branch_cannot_be_made_witness :
  fst (Boussole._perform_cherry_pick (without_branches Scenario.new_branch)
         Scenario.handler "release-1.2" initial) = Ret false
  /\ fst (Boussole._perform_cherry_pick
            (refusing Scenario.new_branch is_branch_creation 403)
            Scenario.handler "release-1.2" initial) = Ret false.
Proof.
  split.
  - destruct (X24_branch_cannot_be_made (without_branches Scenario.new_branch)
                Scenario.handler "release-1.2" initial
                (caching (adds initial [GET_commits "12"; GET_ref "release-1.2";
                                        GET_pull "12"] []) Scenario.open_pull)
                Scenario.open_pull) as [H _];
      [discriminate | reflexivity | reflexivity | reflexivity |].
    now rewrite H.
  - destruct (X24_branch_cannot_be_made
                (refusing Scenario.new_branch is_branch_creation 403)
                Scenario.handler "release-1.2" initial
                (caching (adds initial [GET_commits "12"; GET_ref "release-1.2";
                                        GET_pull "12"] []) Scenario.open_pull)
                Scenario.open_pull) as [_ H];
      [discriminate | reflexivity | reflexivity | reflexivity |].
    rewrite (H "abc123"); [reflexivity | reflexivity | simpl; lia].
Defined.

(** ** The merge command of prow *)





(** ** Reviewers *)

Lemma lstrip_at_spec (s : string) :
  at_first (Text.lstrip_at s) = false
  /\ (at_first s = false -> Text.lstrip_at s = s).
Proof.
  induction s as [|c s IH]; [now split|].
  cbn [Text.lstrip_at at_first].
  destruct (Ascii.eqb c "@"%char) eqn:Hc.
  - split; [exact (proj1 IH) | discriminate].
  - split; [cbn [at_first]; exact Hc | reflexivity].
Qed.

(** X26: [assign_unassign] makes one call on the reviewers of the pull
    request, a request for [assign] and a removal for any other command,
    with the users named without their leading at signs, however many were
    typed, and otherwise as they were given; it posts its confirmation
    after the call and only when the call is answered 200, 201 or 204, and
    hands the answer of the call back. *)
Theorem X26_reviewers_without_at_signs (E : Env) (h : Handler) (command : string)
    (users : list string) (st : St) :
  let names := map Text.lstrip_at users in
  let call := if String.eqb command "assign" then POST_reviewers (pr_num h) names
              else DELETE_reviewers (pr_num h) names in
  let r := plain_of E (trace st) call in
  assign_unassign E h command users st
  = (Ret r,
     adds st (call :: if assigned r then [POST_comment (pr_num h) (MSG_assigned command names)]
                      else []) [])
  /\ Forall (fun n => at_first n = false) names
  /\ (Forall (fun u => at_first u = false) users -> names = users).
Proof.
  intros names call r. split; [|split].
  - unfold assign_unassign, bind at 1, bind at 1, api_call at 1. cbn beta iota.
    fold names. fold call. fold r.
    assert (Hd : response_ok r
                 && ((status_code r =? 200) || (status_code r =? 201)
                     || (status_code r =? 204)) = assigned r).
    { unfold assigned, response_ok.
      destruct (Z.eqb_spec (status_code r) 200) as [->|]; [reflexivity|].
      destruct (Z.eqb_spec (status_code r) 201) as [->|]; [reflexivity|].
      destruct (Z.eqb_spec (status_code r) 204) as [->|]; [reflexivity|].
      apply andb_false_r. }
    rewrite Hd. destruct (assigned r).
    + unfold bind, post_comment, api_call, ret. now rewrite !record_adds, adds_adds.
    + unfold ret. now rewrite record_adds.
  - subst names. apply Forall_forall. intros n Hn. apply in_map_iff in Hn.
    destruct Hn as (u & <- & _). apply lstrip_at_spec.
  - subst names. intros Hu. induction Hu as [|u us Hu _ IH]; [reflexivity|].
    cbn [map]. rewrite IH. f_equal. now apply lstrip_at_spec.
Qed.
